(** * Window embedding subsystem (src/native/window-manager.cc)

    A shallow embedding of the native window manager: the style rewriting
    of [EmbedWindow] and [UnparentWindow], the main-window search of
    [FindMainWindow], and the nine operations the module exports to
    JavaScript, written as programs over the calls they make to the
    windowing platform. *)

From Stdlib Require Import ZArith Lia Bool List String Ascii DecimalString DecimalNat.
From stdpp Require Import base option list strings gmap.

Local Open Scope Z_scope.

(** ** Platform constants (windows.h)

    A [LONG] style word is represented by its 32-bit two's-complement
    pattern, a [Z] in [0, 2^32). *)

Module Win.

Definition WS_POPUP       : Z := 0x80000000.
Definition WS_CHILD       : Z := 0x40000000.
Definition WS_VISIBLE     : Z := 0x10000000.
Definition WS_CAPTION     : Z := 0x00C00000.
Definition WS_BORDER      : Z := 0x00800000.
Definition WS_SYSMENU     : Z := 0x00080000.
Definition WS_THICKFRAME  : Z := 0x00040000.
Definition WS_MINIMIZEBOX : Z := 0x00020000.
Definition WS_MAXIMIZEBOX : Z := 0x00010000.

Definition WS_EX_DLGMODALFRAME : Z := 0x00000001.
Definition WS_EX_TOOLWINDOW    : Z := 0x00000080.
Definition WS_EX_WINDOWEDGE    : Z := 0x00000100.
Definition WS_EX_CLIENTEDGE    : Z := 0x00000200.
Definition WS_EX_STATICEDGE    : Z := 0x00020000.

Definition GWL_STYLE   : Z := -16.
Definition GWL_EXSTYLE : Z := -20.

Definition SW_HIDE : Z := 0.
Definition SW_SHOW : Z := 5.

Definition HWND_TOP : Z := 0.

Definition SWP_NOSIZE       : Z := 0x0001.
Definition SWP_NOMOVE       : Z := 0x0002.
Definition SWP_NOZORDER     : Z := 0x0004.
Definition SWP_FRAMECHANGED : Z := 0x0020.
Definition SWP_SHOWWINDOW   : Z := 0x0040.

Definition RDW_ALLCHILDREN : Z := 0x0080.
Definition RDW_UPDATENOW   : Z := 0x0100.

Definition PROCESS_TERMINATE         : Z := 0x0001.
Definition PROCESS_VM_READ           : Z := 0x0010.
Definition PROCESS_QUERY_INFORMATION : Z := 0x0400.

Definition ERROR_FILE_NOT_FOUND        : Z := 2.
Definition ERROR_ACCESS_DENIED         : Z := 5.
Definition ERROR_INVALID_PARAMETER     : Z := 87.
Definition ERROR_INVALID_WINDOW_HANDLE : Z := 1400.
Definition ERROR_INVALID_INDEX         : Z := 1413.

End Win.
Import Win.

(** ** 32-bit words *)

(** [~m] on an [unsigned long]: the wrap-around is written out. *)
Definition not32 (m : Z) : Z := (Z.lnot m) mod 2 ^ 32.

(** [int] results of [Int32Value] and of [int] arithmetic: reduction into
    [-2^31, 2^31). *)
Definition wrap32 (z : Z) : Z := (z + 2 ^ 31) mod 2 ^ 32 - 2 ^ 31.

(** [DWORD] results of [Uint32Value]. *)
Definition wrapU32 (z : Z) : Z := z mod 2 ^ 32.

(** A C condition [if (style & MASK)]. *)
Definition has_any (style mask : Z) : bool := negb (Z.land style mask =? 0).

(** ** Style rewriting *)

(** The bits [EmbedWindow] strips (line 207). *)
Definition embed_strip_mask : Z :=
  Z.lor WS_THICKFRAME (Z.lor WS_MINIMIZEBOX (Z.lor WS_MAXIMIZEBOX (Z.lor WS_SYSMENU WS_POPUP))).

(** Lines 202-216 of [EmbedWindow]: the new style word. *)
Definition embedStyle (originalStyle : Z) : Z :=
  let style := originalStyle in
  let style := Z.land style (not32 embed_strip_mask) in
  let style := Z.lor style (Z.lor WS_CHILD WS_VISIBLE) in
  if has_any originalStyle WS_CAPTION
  then Z.lor style (Z.lor WS_CAPTION WS_BORDER)
  else Z.lor style WS_BORDER.

(** The extended-style bits [EmbedWindow] clears (line 218). *)
Definition embed_ex_mask : Z :=
  Z.lor WS_EX_DLGMODALFRAME (Z.lor WS_EX_WINDOWEDGE (Z.lor WS_EX_CLIENTEDGE WS_EX_STATICEDGE)).

(** Line 218 of [EmbedWindow]: the new extended style word. *)
Definition embedExStyle (originalExStyle : Z) : Z :=
  Z.land originalExStyle (not32 embed_ex_mask).

(** The bits [UnparentWindow] sets (line 404). *)
Definition unparent_set_mask : Z :=
  Z.lor WS_CAPTION (Z.lor WS_THICKFRAME (Z.lor WS_MINIMIZEBOX (Z.lor WS_MAXIMIZEBOX WS_SYSMENU))).

(** Lines 402-404 of [UnparentWindow]: the restored style word. *)
Definition unparentStyle (style : Z) : Z :=
  let style := Z.land style (not32 WS_CHILD) in
  Z.lor style unparent_set_mask.

(** ** JavaScript values at the N-API boundary

    A JavaScript number is a double; the embedding covers the integral
    ones, which is what handles, process ids and pixel coordinates are. *)

Inductive JsValue : Type :=
| JsUndefined
| JsBoolean (b : bool)
| JsNumber (n : Z)
| JsString (s : string).

Definition IsNumber (v : JsValue) : bool :=
  match v with JsNumber _ => true | _ => false end.
Definition IsString (v : JsValue) : bool :=
  match v with JsString _ => true | _ => false end.
Definition IsBoolean (v : JsValue) : bool :=
  match v with JsBoolean _ => true | _ => false end.

(** [info[i]]; reading past [info.Length()] gives [undefined]. *)
Definition arg (info : list JsValue) (i : nat) : JsValue := nth i info JsUndefined.

(** [Int64Value]: an integral double in range converts to itself, one
    out of range to the nearest end of the range. *)
Definition Int64Value (v : JsValue) : Z :=
  match v with
  | JsNumber n =>
      if n <? - 2 ^ 63 then - 2 ^ 63
      else if 2 ^ 63 <=? n then 2 ^ 63 - 1
      else n
  | _ => 0
  end.
(** [Int32Value] and [Uint32Value] keep the bottom 32 bits. *)
Definition Int32Value (v : JsValue) : Z :=
  match v with JsNumber n => wrap32 n | _ => 0 end.
Definition Uint32Value (v : JsValue) : Z :=
  match v with JsNumber n => wrapU32 n | _ => 0 end.
Definition Utf8Value (v : JsValue) : string :=
  match v with JsString s => s | _ => "" end.
Definition BoolValue (v : JsValue) : bool :=
  match v with JsBoolean b => b | _ => false end.

(** What a call of an exported function leaves behind: the object it
    returns and the JavaScript exception it has made pending, if any. *)
Record Outcome : Type := mkOutcome {
  returned : gmap string JsValue;
  thrown : option string
}.

(** [Napi::Object::New(env)] followed by [return result]. *)
Definition returns (result : gmap string JsValue) : Outcome :=
  {| returned := result; thrown := None |}.

(** [Napi::TypeError::New(env, msg).ThrowAsJavaScriptException();
     return Napi::Object::New(env);] *)
Definition throwTypeError (msg : string) : Outcome :=
  {| returned := ∅; thrown := Some msg |}.

(** The two result shapes the operations build. *)
Definition failure (msg : string) : gmap string JsValue :=
  <["error" := JsString msg]> (<["success" := JsBoolean false]> ∅).
Definition succeeded : gmap string JsValue :=
  <["success" := JsBoolean true]> ∅.

(** ** Calls to the platform *)

Definition HWND := Z.
Definition HANDLE := Z.

Record RECT : Type := mkRECT { left : Z; top : Z; right : Z; bottom : Z }.

Record PROCESS_INFORMATION : Type := mkPI {
  hProcess : HANDLE; hThread : HANDLE; dwProcessId : Z
}.

(** One constructor per platform function the module calls, indexed by
    the type of what the call hands back. [EnumWindowHandles] is the
    sequence of top-level windows [EnumWindows] walks. *)
Inductive WinCall : Type -> Type :=
| IsWindow (hwnd : HWND) : WinCall bool
| IsWindowVisible (hwnd : HWND) : WinCall bool
| GetParent (hwnd : HWND) : WinCall HWND
| GetWindowThreadProcessId (hwnd : HWND) : WinCall Z
| GetClassNameA (hwnd : HWND) (nMaxCount : nat) : WinCall string
| GetWindowTextA (hwnd : HWND) (nMaxCount : nat) : WinCall string
| GetWindowLongW (hwnd : HWND) (nIndex : Z) : WinCall Z
| GetWindowRect (hwnd : HWND) : WinCall (option RECT)
| EnumWindowHandles : WinCall (list HWND)
| GetLastError : WinCall Z
| FormatMessageA (dwMessageId : Z) : WinCall string
| ShowWindow (hwnd : HWND) (nCmdShow : Z) : WinCall bool
| BringWindowToTop (hwnd : HWND) : WinCall bool
| SetForegroundWindow (hwnd : HWND) : WinCall bool
| SetParent (hwndChild hwndNewParent : HWND) : WinCall HWND
| SetWindowLongW (hwnd : HWND) (nIndex : Z) (dwNewLong : Z) : WinCall Z
| SetWindowPos (hwnd hwndInsertAfter : HWND) (x y cx cy : Z) (uFlags : Z) : WinCall bool
| InvalidateRect (hwnd : HWND) (bErase : bool) : WinCall bool
| UpdateWindow (hwnd : HWND) : WinCall bool
| RedrawWindow (hwnd : HWND) (flags : Z) : WinCall bool
| CreateProcessA (lpCommandLine : string) : WinCall (option PROCESS_INFORMATION)
| OpenProcess (dwDesiredAccess : Z) (dwProcessId : Z) : WinCall HANDLE
| TerminateProcess (hProcess : HANDLE) (uExitCode : Z) : WinCall bool
| GetModuleFileNameExA (hProcess : HANDLE) : WinCall (option string)
| CloseHandle (hObject : HANDLE) : WinCall bool.

(** The calls that change something on the platform side; the others
    only read. *)
Definition is_mutation {R} (c : WinCall R) : bool :=
  match c with
  | ShowWindow _ _ | BringWindowToTop _ | SetForegroundWindow _
  | SetParent _ _ | SetWindowLongW _ _ _ | SetWindowPos _ _ _ _ _ _ _
  | InvalidateRect _ _ | UpdateWindow _ | RedrawWindow _ _
  | CreateProcessA _ | TerminateProcess _ _ | CloseHandle _ => true
  | _ => false
  end.

(** ** Programs over platform calls *)

Inductive Prog (A : Type) : Type :=
| Ret (a : A)
| Call {R : Type} (c : WinCall R) (k : R -> Prog A).
Arguments Ret {A} a.
Arguments Call {A R} c k.

Fixpoint bind {A B} (p : Prog A) (f : A -> Prog B) : Prog B :=
  match p with
  | Ret a => f a
  | Call c k => Call c (fun r => bind (k r) f)
  end.

Definition call {R} (c : WinCall R) : Prog R := Call c Ret.

Declare Scope prog_scope.
Delimit Scope prog_scope with prog.
Notation "x <- p ;; q" := (bind p (fun x => q))
  (at level 100, p at next level, right associativity) : prog_scope.
Notation "p ;; q" := (bind p (fun _ => q))
  (at level 100, right associativity) : prog_scope.
Local Open Scope prog_scope.

(** A call that was made, with its arguments. *)
Inductive Event : Type :=
| Ev {R : Type} (c : WinCall R).

Definition event_is_mutation (e : Event) : bool :=
  match e with Ev c => is_mutation c end.

(** A platform: how each call answers and what it does to the state [W]. *)
Definition Handler (W : Type) : Type := forall R, WinCall R -> W -> R * W.

(** Running a program on a platform gives its result, the final platform
    state and the calls made, in order. *)
Fixpoint run {W A} (h : Handler W) (p : Prog A) (w : W) : A * W * list Event :=
  match p with
  | Ret a => (a, w, [])
  | Call c k =>
      let '(r, w1) := h _ c w in
      let '(a, w2, t) := run h (k r) w1 in
      (a, w2, Ev c :: t)
  end.

Definition result_of {W A} (x : A * W * list Event) : A := x.1.1.
Definition state_of {W A} (x : A * W * list Event) : W := x.1.2.
Definition trace_of {W A} (x : A * W * list Event) : list Event := x.2.

(** ** The module's functions *)

Module WM.

(** [GetLastErrorString] (lines 15-28). *)
Definition GetLastErrorString : Prog string :=
  error <- call GetLastError ;;
  if error =? 0 then Ret "Unknown error"
  else
    message <- call (FormatMessageA error) ;;
    Ret message.

(** The state the enumeration callback of [FindMainWindow] works on. *)
Record EnumData : Type := mkEnumData {
  data_processId : Z;
  data_hwnd : HWND;
  data_bestHwnd : HWND
}.

(** Lines 49-52: the window classes that are skipped. *)
Definition is_system_class (className : string) : bool :=
  String.eqb className "Shell_TrayWnd" ||
  String.eqb className "Button" ||
  String.eqb className "Progman" ||
  String.eqb className "Shell_SecondaryTrayWnd".

(** Line 62: the title or style test, on what the platform answered. *)
Definition looks_like_app_window (title : string) (style : Z) : bool :=
  (0 <? String.length title)%nat || has_any style WS_CAPTION || has_any style WS_BORDER.

(** Lines 57-66: is this the window to stop at? The C [&&] makes the
    second call only after the first one answered yes. *)
Definition is_good_window (hwnd : HWND) : Prog bool :=
  visible <- call (IsWindowVisible hwnd) ;;
  if visible then
    parent <- call (GetParent hwnd) ;;
    if parent =? 0 then
      title <- call (GetWindowTextA hwnd 256) ;;
      style <- call (GetWindowLongW hwnd GWL_STYLE) ;;
      Ret (looks_like_app_window title style)
    else Ret false
  else Ret false.

(** Lines 69-75: remember the first window that is not a tool window. *)
Definition remember_fallback (hwnd : HWND) (data : EnumData) : Prog EnumData :=
  if data_bestHwnd data =? 0 then
    live <- call (IsWindow hwnd) ;;
    if live then
      exStyle <- call (GetWindowLongW hwnd GWL_EXSTYLE) ;;
      if negb (has_any exStyle WS_EX_TOOLWINDOW)
      then Ret (mkEnumData (data_processId data) (data_hwnd data) hwnd)
      else Ret data
    else Ret data
  else Ret data.

(** The callback handed to [EnumWindows] (lines 39-78): [true] asks for
    the next window, [false] stops the enumeration. *)
Definition FindMainWindow_callback (hwnd : HWND) (data : EnumData) : Prog (bool * EnumData) :=
  windowProcessId <- call (GetWindowThreadProcessId hwnd) ;;
  if windowProcessId =? data_processId data then
    className <- call (GetClassNameA hwnd 256) ;;
    if is_system_class className then Ret (true, data)
    else
      good <- is_good_window hwnd ;;
      if good then Ret (false, mkEnumData (data_processId data) hwnd (data_bestHwnd data))
      else
        data' <- remember_fallback hwnd data ;;
        Ret (true, data')
  else Ret (true, data).

(** [EnumWindows]: the callback is run on each top-level window in turn
    until it answers [false]. *)
Fixpoint EnumWindows_from {D} (callback : HWND -> D -> Prog (bool * D))
    (handles : list HWND) (data : D) : Prog D :=
  match handles with
  | [] => Ret data
  | hwnd :: rest =>
      r <- callback hwnd data ;;
      if r.1 then EnumWindows_from callback rest r.2 else Ret r.2
  end.

Definition EnumWindows {D} (callback : HWND -> D -> Prog (bool * D)) (data : D) : Prog D :=
  handles <- call EnumWindowHandles ;;
  EnumWindows_from callback handles data.

(** [FindMainWindow] (lines 31-82). *)
Definition FindMainWindow (processId : Z) : Prog HWND :=
  enumData <- EnumWindows FindMainWindow_callback (mkEnumData processId 0 0) ;;
  Ret (if negb (data_hwnd enumData =? 0) then data_hwnd enumData else data_bestHwnd enumData).

(** [strcpy_s(cmdLine, n, exePath.c_str())] (lines 103-104): the copy
    stops at the first NUL of the string. *)
Fixpoint c_string (s : string) : string :=
  match s with
  | EmptyString => EmptyString
  | String c rest => if Ascii.eqb c "000"%char then EmptyString else String c (c_string rest)
  end.

(** Lines 98-134 of [LaunchApplication]: what runs once the arguments
    have passed the type check. *)
Definition launchProcess (exePath : string) : Prog Outcome :=
  let cmdLine := c_string exePath in
  created <- call (CreateProcessA cmdLine) ;;
  match created with
  | None =>
      msg <- GetLastErrorString ;;
      Ret (returns (failure ("Failed to launch process: " +:+ msg)))
  | Some pi =>
      _ <- call (CloseHandle (hThread pi)) ;;
      Ret (returns (<["processHandle" := JsNumber (hProcess pi)]>
                    (<["processId" := JsNumber (dwProcessId pi)]> succeeded)))
  end.

(** [LaunchApplication] (lines 85-135). *)
Definition LaunchApplication (info : list JsValue) : Prog Outcome :=
  if (length info <? 2)%nat || negb (IsString (arg info 0)) || negb (IsNumber (arg info 1))
  then Ret (throwTypeError "Expected (exePath: string, parentHWND: number)")
  else launchProcess (Utf8Value (arg info 0)).

(** Lines 232-261 of [EmbedWindow]: position, verify, repaint. *)
Definition EmbedWindow_position (hwnd : HWND) (x y width height : Z) : Prog Outcome :=
  posSuccess <- call (SetWindowPos hwnd HWND_TOP x y width height
                        (Z.lor SWP_SHOWWINDOW (Z.lor SWP_FRAMECHANGED SWP_NOZORDER))) ;;
  if negb posSuccess then
    msg <- GetLastErrorString ;;
    Ret (returns (failure ("Failed to position window: " +:+ msg)))
  else
    live <- call (IsWindow hwnd) ;;
    if negb live then Ret (returns (failure "Window closed during embedding process"))
    else
      _ <- call (ShowWindow hwnd SW_SHOW) ;;
      _ <- call (BringWindowToTop hwnd) ;;
      _ <- call (InvalidateRect hwnd true) ;;
      _ <- call (UpdateWindow hwnd) ;;
      _ <- call (RedrawWindow hwnd (Z.lor RDW_UPDATENOW RDW_ALLCHILDREN)) ;;
      Ret (returns succeeded).

(** Lines 182-229 of [EmbedWindow]: verify, rewrite both style words,
    verify. *)
Definition EmbedWindow_restyle (hwnd : HWND) (x y width height : Z) : Prog Outcome :=
  live <- call (IsWindow hwnd) ;;
  if negb live then
    Ret (returns (failure "Window closed immediately after embedding (app may not support embedding)"))
  else
    originalStyle <- call (GetWindowLongW hwnd GWL_STYLE) ;;
    originalExStyle <- call (GetWindowLongW hwnd GWL_EXSTYLE) ;;
    live <- call (IsWindow hwnd) ;;
    if negb live then
      Ret (returns (failure "Window closed immediately after SetParent (app security restriction)"))
    else
      let style := embedStyle originalStyle in
      let exStyle := embedExStyle originalExStyle in
      _ <- call (SetWindowLongW hwnd GWL_STYLE style) ;;
      _ <- call (SetWindowLongW hwnd GWL_EXSTYLE exStyle) ;;
      live <- call (IsWindow hwnd) ;;
      if negb live then
        Ret (returns (failure "Window closed after style modification (app may not support embedding)"))
      else EmbedWindow_position hwnd x y width height.

(** Lines 167-180 of [EmbedWindow]: the reparent step. [None] when it
    went through, the failure result otherwise. The C [&&] asks for the
    last error only when the old parent came back [NULL]. *)
Definition EmbedWindow_reparent (hwnd parentHWND : HWND) : Prog (option Outcome) :=
  oldParent <- call (SetParent hwnd parentHWND) ;;
  if oldParent =? 0 then
    e <- call GetLastError ;;
    if negb (e =? 0) then
      error <- call GetLastError ;;
      if error =? 87 then
        Ret (Some (returns (failure "Application refuses window embedding (security restriction)")))
      else
        msg <- GetLastErrorString ;;
        Ret (Some (returns (failure ("Failed to set parent: " +:+ msg))))
    else Ret None
  else Ret None.

Definition EmbedWindow_usage : string :=
  "Expected (hwnd: number, parentHWND: number, x: number, y: number, width: number, height: number)".

(** Lines 162-165 of [EmbedWindow]: make the window visible and bring it
    to the front. *)
Definition EmbedWindow_show (hwnd : HWND) : Prog unit :=
  _ <- call (ShowWindow hwnd SW_SHOW) ;;
  _ <- call (BringWindowToTop hwnd) ;;
  _ <- call (SetForegroundWindow hwnd) ;;
  Ret tt.

(** Lines 156-262 of [EmbedWindow]: what runs once the arguments have
    passed the type check. *)
Definition embed (hwnd parentHWND : HWND) (x y width height : Z) : Prog Outcome :=
  live <- call (IsWindow hwnd) ;;
  if negb live then Ret (returns (failure "Invalid window handle"))
  else
    _ <- EmbedWindow_show hwnd ;;
    refused <- EmbedWindow_reparent hwnd parentHWND ;;
    match refused with
    | Some out => Ret out
    | None => EmbedWindow_restyle hwnd x y width height
    end.

(** [EmbedWindow] (lines 138-262). *)
Definition EmbedWindow (info : list JsValue) : Prog Outcome :=
  if (length info <? 6)%nat || negb (IsNumber (arg info 0)) || negb (IsNumber (arg info 1))
     || negb (IsNumber (arg info 2)) || negb (IsNumber (arg info 3))
     || negb (IsNumber (arg info 4)) || negb (IsNumber (arg info 5))
  then Ret (throwTypeError EmbedWindow_usage)
  else
    embed (Int64Value (arg info 0)) (Int64Value (arg info 1))
          (Int32Value (arg info 2)) (Int32Value (arg info 3))
          (Int32Value (arg info 4)) (Int32Value (arg info 5)).

(** Lines 286-289, 326-329, 374-377 and 444-447: the result built from a
    [BOOL] the platform returned. *)
Definition report_BOOL (success : bool) : Prog Outcome :=
  let result := <["success" := JsBoolean success]> ∅ in
  if negb success then
    msg <- GetLastErrorString ;;
    Ret (returns (<["error" := JsString msg]> result))
  else Ret (returns result).

(** Lines 278-291 of [ShowWindowNative]. *)
Definition showHide (hwnd : HWND) (show : bool) : Prog Outcome :=
  live <- call (IsWindow hwnd) ;;
  if negb live then Ret (returns (failure "Invalid window handle"))
  else
    success <- call (ShowWindow hwnd (if show then SW_SHOW else SW_HIDE)) ;;
    report_BOOL success.

(** [ShowWindowNative] (lines 265-292). *)
Definition ShowWindowNative (info : list JsValue) : Prog Outcome :=
  if (length info <? 2)%nat || negb (IsNumber (arg info 0)) || negb (IsBoolean (arg info 1))
  then Ret (throwTypeError "Expected (hwnd: number, show: boolean)")
  else showHide (Int64Value (arg info 0)) (BoolValue (arg info 1)).

(** Lines 312-331 of [ResizeWindow]. *)
Definition resize (hwnd : HWND) (x y width height : Z) : Prog Outcome :=
  live <- call (IsWindow hwnd) ;;
  if negb live then Ret (returns (failure "Invalid window handle"))
  else
    success <- call (SetWindowPos hwnd HWND_TOP x y width height SWP_SHOWWINDOW) ;;
    report_BOOL success.

(** [ResizeWindow] (lines 295-332). *)
Definition ResizeWindow (info : list JsValue) : Prog Outcome :=
  if (length info <? 5)%nat || negb (IsNumber (arg info 0)) || negb (IsNumber (arg info 1))
     || negb (IsNumber (arg info 2)) || negb (IsNumber (arg info 3))
     || negb (IsNumber (arg info 4))
  then Ret (throwTypeError "Expected (hwnd: number, x: number, y: number, width: number, height: number)")
  else
    resize (Int64Value (arg info 0)) (Int32Value (arg info 1)) (Int32Value (arg info 2))
           (Int32Value (arg info 3)) (Int32Value (arg info 4)).

(** Lines 349-379 of [MoveWindowNative]. *)
Definition move (hwnd : HWND) (x y : Z) : Prog Outcome :=
  live <- call (IsWindow hwnd) ;;
  if negb live then Ret (returns (failure "Invalid window handle"))
  else
    got <- call (GetWindowRect hwnd) ;;
    match got with
    | None =>
        msg <- GetLastErrorString ;;
        Ret (returns (failure ("Failed to get window size: " +:+ msg)))
    | Some rect =>
        let width := wrap32 (right rect - left rect) in
        let height := wrap32 (bottom rect - top rect) in
        success <- call (SetWindowPos hwnd HWND_TOP x y width height
                           (Z.lor SWP_NOSIZE SWP_SHOWWINDOW)) ;;
        report_BOOL success
    end.

(** [MoveWindowNative] (lines 335-380). *)
Definition MoveWindowNative (info : list JsValue) : Prog Outcome :=
  if (length info <? 3)%nat || negb (IsNumber (arg info 0)) || negb (IsNumber (arg info 1))
     || negb (IsNumber (arg info 2))
  then Ret (throwTypeError "Expected (hwnd: number, x: number, y: number)")
  else move (Int64Value (arg info 0)) (Int32Value (arg info 1)) (Int32Value (arg info 2)).

(** Lines 395-418 of [UnparentWindow]. The last error is read only when
    the old parent came back [NULL], once for the flag and once for the
    message. *)
Definition detach (hwnd : HWND) : Prog Outcome :=
  live <- call (IsWindow hwnd) ;;
  if negb live then Ret (returns (failure "Invalid window handle"))
  else
    style <- call (GetWindowLongW hwnd GWL_STYLE) ;;
    _ <- call (SetWindowLongW hwnd GWL_STYLE (unparentStyle style)) ;;
    oldParent <- call (SetParent hwnd 0) ;;
    _ <- call (SetWindowPos hwnd 0 0 0 0 0
                 (Z.lor SWP_NOMOVE (Z.lor SWP_NOSIZE (Z.lor SWP_NOZORDER SWP_FRAMECHANGED)))) ;;
    if negb (oldParent =? 0) then Ret (returns succeeded)
    else
      e1 <- call GetLastError ;;
      let result := <["success" := JsBoolean (e1 =? 0)]> ∅ in
      e2 <- call GetLastError ;;
      if negb (e2 =? 0) then
        msg <- GetLastErrorString ;;
        Ret (returns (<["error" := JsString msg]> result))
      else Ret (returns result).

(** [UnparentWindow] (lines 383-419). *)
Definition UnparentWindow (info : list JsValue) : Prog Outcome :=
  if (length info <? 1)%nat || negb (IsNumber (arg info 0))
  then Ret (throwTypeError "Expected (hwnd: number)")
  else detach (Int64Value (arg info 0)).

(** Lines 434-449 of [TerminateProcessNative]. *)
Definition terminate (processId : Z) : Prog Outcome :=
  hProcess <- call (OpenProcess PROCESS_TERMINATE processId) ;;
  if hProcess =? 0 then
    msg <- GetLastErrorString ;;
    Ret (returns (failure ("Failed to open process: " +:+ msg)))
  else
    success <- call (TerminateProcess hProcess 0) ;;
    _ <- call (CloseHandle hProcess) ;;
    report_BOOL success.

(** [TerminateProcessNative] (lines 422-450). *)
Definition TerminateProcessNative (info : list JsValue) : Prog Outcome :=
  if (length info <? 1)%nat || negb (IsNumber (arg info 0))
  then Ret (throwTypeError "Expected (processId: number)")
  else terminate (Uint32Value (arg info 0)).

(** [std::string::find_last_of] with the two path separators. *)
Fixpoint find_last_of_sep (s : string) (pos : nat) (found : option nat) : option nat :=
  match s with
  | EmptyString => found
  | String c rest =>
      find_last_of_sep rest (S pos)
        (if Ascii.eqb c "\"%char || Ascii.eqb c "/"%char then Some pos else found)
  end.

(** Lines 485-490: the file name of a module path. *)
Definition file_name_of (processPath : string) : string :=
  match find_last_of_sep processPath 0 None with
  | Some pos => String.substring (S pos) (String.length processPath) processPath
  | None => processPath
  end.

(** Lines 465-499 of [GetWindowInfoNative]. *)
Definition queryWindowInfo (hwnd : HWND) : Prog Outcome :=
  live <- call (IsWindow hwnd) ;;
  if negb live then Ret (returns (failure "Invalid window handle"))
  else
    title <- call (GetWindowTextA hwnd 256) ;;
    processId <- call (GetWindowThreadProcessId hwnd) ;;
    hProcess <- call (OpenProcess (Z.lor PROCESS_QUERY_INFORMATION PROCESS_VM_READ) processId) ;;
    processName <-
      (if negb (hProcess =? 0) then
         path <- call (GetModuleFileNameExA hProcess) ;;
         _ <- call (CloseHandle hProcess) ;;
         Ret (match path with Some processPath => file_name_of processPath | None => "Unknown" end)
       else Ret "Unknown") ;;
    Ret (returns (<["processName" := JsString processName]>
                  (<["title" := JsString title]> succeeded))).

(** [GetWindowInfoNative] (lines 453-500). *)
Definition GetWindowInfoNative (info : list JsValue) : Prog Outcome :=
  if (length info <? 1)%nat || negb (IsNumber (arg info 0))
  then Ret (throwTypeError "Expected (hwnd: number)")
  else queryWindowInfo (Int64Value (arg info 0)).

(** Lines 515-524 of [GetMainWindowAPI]. The C [&&] checks liveness only
    for a handle that is not [NULL]. *)
Definition resolveMainWindow (processId : Z) : Prog Outcome :=
  hwnd <- FindMainWindow processId ;;
  if negb (hwnd =? 0) then
    live <- call (IsWindow hwnd) ;;
    if live then Ret (returns (<["hwnd" := JsNumber hwnd]> succeeded))
    else Ret (returns (<["success" := JsBoolean false]> ∅))
  else Ret (returns (<["success" := JsBoolean false]> ∅)).

(** [GetMainWindowAPI] (lines 503-525). *)
Definition GetMainWindowAPI (info : list JsValue) : Prog Outcome :=
  if (length info <? 1)%nat || negb (IsNumber (arg info 0))
  then Ret (throwTypeError "Expected (processId: number)")
  else resolveMainWindow (Uint32Value (arg info 0)).

(** The window-manager functions [Init] exports (lines 529-546). *)
Inductive Operation : Type :=
| launchApplication | embedWindow | showWindow | resizeWindow | moveWindow
| unparentWindow | terminateProcess | getWindowInfo | getMainWindow.

Definition exported (op : Operation) : list JsValue -> Prog Outcome :=
  match op with
  | launchApplication => LaunchApplication
  | embedWindow => EmbedWindow
  | showWindow => ShowWindowNative
  | resizeWindow => ResizeWindow
  | moveWindow => MoveWindowNative
  | unparentWindow => UnparentWindow
  | terminateProcess => TerminateProcessNative
  | getWindowInfo => GetWindowInfoNative
  | getMainWindow => GetMainWindowAPI
  end.

End WM.

(** ** A synthetic windowing platform

    The platform the module talks to is not part of the repository. This
    is a single-threaded windowing layer to run the programs on: windows
    with the attributes the module reads and writes, the documented
    answers of the calls, and, for each window, how its application
    reacts to being manipulated. Z-order changes, window messages and
    painting are not represented. *)

Module Desktop.

(** How the application owning a window reacts. *)
Inductive Temper : Type :=
| Cooperative
| RefusesReparent (code : positive)
| ClosesOnReparent
| ClosesOnStyleChange
| RejectsReposition (code : positive)
| ClosesOnReposition.

Record Window : Type := mkWindow {
  w_pid : Z;
  w_class : string;
  w_title : string;
  w_style : Z;
  w_exstyle : Z;
  w_parent : HWND;
  w_owner : HWND;
  w_rect : RECT;
  w_temper : Temper
}.

Record Process : Type := mkProcess {
  p_path : string;
  p_protected : bool
}.

Record World : Type := mkWorld {
  windows : gmap Z Window;
  zorder : list HWND;
  processes : gmap Z Process;
  programs : list string;
  nextPid : Z;
  lastError : Z
}.

Definition set_windows (ws : gmap Z Window) (w : World) : World :=
  mkWorld ws (zorder w) (processes w) (programs w) (nextPid w) (lastError w).
Definition SetLastError (e : Z) (w : World) : World :=
  mkWorld (windows w) (zorder w) (processes w) (programs w) (nextPid w) e.

Definition set_style (v : Z) (win : Window) : Window :=
  mkWindow (w_pid win) (w_class win) (w_title win) v (w_exstyle win)
           (w_parent win) (w_owner win) (w_rect win) (w_temper win).
Definition set_exstyle (v : Z) (win : Window) : Window :=
  mkWindow (w_pid win) (w_class win) (w_title win) (w_style win) v
           (w_parent win) (w_owner win) (w_rect win) (w_temper win).
Definition set_parent (p : HWND) (win : Window) : Window :=
  mkWindow (w_pid win) (w_class win) (w_title win) (w_style win) (w_exstyle win)
           p (w_owner win) (w_rect win) (w_temper win).
Definition set_rect (r : RECT) (win : Window) : Window :=
  mkWindow (w_pid win) (w_class win) (w_title win) (w_style win) (w_exstyle win)
           (w_parent win) (w_owner win) r (w_temper win).

(** The window behind a handle; [NULL] is never a window. *)
Definition window_of (w : World) (hwnd : HWND) : option Window :=
  if hwnd =? 0 then None else windows w !! hwnd.

Definition is_live (w : World) (hwnd : HWND) : bool :=
  match window_of w hwnd with Some _ => true | None => false end.

Definition put_window (hwnd : HWND) (win : Window) (w : World) : World :=
  set_windows (<[hwnd := win]> (windows w)) w.
Definition close_window (hwnd : HWND) (w : World) : World :=
  set_windows (delete hwnd (windows w)) w.

(** A call on a window: on a handle that is no window it answers [dead]
    and sets the last error. *)
Definition on_window {R} (w : World) (hwnd : HWND) (dead : R)
    (k : Window -> R * World) : R * World :=
  match window_of w hwnd with
  | Some win => k win
  | None => (dead, SetLastError ERROR_INVALID_WINDOW_HANDLE w)
  end.

Definition width (r : RECT) : Z := right r - left r.
Definition height (r : RECT) : Z := bottom r - top r.

(** The rectangle after [SetWindowPos]: [SWP_NOMOVE] keeps the corner,
    [SWP_NOSIZE] keeps the size, a negative size is clamped to zero. *)
Definition reposition (r : RECT) (x y cx cy flags : Z) : RECT :=
  let l := if has_any flags SWP_NOMOVE then left r else x in
  let t := if has_any flags SWP_NOMOVE then top r else y in
  let wd := if has_any flags SWP_NOSIZE then width r else Z.max 0 cx in
  let ht := if has_any flags SWP_NOSIZE then height r else Z.max 0 cy in
  mkRECT l t (l + wd) (t + ht).

Definition show_style (style : Z) (nCmdShow : Z) : Z :=
  if nCmdShow =? SW_HIDE then Z.land style (not32 WS_VISIBLE) else Z.lor style WS_VISIBLE.

(** The text [FormatMessageA] has for an error code; none for the codes
    not listed. *)
Definition system_message (e : Z) : string :=
  if e =? ERROR_FILE_NOT_FOUND then "The system cannot find the file specified."
  else if e =? ERROR_ACCESS_DENIED then "Access is denied."
  else if e =? 6 then "The handle is invalid."
  else if e =? ERROR_INVALID_PARAMETER then "The parameter is incorrect."
  else if e =? ERROR_INVALID_WINDOW_HANDLE then "Invalid window handle."
  else if e =? ERROR_INVALID_INDEX then "Invalid index."
  else "".

(** The buffer of [nMaxCount] bytes holds one character less. *)
Definition truncated (nMaxCount : nat) (s : string) : string :=
  String.substring 0 (Nat.pred nMaxCount) s.

Definition is_top_level (w : World) (hwnd : HWND) : bool :=
  match window_of w hwnd with
  | Some win => w_parent win =? 0
  | None => false
  end.

Definition in_programs (path : string) (w : World) : bool :=
  existsb (String.eqb path) (programs w).

(** What [GetParent] answers for a window: the parent of a child window,
    the owner of a top-level one, [NULL] when it has neither. *)
Definition parent_or_owner (win : Window) : HWND :=
  if negb (w_parent win =? 0) then w_parent win else w_owner win.

(** [SetParent]. *)
Definition do_SetParent (w : World) (hwnd newParent : HWND) : HWND * World :=
  on_window w hwnd 0 (fun win =>
    if newParent =? hwnd then (0, SetLastError ERROR_INVALID_PARAMETER w)
    else if negb (newParent =? 0) && negb (is_live w newParent)
    then (0, SetLastError ERROR_INVALID_WINDOW_HANDLE w)
    else match w_temper win with
         | RefusesReparent code => (0, SetLastError (Z.pos code) w)
         | ClosesOnReparent => (w_parent win, close_window hwnd w)
         | _ => (w_parent win, put_window hwnd (set_parent newParent win) w)
         end).

(** [SetWindowLongW]: answers the previous value. *)
Definition do_SetWindowLongW (w : World) (hwnd : HWND) (nIndex v : Z) : Z * World :=
  on_window w hwnd 0 (fun win =>
    if nIndex =? GWL_STYLE then
      (w_style win,
       match w_temper win with
       | ClosesOnStyleChange => close_window hwnd w
       | _ => put_window hwnd (set_style v win) w
       end)
    else if nIndex =? GWL_EXSTYLE then
      (w_exstyle win,
       match w_temper win with
       | ClosesOnStyleChange => close_window hwnd w
       | _ => put_window hwnd (set_exstyle v win) w
       end)
    else (0, SetLastError ERROR_INVALID_INDEX w)).

(** [SetWindowPos]. *)
Definition do_SetWindowPos (w : World) (hwnd : HWND) (x y cx cy flags : Z) : bool * World :=
  on_window w hwnd false (fun win =>
    match w_temper win with
    | RejectsReposition code => (false, SetLastError (Z.pos code) w)
    | ClosesOnReposition => (true, close_window hwnd w)
    | _ =>
        let win1 := set_rect (reposition (w_rect win) x y cx cy flags) win in
        let win2 := if has_any flags SWP_SHOWWINDOW
                    then set_style (Z.lor (w_style win1) WS_VISIBLE) win1 else win1 in
        (true, put_window hwnd win2 w)
    end).

(** [ShowWindow]: answers whether the window was visible before. *)
Definition do_ShowWindow (w : World) (hwnd : HWND) (nCmdShow : Z) : bool * World :=
  on_window w hwnd false (fun win =>
    (has_any (w_style win) WS_VISIBLE,
     put_window hwnd (set_style (show_style (w_style win) nCmdShow) win) w)).

(** [CreateProcessA]: a path among [programs] starts a process. *)
Definition do_CreateProcessA (w : World) (cmd : string) : option PROCESS_INFORMATION * World :=
  if in_programs cmd w then
    let pid := nextPid w in
    (Some (mkPI pid (pid + 1) pid),
     mkWorld (windows w) (zorder w) (<[pid := mkProcess cmd false]> (processes w))
             (programs w) (pid + 4) (lastError w))
  else (None, SetLastError ERROR_FILE_NOT_FOUND w).

(** [OpenProcess]: the handle of a process is its id. *)
Definition do_OpenProcess (w : World) (pid : Z) : HANDLE * World :=
  if pid =? 0 then (0, SetLastError ERROR_INVALID_PARAMETER w)
  else match processes w !! pid with
       | None => (0, SetLastError ERROR_INVALID_PARAMETER w)
       | Some p => if p_protected p then (0, SetLastError ERROR_ACCESS_DENIED w) else (pid, w)
       end.

(** [TerminateProcess]: the process goes, and its windows with it. *)
Definition do_TerminateProcess (w : World) (hp : HANDLE) : bool * World :=
  match processes w !! hp with
  | None => (false, SetLastError 6 w)
  | Some _ =>
      (true,
       mkWorld (filter (fun kv => w_pid kv.2 ≠ hp) (windows w)) (zorder w)
               (delete hp (processes w)) (programs w) (nextPid w) (lastError w))
  end.

(** The platform as a handler of the module's calls. *)
Definition win32 : Handler World := fun R c w =>
  match c in WinCall R return R * World with
  | IsWindow hwnd => (is_live w hwnd, w)
  | IsWindowVisible hwnd =>
      on_window w hwnd false (fun win => (has_any (w_style win) WS_VISIBLE, w))
  | GetParent hwnd => on_window w hwnd 0 (fun win => (parent_or_owner win, w))
  | GetWindowThreadProcessId hwnd => on_window w hwnd 0 (fun win => (w_pid win, w))
  | GetClassNameA hwnd n => on_window w hwnd "" (fun win => (truncated n (w_class win), w))
  | GetWindowTextA hwnd n => on_window w hwnd "" (fun win => (truncated n (w_title win), w))
  | GetWindowLongW hwnd nIndex =>
      on_window w hwnd 0 (fun win =>
        if nIndex =? GWL_STYLE then (w_style win, w)
        else if nIndex =? GWL_EXSTYLE then (w_exstyle win, w)
        else (0, SetLastError ERROR_INVALID_INDEX w))
  | GetWindowRect hwnd => on_window w hwnd None (fun win => (Some (w_rect win), w))
  | EnumWindowHandles => (List.filter (is_top_level w) (zorder w), w)
  | GetLastError => (lastError w, w)
  | FormatMessageA e => (system_message e, w)
  | ShowWindow hwnd nCmdShow => do_ShowWindow w hwnd nCmdShow
  | BringWindowToTop hwnd => on_window w hwnd false (fun _ => (true, w))
  | SetForegroundWindow hwnd => on_window w hwnd false (fun _ => (true, w))
  | SetParent hwnd newParent => do_SetParent w hwnd newParent
  | SetWindowLongW hwnd nIndex v => do_SetWindowLongW w hwnd nIndex v
  | SetWindowPos hwnd _ x y cx cy flags => do_SetWindowPos w hwnd x y cx cy flags
  | InvalidateRect hwnd _ => on_window w hwnd false (fun _ => (true, w))
  | UpdateWindow hwnd => on_window w hwnd false (fun _ => (true, w))
  | RedrawWindow hwnd _ => on_window w hwnd false (fun _ => (true, w))
  | CreateProcessA cmd => do_CreateProcessA w cmd
  | OpenProcess _ pid => do_OpenProcess w pid
  | TerminateProcess hp _ => do_TerminateProcess w hp
  | GetModuleFileNameExA hp =>
      match processes w !! hp with
      | Some p => (Some (p_path p), w)
      | None => (None, SetLastError 6 w)
      end
  | CloseHandle _ => (true, w)
  end.

End Desktop.

(** ** Vocabulary of the statements *)

Module Spec.
Import WM Desktop.

(** The bit positions of a 32-bit word. *)
Definition bit_indices32 : list Z := Eval vm_compute in map Z.of_nat (seq 0 32).

(** Every style bit [embedStyle] may change. *)
Definition embed_touched_mask : Z :=
  Z.lor embed_strip_mask (Z.lor WS_CHILD (Z.lor WS_VISIBLE WS_CAPTION)).


(** The top-level windows of a world with their handles, in enumeration
    order. *)
Definition top_level_windows (w : World) : list (HWND * Window) :=
  omap (fun h => match window_of w h with
                 | Some win => if w_parent win =? 0 then Some (h, win) else None
                 | None => None
                 end) (zorder w).

(** The resolver, stated apart from the code. Two things of section 4.1
    are made exact, as the code has them: the shell classes are named,
    and "no parent" is what [GetParent] reports, which is neither a
    parent nor an owner. *)

(** The window classes of the shell: the taskbar, the button host, the
    desktop and the taskbar of a second monitor. *)
Definition shell_classes : list string :=
  ["Shell_TrayWnd"; "Button"; "Progman"; "Shell_SecondaryTrayWnd"].

Definition is_shell_class (className : string) : bool :=
  existsb (String.eqb className) shell_classes.

(** Belongs to the process and is not one of the shell classes. *)
Definition is_candidate (processId : Z) (hw : HWND * Window) : bool :=
  (w_pid hw.2 =? processId) && negb (is_shell_class (w_class hw.2)).

(** The title or style test of rank 1. *)
Definition titled_or_framed (win : Window) : bool :=
  negb (String.eqb (w_title win) "") ||
  has_any (w_style win) WS_CAPTION || has_any (w_style win) WS_BORDER.

(** Rank 1: visible, neither parent nor owner, and a title or a
    caption/border bit. *)
Definition is_rank1 (hw : HWND * Window) : bool :=
  has_any (w_style hw.2) WS_VISIBLE && (parent_or_owner hw.2 =? 0) &&
  (negb (String.eqb (w_title hw.2) "") ||
   has_any (w_style hw.2) WS_CAPTION || has_any (w_style hw.2) WS_BORDER).

(** Rank 1 as section 4.1 words it: visible, no parent, and a title or
    a caption/border bit. An owner is no parent. *)
Definition is_rank1_words (hw : HWND * Window) : bool :=
  has_any (w_style hw.2) WS_VISIBLE && (w_parent hw.2 =? 0) && titled_or_framed hw.2.

(** Fallback: not a tool window. *)
Definition is_fallback (hw : HWND * Window) : bool :=
  negb (has_any (w_exstyle hw.2) WS_EX_TOOLWINDOW).

(** The rank-1 match if there is one, else the fallback, else nothing. *)
Definition resolve_spec (processId : Z) (ws : list (HWND * Window)) : option HWND :=
  let candidates := List.filter (is_candidate processId) ws in
  match List.find is_rank1 candidates with
  | Some hw => Some hw.1
  | None =>
      match List.find is_fallback candidates with
      | Some hw => Some hw.1
      | None => None
      end
  end.

(** The choice as section 4.1 words it. *)
Definition resolve_words (processId : Z) (ws : list (HWND * Window)) : option HWND :=
  let candidates := List.filter (is_candidate processId) ws in
  match List.find is_rank1_words candidates with
  | Some hw => Some hw.1
  | None =>
      match List.find is_fallback candidates with
      | Some hw => Some hw.1
      | None => None
      end
  end.

(** The same choice when a fallback [best] has been remembered already
    ([NULL] when none has). *)
Definition resolve_from (processId : Z) (best : HWND) (ws : list (HWND * Window)) : HWND :=
  let candidates := List.filter (is_candidate processId) ws in
  match List.find is_rank1 candidates with
  | Some hw => hw.1
  | None =>
      if negb (best =? 0) then best
      else match List.find is_fallback candidates with
           | Some hw => hw.1
           | None => 0
           end
  end.

(** The windows the enumeration gets to: all of them up to and including
    the first rank-1 match of the process. *)
Fixpoint visited (processId : Z) (ws : list (HWND * Window)) : list (HWND * Window) :=
  match ws with
  | [] => []
  | hw :: rest =>
      hw :: (if is_candidate processId hw && is_rank1 hw then [] else visited processId rest)
  end.

(** The window a call is made on, for the calls that are made on one. *)
Definition event_window (e : Event) : option HWND :=
  match e with
  | Ev c =>
      match c with
      | IsWindow h | IsWindowVisible h | GetParent h | GetWindowThreadProcessId h
      | GetClassNameA h _ | GetWindowTextA h _ | GetWindowLongW h _ | GetWindowRect h
      | ShowWindow h _ | BringWindowToTop h | SetForegroundWindow h | SetParent h _
      | SetWindowLongW h _ _ | SetWindowPos h _ _ _ _ _ _ | InvalidateRect h _
      | UpdateWindow h | RedrawWindow h _ => Some h
      | _ => None
      end
  end.

(** A call that is on one of the windows [ws], if it is on a window. *)
Definition touches_only (ws : list (HWND * Window)) (e : Event) : Prop :=
  match event_window e with
  | Some h => In h (map fst ws)
  | None => True
  end.

(** Line 81 of [FindMainWindow]: the choice made from what the
    enumeration has collected. *)
Definition chosen (data : EnumData) : HWND :=
  if negb (data_hwnd data =? 0) then data_hwnd data else data_bestHwnd data.

(** The arguments an operation accepts: the condition under which its
    type check at the top lets the call through. *)
Definition well_typed (op : Operation) (info : list JsValue) : bool :=
  match op with
  | launchApplication =>
      (2 <=? length info)%nat && IsString (arg info 0) && IsNumber (arg info 1)
  | embedWindow =>
      (6 <=? length info)%nat && IsNumber (arg info 0) && IsNumber (arg info 1) &&
      IsNumber (arg info 2) && IsNumber (arg info 3) && IsNumber (arg info 4) &&
      IsNumber (arg info 5)
  | showWindow =>
      (2 <=? length info)%nat && IsNumber (arg info 0) && IsBoolean (arg info 1)
  | resizeWindow =>
      (5 <=? length info)%nat && IsNumber (arg info 0) && IsNumber (arg info 1) &&
      IsNumber (arg info 2) && IsNumber (arg info 3) && IsNumber (arg info 4)
  | moveWindow =>
      (3 <=? length info)%nat && IsNumber (arg info 0) && IsNumber (arg info 1) &&
      IsNumber (arg info 2)
  | unparentWindow | terminateProcess | getWindowInfo | getMainWindow =>
      (1 <=? length info)%nat && IsNumber (arg info 0)
  end.

(** What an operation runs on arguments that passed its type check. *)
Definition checked (op : Operation) (info : list JsValue) : Prog Outcome :=
  match op with
  | launchApplication => launchProcess (Utf8Value (arg info 0))
  | embedWindow =>
      embed (Int64Value (arg info 0)) (Int64Value (arg info 1))
            (Int32Value (arg info 2)) (Int32Value (arg info 3))
            (Int32Value (arg info 4)) (Int32Value (arg info 5))
  | showWindow => showHide (Int64Value (arg info 0)) (BoolValue (arg info 1))
  | resizeWindow =>
      resize (Int64Value (arg info 0)) (Int32Value (arg info 1)) (Int32Value (arg info 2))
             (Int32Value (arg info 3)) (Int32Value (arg info 4))
  | moveWindow =>
      move (Int64Value (arg info 0)) (Int32Value (arg info 1)) (Int32Value (arg info 2))
  | unparentWindow => detach (Int64Value (arg info 0))
  | terminateProcess => terminate (Uint32Value (arg info 0))
  | getWindowInfo => queryWindowInfo (Int64Value (arg info 0))
  | getMainWindow => resolveMainWindow (Uint32Value (arg info 0))
  end.

(** A result that reports failure in band: nothing thrown, and when
    [success] is not [true] it is [false] and comes with an [error]
    string. *)
Definition reports_in_band (out : Outcome) : Prop :=
  thrown out = None ∧
  (returned out !! "success" = Some (JsBoolean true) ∨
   (returned out !! "success" = Some (JsBoolean false) ∧
    ∃ msg, returned out !! "error" = Some (JsString msg))).

(** On the platform [h], [p] ends with a result satisfying [P] from every
    state. *)
Definition ensures {W A} (h : Handler W) (P : A -> Prop) (p : Prog A) : Prop :=
  forall w : W, P (result_of (run h p w)).

Definition style_of (w : World) (hwnd : HWND) : option Z := w_style <$> window_of w hwnd.
Definition parent_of (w : World) (hwnd : HWND) : option HWND := w_parent <$> window_of w hwnd.
Definition rect_of (w : World) (hwnd : HWND) : option RECT := w_rect <$> window_of w hwnd.

(** The flag words the module passes to [SetWindowPos]. *)
Definition embed_flags : Z := Z.lor SWP_SHOWWINDOW (Z.lor SWP_FRAMECHANGED SWP_NOZORDER).
Definition move_flags : Z := Z.lor SWP_NOSIZE SWP_SHOWWINDOW.
Definition detach_flags : Z :=
  Z.lor SWP_NOMOVE (Z.lor SWP_NOSIZE (Z.lor SWP_NOZORDER SWP_FRAMECHANGED)).

(** The window a successful embed leaves behind. *)
Definition embedded (win : Window) (parentHWND : HWND) (x y width height : Z) : Window :=
  mkWindow (w_pid win) (w_class win) (w_title win)
           (embedStyle (Z.lor (w_style win) WS_VISIBLE))
           (embedExStyle (w_exstyle win))
           parentHWND (w_owner win)
           (reposition (w_rect win) x y width height embed_flags)
           (w_temper win).


(** The window a detach leaves behind when its application lets it. *)
Definition detached (win : Window) : Window :=
  mkWindow (w_pid win) (w_class win) (w_title win)
           (unparentStyle (w_style win)) (w_exstyle win)
           0 (w_owner win)
           (reposition (w_rect win) 0 0 0 0 detach_flags)
           (w_temper win).

Definition is_success (out : Outcome) : Prop :=
  thrown out = None ∧ returned out !! "success" = Some (JsBoolean true).

(** The window handle an operation is called on. *)
Definition handle_arg (info : list JsValue) : HWND := Int64Value (arg info 0).

(** The world an embed leaves, and the world a detach of the same window
    right after it leaves. *)
Definition after_embed (w : World) (info : list JsValue) : World :=
  state_of (run win32 (EmbedWindow info) w).

(** The answer of the reparent call of an embed on [hwnd]: the old
    parent it hands back and the world it leaves, where the last error
    sits. *)
Definition reparent_answer (w : World) (hwnd parentHWND : HWND) : HWND * World :=
  win32 HWND (SetParent hwnd parentHWND) (state_of (run win32 (EmbedWindow_show hwnd) w)).


End Spec.

(** ** Sample worlds *)

Module Demo.
Import Desktop.

(** A dialog-style window: caption, system menu and minimize box, no
    resizable frame, no maximize box. *)
Definition calculator : Window :=
  mkWindow 7 "CalcFrame" "Calculator" 0x10CA0000 0x00000100 0 0
           (mkRECT 10 20 310 220) Cooperative.

(** An ordinary overlapped window, currently hidden. *)
Definition notepad : Window :=
  mkWindow 8 "Notepad" "Untitled - Notepad" 0x00CF0000 0x00000110 0 0
           (mkRECT 40 40 640 440) Cooperative.

(** A window whose application refuses to be reparented. *)
Definition vault : Window :=
  mkWindow 9 "VaultWnd" "Vault" 0x10CF0000 0 0 0
           (mkRECT 0 0 200 100) (RefusesReparent 87).

(** The container of the host application. *)
Definition host : Window :=
  mkWindow 1 "Chrome_WidgetWin_1" "Host" 0x16CF0000 0 0 0
           (mkRECT 0 0 800 600) Cooperative.

Definition desktop : World :=
  mkWorld (<[100 := calculator]> (<[101 := notepad]> (<[102 := vault]> (<[200 := host]> ∅))))
          [100; 101; 102; 200]
          (<[7 := mkProcess "C:\Windows\System32\calc.exe" false]>
           (<[8 := mkProcess "C:\Windows\notepad.exe" false]> ∅))
          ["C:\Windows\notepad.exe"] 1000 0.

Definition resolve_calculator : list JsValue := [JsNumber 7].

Definition resolve_nobody : list JsValue := [JsNumber 4242].

Definition embed_vault : list JsValue :=
  [JsNumber 102; JsNumber 200; JsNumber 0; JsNumber 0; JsNumber 300; JsNumber 200].

Definition embed_closed_window : list JsValue :=
  [JsNumber 999; JsNumber 200; JsNumber 0; JsNumber 0; JsNumber 300; JsNumber 200].

Definition show_notepad : list JsValue := [JsNumber 101; JsBoolean true].

Definition move_calculator : list JsValue := [JsNumber 100; JsNumber 50; JsNumber 60].

Definition embed_calculator : list JsValue :=
  [JsNumber 100; JsNumber 200; JsNumber 5; JsNumber 6; JsNumber 300; JsNumber 200].


(** An application with a dialog in front of its main window: the
    dialog is a popup owned by the main window. *)
Definition dialog : Window :=
  mkWindow 21 "#32770" "Open" 0x90C80000 0x00000101 0 402
           (mkRECT 100 100 500 400) Cooperative.

Definition editor : Window :=
  mkWindow 21 "EditorFrame" "Editor" 0x10CF0000 0x00000100 0 0
           (mkRECT 0 0 800 600) Cooperative.

Definition office : World :=
  mkWorld (<[401 := dialog]> (<[402 := editor]> ∅)) [401; 402]
          (<[21 := mkProcess "C:\Editor\editor.exe" false]> ∅) [] 3000 0.

Definition resolve_editor : list JsValue := [JsNumber 21].

(** A shell-hosted process that shows nothing yet: a taskbar window, a
    tool window and two hidden windows without title or frame. *)
Definition tray : Window :=
  mkWindow 31 "Shell_TrayWnd" "" 0x16800000 0x00000088 0 0
           (mkRECT 0 1040 1920 1080) Cooperative.

Definition palette : Window :=
  mkWindow 31 "Palette" "" 0x00000000 0x00000080 0 0
           (mkRECT 0 0 120 300) Cooperative.

Definition splash : Window :=
  mkWindow 31 "Splash" "" 0x00000000 0 0 0
           (mkRECT 200 200 600 400) Cooperative.

Definition worker : Window :=
  mkWindow 31 "Worker" "" 0x00000000 0 0 0
           (mkRECT 0 0 0 0) Cooperative.

Definition startup : World :=
  mkWorld (<[501 := tray]> (<[502 := palette]> (<[503 := splash]> (<[504 := worker]> ∅))))
          [501; 502; 503; 504]
          (<[31 := mkProcess "C:\Windows\explorer.exe" false]> ∅) [] 4000 0.

Definition resolve_startup : list JsValue := [JsNumber 31].

End Demo.


(** ** Further vocabulary: calls, protocols, partial failure *)

Module Protocol.
Import WM Desktop Spec.

(** A call that only reads. *)
Definition read_only (e : Event) : Prop := event_is_mutation e = false.

(** On the platform [h], every call [p] makes satisfies [P], from every
    state. *)
Definition only_calls {W A} (h : Handler W) (P : Event -> Prop) (p : Prog A) : Prop :=
  forall w : W, Forall P (trace_of (run h p w)).

(** The window operations, other than embed, that take a window handle. *)
Definition takes_window (op : Operation) : bool :=
  match op with
  | showWindow | resizeWindow | moveWindow | unparentWindow | getWindowInfo => true
  | _ => false
  end.

(** A container an embed can reparent [hwnd] into: another window that
    is live, or [NULL] for the desktop. *)
Definition valid_container (w : World) (hwnd parentHWND : HWND) : Prop :=
  parentHWND <> hwnd /\ (parentHWND = 0 \/ is_live w parentHWND = true).

(** The old parent of the window is not [NULL], or no error code is
    left over from an earlier call. *)
Definition no_stale_error (w : World) (win : Window) : Prop :=
  w_parent win <> 0 \/ lastError w = 0.

(** What embed answers on a live window, by the way its application
    reacts (lines 167-261). *)
Definition embed_answer (t : Temper) : gmap string JsValue :=
  match t with
  | Cooperative => succeeded
  | RefusesReparent code =>
      if (code =? 87)%positive
      then failure "Application refuses window embedding (security restriction)"
      else failure ("Failed to set parent: " +:+ system_message (Z.pos code))
  | ClosesOnReparent =>
      failure "Window closed immediately after embedding (app may not support embedding)"
  | ClosesOnStyleChange =>
      failure "Window closed after style modification (app may not support embedding)"
  | RejectsReposition code =>
      failure ("Failed to position window: " +:+ system_message (Z.pos code))
  | ClosesOnReposition => failure "Window closed during embedding process"
  end.

(** The window embed leaves when the reposition is rejected: reparented
    and restyled, where it was. *)
Definition half_embedded (win : Window) (parentHWND : HWND) : Window :=
  mkWindow (w_pid win) (w_class win) (w_title win)
           (embedStyle (Z.lor (w_style win) WS_VISIBLE))
           (embedExStyle (w_exstyle win))
           parentHWND (w_owner win) (w_rect win) (w_temper win).

(** The window embed leaves when it takes the reparent for failed:
    shown, and reparented if the platform did reparent it. *)
Definition shown_in (win : Window) (parentHWND : HWND) : Window :=
  mkWindow (w_pid win) (w_class win) (w_title win)
           (Z.lor (w_style win) WS_VISIBLE) (w_exstyle win)
           parentHWND (w_owner win) (w_rect win) (w_temper win).

(** The window a resize leaves behind when its application lets it:
    at the rectangle asked for, and visible. *)
Definition resized (win : Window) (x y width height : Z) : Window :=
  mkWindow (w_pid win) (w_class win) (w_title win)
           (Z.lor (w_style win) WS_VISIBLE) (w_exstyle win)
           (w_parent win) (w_owner win)
           (reposition (w_rect win) x y width height SWP_SHOWWINDOW)
           (w_temper win).

(** Whether a detach of [win] reports success: the window had a parent,
    or no error code is left over from an earlier call. *)
Definition detach_reports (w : World) (win : Window) : bool :=
  negb (w_parent win =? 0) || (lastError w =? 0).

(** The executable name the window query answers for a process. *)
Definition process_name_of (w : World) (processId : Z) : string :=
  if processId =? 0 then "Unknown"
  else match processes w !! processId with
       | Some p => if p_protected p then "Unknown" else file_name_of (p_path p)
       | None => "Unknown"
       end.

(** The two path separators. *)
Definition is_sep (c : ascii) : bool := Ascii.eqb c "\"%char || Ascii.eqb c "/"%char.

Fixpoint has_sep (s : string) : bool :=
  match s with
  | EmptyString => false
  | String c rest => is_sep c || has_sep rest
  end.

(** The operations that work on one window: embed and the ones of
    [takes_window]. *)
Definition on_one_window (op : Operation) : bool :=
  match op with
  | embedWindow => true
  | _ => takes_window op
  end.

(** A call that is on the window [hwnd] if it is on a window at all, and
    that neither starts nor ends a process. *)
Definition confined (hwnd : HWND) (e : Event) : Prop :=
  match e with
  | Ev (CreateProcessA _) | Ev (TerminateProcess _ _) => False
  | _ => match event_window e with
         | Some h => h = hwnd
         | None => True
         end
  end.

End Protocol.

(** ** More sample worlds *)

Module Demo2.
Import Desktop.

(** A window whose application rejects being repositioned. *)
Definition kiosk : Window :=
  mkWindow 11 "KioskWnd" "Kiosk" 0x10CF0000 0x00000100 0 0
           (mkRECT 0 0 640 480) (RejectsReposition 5).

(** A window whose application closes it when its style changes. *)
Definition guarded : Window :=
  mkWindow 12 "GuardWnd" "Guard" 0x10CF0000 0 0 0
           (mkRECT 0 0 320 200) ClosesOnStyleChange.

Definition stage : World :=
  mkWorld (<[300 := kiosk]> (<[301 := guarded]> (<[100 := Demo.calculator]>
             (<[200 := Demo.host]> ∅))))
          [300; 301; 100; 200]
          (<[7 := mkProcess "C:\Windows\System32\calc.exe" false]>
           (<[11 := mkProcess "C:\Kiosk\kiosk.exe" true]> ∅))
          ["C:\Windows\notepad.exe"] 2000 0.

(** The same world with an error code left over from an earlier call. *)
Definition stage_after_error : World := SetLastError 5 stage.

Definition embed_kiosk : list JsValue :=
  [JsNumber 300; JsNumber 200; JsNumber 5; JsNumber 6; JsNumber 300; JsNumber 200].

Definition embed_guarded : list JsValue :=
  [JsNumber 301; JsNumber 200; JsNumber 5; JsNumber 6; JsNumber 300; JsNumber 200].

Definition on_closed_window : list JsValue :=
  [JsNumber 999; JsNumber 1; JsNumber 2; JsNumber 3; JsNumber 4].

Definition show_closed_window : list JsValue := [JsNumber 999; JsBoolean true].

End Demo2.

(** * Installed-application discovery (src/native/app-discovery.cc)

    The scanners read the registry and the file system and change
    neither, so they are written as functions of the machine they are run
    on. A wide string is represented by a [string], one character per
    code unit, which covers the code units 0 to 255. A function whose
    source reads the first or last character of a string that can be
    empty answers [None] where it would. *)

Module Discovery.

(** ** Strings *)

Definition quote : ascii := "034"%char.
Definition NUL : ascii := "000"%char.

(** [std::wstring::find(str, pos)] and [wcsstr(s, str) != NULL]. *)
Definition find_from (str : string) (pos : nat) (s : string) : option nat :=
  String.index pos str s.
Definition find (str s : string) : option nat := find_from str 0 s.
Definition found (str s : string) : bool :=
  match find str s with Some _ => true | None => false end.

(** [s.substr(pos)]. *)
Definition substr_from (pos : nat) (s : string) : string :=
  String.substring pos (String.length s - pos) s.

(** [s.front()] and [s.back()]; neither is defined on the empty string. *)
Definition front (s : string) : option ascii :=
  match s with
  | EmptyString => None
  | String c _ => Some c
  end.
Fixpoint back (s : string) : option ascii :=
  match s with
  | EmptyString => None
  | String c EmptyString => Some c
  | String _ rest => back rest
  end.

(** [std::wstring::find_last_of(chars)]. *)
Fixpoint find_last_of_from (chars : list ascii) (s : string) (pos : nat) (seen : option nat)
    : option nat :=
  match s with
  | EmptyString => seen
  | String c rest =>
      find_last_of_from chars rest (S pos)
        (if existsb (Ascii.eqb c) chars then Some pos else seen)
  end.
Definition find_last_of (chars : list ascii) (s : string) : option nat :=
  find_last_of_from chars s 0 None.

(** [::towlower] in the C locale: the letters A to Z. *)
Definition towlower (c : ascii) : ascii :=
  let n := nat_of_ascii c in
  if (65 <=? n)%nat && (n <=? 90)%nat then ascii_of_nat (n + 32) else c.

(** [std::transform(s.begin(), s.end(), s.begin(), ::towlower)]. *)
Fixpoint lowered (s : string) : string :=
  match s with
  | EmptyString => EmptyString
  | String c rest => String (towlower c) (lowered rest)
  end.

(** [std::wstring(buffer)]: the characters before the first NUL. *)
Fixpoint c_str (buffer : string) : string :=
  match buffer with
  | EmptyString => EmptyString
  | String c rest => if Ascii.eqb c NUL then EmptyString else String c (c_str rest)
  end.

(** [std::to_string] of an index. *)
Definition to_string (n : nat) : string := NilZero.string_of_uint (Nat.to_uint n).

(** The UTF-8 bytes of one code unit below 256. *)
Definition utf8_of_unit (c : ascii) : string :=
  let n := nat_of_ascii c in
  if (n <? 128)%nat then String c EmptyString
  else String (ascii_of_nat (192 + n / 64))
         (String (ascii_of_nat (128 + n mod 64)) EmptyString).

(** [WideToUtf8] (lines 18-24). *)
Fixpoint WideToUtf8 (wstr : string) : string :=
  match wstr with
  | EmptyString => EmptyString
  | String c rest => utf8_of_unit c +:+ WideToUtf8 rest
  end.

(** ** The machine *)

(** What [FindFirstFileW] and [FindNextFileW] hand back of an entry. *)
Record WIN32_FIND_DATAW : Type := mkFindData {
  cFileName : string;
  is_directory : bool
}.

(** What the scanners read. [reg_subkeys key] is the sequence
    [RegEnumKeyExW] walks, or [None] when the key cannot be opened;
    [reg_value subKey valueName] is the data of a value under
    [HKEY_LOCAL_MACHINE], or [None] when the key or the value cannot be
    read; [find_files pattern] is the sequence of entries [FindFirstFileW]
    and [FindNextFileW] give, empty when [FindFirstFileW] fails. *)
Record Machine : Type := mkMachine {
  reg_subkeys : string -> option (list string);
  reg_value : string -> string -> option string;
  find_files : string -> list WIN32_FIND_DATAW;
  PathFileExistsW : string -> bool
}.

(** [ReadRegistryString] on [HKEY_LOCAL_MACHINE] (lines 27-48). *)
Definition ReadRegistryString (m : Machine) (subKey valueName : string) : string :=
  match reg_value m subKey valueName with
  | Some buffer => c_str buffer
  | None => ""
  end.

(** ** [FindExePath] *)

(** Lines 62-63 and 79-80: the name test of the install-location
    search. *)
Definition is_uninstaller (name : string) : bool :=
  found "uninstall" name || found "Uninstall" name.

(** Lines 58-66 and 76-84: the first [*.exe] of a directory, unless it
    is an uninstaller. [searchPath] ends in a backslash. *)
Definition first_exe (m : Machine) (searchPath : string) : option string :=
  match find_files m (searchPath +:+ "*.exe") with
  | [] => None
  | findData :: _ =>
      if negb (is_uninstaller (cFileName findData))
      then Some (searchPath +:+ cFileName findData)
      else None
  end.

(** Lines 71-87: the loop over the entries of the install location. *)
Fixpoint first_exe_below (m : Machine) (searchPath : string)
    (entries : list WIN32_FIND_DATAW) : option string :=
  match entries with
  | [] => None
  | findData :: rest =>
      if is_directory findData
         && negb (String.eqb (cFileName findData) ".")
         && negb (String.eqb (cFileName findData) "..")
      then
        match first_exe m (searchPath +:+ cFileName findData +:+ "\") with
        | Some path => Some path
        | None => first_exe_below m searchPath rest
        end
      else first_exe_below m searchPath rest
  end.

(** Lines 53-90: the search of the install location, which is not
    empty. *)
Definition exe_in_install_location (m : Machine) (installLocation : string) : option string :=
  let searchPath :=
    if match back installLocation with
       | Some c => negb (Ascii.eqb c "\"%char)
       | None => false
       end
    then installLocation +:+ "\" else installLocation in
  match first_exe m searchPath with
  | Some path => Some path
  | None => first_exe_below m searchPath (find_files m (searchPath +:+ "*"))
  end.

(** Lines 93-107: the path between the first two quotes of the
    uninstall string, when the string names an [.exe] and the path
    exists. *)
Definition exe_in_uninstall_string (m : Machine) (uninstallString : string) : option string :=
  match find ".exe" uninstallString with
  | None => None
  | Some _ =>
      match find (String quote EmptyString) uninstallString with
      | None => None
      | Some start =>
          match find_from (String quote EmptyString) (start + 1) uninstallString with
          | None => None
          | Some end_ =>
              let path := String.substring (start + 1) (end_ - start - 1) uninstallString in
              if PathFileExistsW m path then Some path else None
          end
      end
  end.

(** [FindExePath] (lines 51-110). *)
Definition FindExePath (m : Machine) (installLocation uninstallString : string) : string :=
  match (if negb (String.eqb installLocation "")
         then exe_in_install_location m installLocation else None) with
  | Some path => path
  | None =>
      match (if negb (String.eqb uninstallString "")
             then exe_in_uninstall_string m uninstallString else None) with
      | Some path => path
      | None => ""
      end
  end.

(** ** [ScanRegistry] *)

Definition uninstall_key : string := "SOFTWARE\Microsoft\Windows\CurrentVersion\Uninstall".

(** Lines 147-149: the display names that are skipped. *)
Definition is_system_update (displayName : string) : bool :=
  let lowerName := lowered displayName in
  found "update" lowerName || found "hotfix" lowerName || found "kb" lowerName.

(** Lines 161-169: the path cut out of a display-icon string, which is
    not empty. [None] where the source reads the first or last character
    of an empty string. *)
Definition exe_of_icon (displayIcon : string) : option string :=
  let exePath :=
    match find "," displayIcon with
    | Some pos => String.substring 0 pos displayIcon
    | None => displayIcon
    end in
  match front exePath with
  | None => None
  | Some c =>
      let exePath := if Ascii.eqb c quote then substr_from 1 exePath else exePath in
      match back exePath with
      | None => None
      | Some c' =>
          Some (if Ascii.eqb c' quote
                then String.substring 0 (String.length exePath - 1) exePath
                else exePath)
      end
  end.

(** Lines 177-181: the object of one application. *)
Definition app_object (id name path icon : string) : gmap string JsValue :=
  <["icon" := JsString icon]> (<["path" := JsString path]>
    (<["name" := JsString name]> (<["id" := JsString id]> ∅))).

(** Lines 135-184: one round of the loop, on the subkey the enumeration
    gave. [Some None] when the subkey is skipped, [Some (Some app)] when
    it is listed. *)
Definition ScanRegistry_entry (m : Machine) (subKeyName : string)
    : option (option (gmap string JsValue)) :=
  let subKey := (uninstall_key +:+ "\") +:+ subKeyName in
  let displayName := ReadRegistryString m subKey "DisplayName" in
  if String.eqb displayName "" then Some None
  else if is_system_update displayName then Some None
  else
    let installLocation := ReadRegistryString m subKey "InstallLocation" in
    let uninstallString := ReadRegistryString m subKey "UninstallString" in
    let displayIcon := ReadRegistryString m subKey "DisplayIcon" in
    let exePath := FindExePath m installLocation uninstallString in
    match (if String.eqb exePath "" && negb (String.eqb displayIcon "")
           then exe_of_icon displayIcon else Some exePath) with
    | None => None
    | Some exePath =>
        if String.eqb exePath "" || negb (PathFileExistsW m exePath) then Some None
        else Some (Some (app_object (WideToUtf8 subKeyName) (WideToUtf8 displayName)
                           (WideToUtf8 exePath) (WideToUtf8 displayIcon)))
    end.

(** Lines 129-185: the loop. The enumeration stops at the end of the
    subkeys and at a name that does not fit the buffer of 256
    characters. *)
Fixpoint ScanRegistry_loop (m : Machine) (subKeys : list string)
    (result : list (gmap string JsValue)) : option (list (gmap string JsValue)) :=
  match subKeys with
  | [] => Some result
  | subKeyName :: rest =>
      if (256 <=? String.length subKeyName)%nat then Some result
      else
        match ScanRegistry_entry m subKeyName with
        | None => None
        | Some None => ScanRegistry_loop m rest result
        | Some (Some app) => ScanRegistry_loop m rest (result ++ [app])
        end
  end.

(** [ScanRegistry] (lines 113-189). *)
Definition ScanRegistry (m : Machine) : option (list (gmap string JsValue)) :=
  match reg_subkeys m uninstall_key with
  | None => Some []
  | Some subKeys => ScanRegistry_loop m subKeys []
  end.

(** ** [FindExecutablesInDirectory] *)

(** Lines 195-196 and 208-209: the directory path with a backslash at
    its end. *)
Definition with_backslash (dirPath : string) : option string :=
  match back dirPath with
  | None => None
  | Some c => Some (if negb (Ascii.eqb c "\"%char) then dirPath +:+ "\" else dirPath)
  end.

(** Lines 214-216: the directories that are not entered. *)
Definition is_system_directory (name : string) : bool :=
  found "Windows" name || found "ProgramData" name || found "$" name.

(** Lines 220-226: the files that are collected. *)
Definition is_wanted_exe (name : string) : bool :=
  found ".exe" name &&
  (let lowerName := lowered name in
   negb (found "uninstall" lowerName) && negb (found "setup" lowerName)
   && negb (found "install" lowerName)).

(** Lines 203-230: the loop over the entries of [dirPath]; [recurse] is
    the call on a subdirectory. *)
Fixpoint FindExecutables_entries (recurse : string -> list string -> option (list string))
    (dirPath : string) (entries : list WIN32_FIND_DATAW) (exePaths : list string)
    : option (list string) :=
  match entries with
  | [] => Some exePaths
  | findData :: rest =>
      if String.eqb (cFileName findData) "." || String.eqb (cFileName findData) ".."
      then FindExecutables_entries recurse dirPath rest exePaths
      else
        match with_backslash dirPath with
        | None => None
        | Some prefix =>
            let fullPath := prefix +:+ cFileName findData in
            if is_directory findData then
              if is_system_directory (cFileName findData)
              then FindExecutables_entries recurse dirPath rest exePaths
              else
                match recurse fullPath exePaths with
                | None => None
                | Some exePaths' => FindExecutables_entries recurse dirPath rest exePaths'
                end
            else if is_wanted_exe (cFileName findData)
            then FindExecutables_entries recurse dirPath rest (exePaths ++ [fullPath])
            else FindExecutables_entries recurse dirPath rest exePaths
        end
  end.

(** The recursion, on the number of levels left to [maxDepth]. *)
Fixpoint FindExecutables_levels (m : Machine) (levels : nat) (dirPath : string)
    (exePaths : list string) : option (list string) :=
  match levels with
  | O => Some exePaths
  | S levels' =>
      match with_backslash dirPath with
      | None => None
      | Some searchPath =>
          FindExecutables_entries (FindExecutables_levels m levels') dirPath
            (find_files m (searchPath +:+ "*")) exePaths
      end
  end.

(** [FindExecutablesInDirectory] (lines 192-233): [exePaths] is the
    vector it appends to. *)
Definition FindExecutablesInDirectory (m : Machine) (dirPath : string)
    (exePaths : list string) (maxDepth currentDepth : Z) : option (list string) :=
  FindExecutables_levels m (Z.to_nat (maxDepth - currentDepth)) dirPath exePaths.

(** ** [ScanProgramFiles] *)

Definition programDirs : list string := ["C:\Program Files"; "C:\Program Files (x86)"].

(** Lines 247-251. *)
Fixpoint scan_programDirs (m : Machine) (dirs : list string) (exePaths : list string)
    : option (list string) :=
  match dirs with
  | [] => Some exePaths
  | programDir :: rest =>
      if PathFileExistsW m programDir then
        match FindExecutablesInDirectory m programDir exePaths 2 0 with
        | None => None
        | Some exePaths' => scan_programDirs m rest exePaths'
        end
      else scan_programDirs m rest exePaths
  end.

(** Lines 256-264: the application name of an executable path. *)
Definition app_name_of (exePath : string) : string :=
  let fileName :=
    match find_last_of ["\"%char; "/"%char] exePath with
    | Some lastSlash => substr_from (lastSlash + 1) exePath
    | None => exePath
    end in
  match find_last_of ["."%char] fileName with
  | Some dotPos => String.substring 0 dotPos fileName
  | None => fileName
  end.

(** Lines 266-270: the object of the executable at [arrayIndex]. *)
Definition program_object (arrayIndex : nat) (exePath : string) : gmap string JsValue :=
  let fileName := app_name_of exePath in
  <["icon" := JsString ""]> (<["path" := JsString (WideToUtf8 exePath)]>
    (<["name" := JsString (WideToUtf8 fileName)]>
      (<["id" := JsString ((WideToUtf8 fileName +:+ "_") +:+ to_string arrayIndex)]> ∅))).

(** Lines 253-273. *)
Fixpoint program_objects (arrayIndex : nat) (exePaths : list string)
    : list (gmap string JsValue) :=
  match exePaths with
  | [] => []
  | exePath :: rest => program_object arrayIndex exePath :: program_objects (S arrayIndex) rest
  end.

(** [ScanProgramFiles] (lines 236-276). *)
Definition ScanProgramFiles (m : Machine) : option (list (gmap string JsValue)) :=
  match scan_programDirs m programDirs [] with
  | None => None
  | Some exePaths => Some (program_objects 0 exePaths)
  end.

(** ** [ScanSystemApps] *)

Record SystemApp : Type := mkSystemApp {
  sa_name : string;
  sa_exeName : string;
  sa_path : string
}.

(** Lines 290-303. *)
Definition systemApps : list SystemApp :=
  [ mkSystemApp "Notepad" "notepad.exe" "C:\Windows\System32\notepad.exe";
    mkSystemApp "Calculator" "calc.exe" "C:\Windows\System32\calc.exe";
    mkSystemApp "Paint" "mspaint.exe" "C:\Windows\System32\mspaint.exe";
    mkSystemApp "Command Prompt" "cmd.exe" "C:\Windows\System32\cmd.exe";
    mkSystemApp "Windows PowerShell" "powershell.exe"
      "C:\Windows\System32\WindowsPowerShell\v1.0\powershell.exe";
    mkSystemApp "Task Manager" "taskmgr.exe" "C:\Windows\System32\taskmgr.exe";
    mkSystemApp "Registry Editor" "regedit.exe" "C:\Windows\regedit.exe";
    mkSystemApp "Character Map" "charmap.exe" "C:\Windows\System32\charmap.exe";
    mkSystemApp "Snipping Tool" "SnippingTool.exe" "C:\Windows\System32\SnippingTool.exe";
    mkSystemApp "Magnifier" "magnify.exe" "C:\Windows\System32\magnify.exe";
    mkSystemApp "On-Screen Keyboard" "osk.exe" "C:\Windows\System32\osk.exe";
    mkSystemApp "Remote Desktop Connection" "mstsc.exe" "C:\Windows\System32\mstsc.exe" ].

(** Lines 309-313. *)
Definition system_object (app : SystemApp) : gmap string JsValue :=
  app_object (WideToUtf8 (sa_exeName app) +:+ "_system") (WideToUtf8 (sa_name app))
             (WideToUtf8 (sa_path app)) (WideToUtf8 (sa_path app)).

(** [ScanSystemApps] (lines 279-320). *)
Definition ScanSystemApps (m : Machine) : list (gmap string JsValue) :=
  map system_object (List.filter (fun app => PathFileExistsW m (sa_path app)) systemApps).

(** ** [ExtractAppIcon] *)

(** [ExtractAppIcon] (lines 323-337): the string it returns and the
    exception it has made pending, if any. *)
Definition ExtractAppIcon (info : list JsValue) : string * option string :=
  if (length info <? 1)%nat || negb (IsString (arg info 0))
  then ("", Some "Expected (exePath: string)")
  else (Utf8Value (arg info 0), None).

End Discovery.

(** ** Vocabulary for the scanners *)

Module DiscoverySpec.
Import Discovery.

(** Does [s] hold one of [chars]? *)
Fixpoint has_any_of (chars : list ascii) (s : string) : bool :=
  match s with
  | EmptyString => false
  | String c rest => existsb (Ascii.eqb c) chars || has_any_of chars rest
  end.

Definition separators : list ascii := ["\"%char; "/"%char].

(** An entry the loops of the scanners look at: not [.] and not [..]. *)
Definition is_real_entry (findData : WIN32_FIND_DATAW) : bool :=
  negb (String.eqb (cFileName findData) "." || String.eqb (cFileName findData) "..").

(** What one entry of a directory contributes to the scan: [p] is the
    entry itself, a file with a wanted name, or it is one of the paths
    [below] gives for the entry, a subdirectory that is not one of the
    system directories. [prefix] is the directory path with its
    backslash. *)
Definition contributes (below : string -> string -> Prop) (prefix : string)
    (findData : WIN32_FIND_DATAW) (p : string) : Prop :=
  is_real_entry findData = true /\
  if is_directory findData
  then is_system_directory (cFileName findData) = false /\
       below (prefix +:+ cFileName findData) p
  else is_wanted_exe (cFileName findData) = true /\
       p = prefix +:+ cFileName findData.

(** [p] is an executable the machine lists less than [levels] levels
    below [dirPath]. *)
Fixpoint listed_below (m : Machine) (levels : nat) (dirPath : string) (p : string) : Prop :=
  match levels with
  | O => False
  | S levels' =>
      exists prefix findData,
        with_backslash dirPath = Some prefix /\
        In findData (find_files m (prefix +:+ "*")) /\
        contributes (listed_below m levels') prefix findData p
  end.

(** An application the registry scan may list for the subkey
    [subKeyName]: it has a display name that is not one of the skipped
    ones, and a path that exists. *)
Definition listed_app (m : Machine) (subKeyName : string) (app : gmap string JsValue) : Prop :=
  let subKey := (uninstall_key +:+ "\") +:+ subKeyName in
  let displayName := ReadRegistryString m subKey "DisplayName" in
  exists exePath,
    app = app_object (WideToUtf8 subKeyName) (WideToUtf8 displayName) (WideToUtf8 exePath)
            (WideToUtf8 (ReadRegistryString m subKey "DisplayIcon")) /\
    displayName <> "" /\
    is_system_update displayName = false /\
    exePath <> "" /\
    PathFileExistsW m exePath = true.

(** The identifiers of a list of application objects. *)
Definition ids_of (apps : list (gmap string JsValue)) : list (option JsValue) :=
  map (fun app : gmap string JsValue => app !! "id") apps.

End DiscoverySpec.

(** ** A sample machine *)

Module DemoMachine.
Import Discovery.

Definition q : string := String quote EmptyString.

Definition files : list (string * list WIN32_FIND_DATAW) :=
  [ ("C:\Program Files\*",
     [ mkFindData "." true; mkFindData ".." true; mkFindData "Editor" true;
       mkFindData "Windows Defender" true; mkFindData "launcher.exe" false;
       mkFindData "readme.txt" false ]);
    ("C:\Program Files\Editor\*",
     [ mkFindData "." true; mkFindData ".." true; mkFindData "editor.exe" false;
       mkFindData "Uninstall.exe" false; mkFindData "plugins" true ]);
    ("C:\Program Files\Editor\*.exe", [ mkFindData "editor.exe" false ]);
    ("C:\Program Files\Editor\plugins\*",
     [ mkFindData "." true; mkFindData ".." true; mkFindData "spell.exe" false ]) ].

Definition existing : list string :=
  [ "C:\Program Files"; "C:\Program Files\Editor\editor.exe"; "C:\Tools\unins000.exe";
    "C:\Windows\System32\notepad.exe"; "C:\Windows\System32\cmd.exe" ].

Definition values : list (string * string * string) :=
  [ ("Editor", "DisplayName", "Editor 2.0");
    ("Editor", "InstallLocation", "C:\Program Files\Editor");
    ("Tools", "DisplayName", "Tools");
    ("Tools", "UninstallString", q +:+ "C:\Tools\unins000.exe" +:+ q +:+ " /SILENT");
    ("KB5001", "DisplayName", "Security Update (KB5001)");
    ("Ghost", "DisplayName", "Ghost");
    ("Ghost", "DisplayIcon", "C:\Ghost\ghost.exe,0") ].

Definition assoc {A} (key : string) (l : list (string * A)) : option A :=
  match List.find (fun kv => String.eqb key kv.1) l with
  | Some kv => Some kv.2
  | None => None
  end.

Definition machine : Machine :=
  mkMachine
    (fun key => if String.eqb key uninstall_key
                then Some ["Editor"; "Tools"; "KB5001"; "Ghost"] else None)
    (fun subKey valueName =>
       match List.find (fun kv => String.eqb subKey ((uninstall_key +:+ "\") +:+ kv.1.1)
                                  && String.eqb valueName kv.1.2) values with
       | Some kv => Some kv.2
       | None => None
       end)
    (fun pattern => default [] (assoc pattern files))
    (fun path => existsb (String.eqb path) existing).

End DemoMachine.

(** * Properties *)

Import WM Desktop Spec.

(** ** Reasoning on 32-bit words, bit by bit *)

Lemma bit_index_below32 (P : Z -> Prop) :
  Forall P bit_indices32 -> forall i, 0 <= i < 32 -> P i.
Proof.
  intros HP i Hi.
  rewrite Forall_forall in HP. apply HP.
  change bit_indices32 with (map Z.of_nat (seq 0 32)).
  apply list_elem_of_In, in_map_iff. exists (Z.to_nat i). split; [lia|].
  apply in_seq. lia.
Qed.

Lemma testbit_word_high (c i : Z) :
  (0 <=? c) && (c <? 2 ^ 32) = true -> 32 <= i -> Z.testbit c i = false.
Proof.
  intros Hc Hi. apply andb_prop in Hc as [H0 H1].
  apply Z.leb_le in H0. apply Z.ltb_lt in H1.
  destruct (Z.eq_dec c 0) as [->|Hne]; [apply Z.bits_0|].
  apply Z.bits_above_log2; [lia|].
  assert (Z.log2 c < 32) by (apply Z.log2_lt_pow2; lia). lia.
Qed.

Lemma has_any_false_bit (s mask k : Z) :
  has_any s mask = false -> Z.testbit mask k = true -> Z.testbit s k = false.
Proof.
  unfold has_any. intros H Hm.
  apply negb_false_iff, Z.eqb_eq in H.
  apply (f_equal (fun z => Z.testbit z k)) in H.
  rewrite Z.land_spec, Z.bits_0, Hm, andb_true_r in H. exact H.
Qed.

Lemma has_any_true_iff (s mask : Z) : has_any s mask = true <-> Z.land s mask <> 0.
Proof. unfold has_any. rewrite negb_true_iff, Z.eqb_neq. reflexivity. Qed.


Ltac bit_specs :=
  repeat first [ rewrite Z.land_spec | rewrite Z.lor_spec | rewrite Z.ldiff_spec
               | rewrite Z.bits_0 ].

(** Bits 32 and above: every constant in sight is a 32-bit word. *)
Ltac high_bits Hge :=
  repeat match goal with
         | |- context [Z.testbit ?c ?i] =>
             rewrite (testbit_word_high c i (eq_refl true) Hge)
         end;
  cbn [negb]; rewrite ?andb_false_r, ?orb_false_r, ?andb_true_r; try reflexivity.

(** One of the bits 0..31 of an expression over the word [s]. *)
Ltac low_bit s :=
  try match goal with
      | H : has_any s ?m = false |- context [Z.testbit s ?k] =>
          rewrite (has_any_false_bit s m k H) by (vm_compute; reflexivity)
      end;
  try (match goal with
       | |- context [Z.testbit s ?k] => generalize (Z.testbit s k)
       end; intros []); vm_compute; reflexivity.

Ltac low_bits s :=
  unfold bit_indices32;
  repeat match goal with
         | |- Forall _ (_ :: _) => constructor; [low_bit s|]
         | |- Forall _ [] => constructor
         end.

(** Equality of two words built from [s] and constants. *)
Ltac word_eq s :=
  apply Z.bits_inj';
  let i := fresh "i" in
  let Hi := fresh "Hi" in
  let Hlt := fresh "Hlt" in
  let Hge := fresh "Hge" in
  intros i Hi; bit_specs;
  destruct (Z_lt_le_dec i 32) as [Hlt|Hge];
  [ revert i Hi Hlt;
    match goal with
    | |- forall i, 0 <= i -> i < 32 -> @?P i =>
        intros i Hi Hlt; apply (bit_index_below32 P); [low_bits s | lia]
    end
  | high_bits Hge ].

(** ** The style words *)


Lemma embedStyle_adds s :
  Z.land (embedStyle s) (Z.lor WS_CHILD WS_VISIBLE) = Z.lor WS_CHILD WS_VISIBLE.
Proof. unfold embedStyle. destruct (has_any s WS_CAPTION) eqn:Hc; word_eq s. Qed.

Lemma embedStyle_caption s :
  Z.land (embedStyle s) WS_CAPTION = if has_any s WS_CAPTION then WS_CAPTION else WS_BORDER.
Proof. unfold embedStyle. destruct (has_any s WS_CAPTION) eqn:Hc; word_eq s. Qed.

Lemma embedStyle_keeps s :
  Z.land (embedStyle s) (not32 embed_touched_mask) = Z.land s (not32 embed_touched_mask).
Proof. unfold embedStyle. destruct (has_any s WS_CAPTION) eqn:Hc; word_eq s. Qed.




Lemma embedStyle_visible s : Z.lor (embedStyle s) WS_VISIBLE = embedStyle s.
Proof. unfold embedStyle. destruct (has_any s WS_CAPTION) eqn:Hc; word_eq s. Qed.

Lemma lor_visible_idem s : Z.lor (Z.lor s WS_VISIBLE) WS_VISIBLE = Z.lor s WS_VISIBLE.
Proof. rewrite <- Z.lor_assoc, Z.lor_diag. reflexivity. Qed.

(** ** Running programs *)

Lemma run_bind {W A B} (h : Handler W) (p : Prog A) (f : A -> Prog B) (w : W) :
  run h (bind p f) w =
  let '(a, w1, t1) := run h p w in
  let '(b, w2, t2) := run h (f a) w1 in
  (b, w2, t1 ++ t2).
Proof.
  revert w. induction p as [a|R c k IH]; intros w; cbn.
  - destruct (run h (f a) w) as [[b w2] t2]. reflexivity.
  - destruct (h R c w) as [r w1]. rewrite IH.
    destruct (run h (k r) w1) as [[a w2] t1].
    destruct (run h (f a) w2) as [[b w3] t2]. reflexivity.
Qed.

Lemma run_call_bind {W R B} (h : Handler W) (c : WinCall R) (f : R -> Prog B) (w : W) :
  run h (bind (call c) f) w =
  let '(r, w1) := h R c w in
  let '(b, w2, t) := run h (f r) w1 in
  (b, w2, Ev c :: t).
Proof. reflexivity. Qed.

(** ** The synthetic platform: reading the world *)

Lemma window_of_nonzero w h win : window_of w h = Some win -> h <> 0.
Proof. unfold window_of. destruct (Z.eqb_spec h 0); congruence. Qed.

Lemma window_of_put_eq w h win : h <> 0 -> window_of (put_window h win w) h = Some win.
Proof.
  intros Hh. unfold window_of, put_window. cbn.
  destruct (Z.eqb_spec h 0); [contradiction|]. apply lookup_insert_eq.
Qed.

Lemma window_of_put_ne w h h' win :
  h' <> h -> window_of (put_window h win w) h' = window_of w h'.
Proof.
  intros Hne. unfold window_of, put_window. cbn.
  destruct (h' =? 0); [reflexivity|]. apply lookup_insert_ne. congruence.
Qed.

Lemma window_of_close_eq w h : window_of (close_window h w) h = None.
Proof.
  unfold window_of, close_window. cbn.
  destruct (h =? 0); [reflexivity|]. apply lookup_delete_eq.
Qed.

Lemma window_of_SetLastError w e h : window_of (SetLastError e w) h = window_of w h.
Proof. reflexivity. Qed.

Lemma is_live_put w h h' win :
  h <> 0 -> is_live (put_window h win w) h' = if decide (h' = h) then true else is_live w h'.
Proof.
  intros Hh. unfold is_live. case_decide as Heq.
  - subst. by rewrite window_of_put_eq.
  - by rewrite window_of_put_ne.
Qed.

Lemma lastError_put_window w h win : lastError (put_window h win w) = lastError w.
Proof. reflexivity. Qed.

Lemma lastError_close_window w h : lastError (close_window h w) = lastError w.
Proof. reflexivity. Qed.

Lemma lastError_SetLastError w e : lastError (SetLastError e w) = e.
Proof. reflexivity. Qed.

Create Rewrite HintDb world.
#[export] Hint Rewrite window_of_close_eq window_of_SetLastError lastError_put_window
  lastError_close_window lastError_SetLastError : world.
#[export] Hint Rewrite window_of_put_eq using assumption : world.

(** ** The synthetic platform: what the calls answer on a live window *)

Section LiveWindow.
Variables (w : World) (h : HWND) (win : Window).
Hypothesis Hwin : window_of w h = Some win.

Lemma IsWindow_live : win32 bool (IsWindow h) w = (true, w).
Proof using Hwin. cbn. unfold is_live. by rewrite Hwin. Qed.

Lemma ShowWindow_live c :
  win32 bool (ShowWindow h c) w =
  (has_any (w_style win) WS_VISIBLE,
   put_window h (set_style (show_style (w_style win) c) win) w).
Proof using Hwin. cbn. unfold do_ShowWindow, on_window. by rewrite Hwin. Qed.

Lemma BringWindowToTop_live : win32 bool (BringWindowToTop h) w = (true, w).
Proof using Hwin. cbn. unfold on_window. by rewrite Hwin. Qed.

Lemma SetForegroundWindow_live : win32 bool (SetForegroundWindow h) w = (true, w).
Proof using Hwin. cbn. unfold on_window. by rewrite Hwin. Qed.

Lemma InvalidateRect_live b : win32 bool (InvalidateRect h b) w = (true, w).
Proof using Hwin. cbn. unfold on_window. by rewrite Hwin. Qed.

Lemma UpdateWindow_live : win32 bool (UpdateWindow h) w = (true, w).
Proof using Hwin. cbn. unfold on_window. by rewrite Hwin. Qed.

Lemma RedrawWindow_live f : win32 bool (RedrawWindow h f) w = (true, w).
Proof using Hwin. cbn. unfold on_window. by rewrite Hwin. Qed.

Lemma GetWindowLongW_style_live : win32 Z (GetWindowLongW h GWL_STYLE) w = (w_style win, w).
Proof using Hwin. cbn. unfold on_window. by rewrite Hwin. Qed.

Lemma GetWindowLongW_exstyle_live :
  win32 Z (GetWindowLongW h GWL_EXSTYLE) w = (w_exstyle win, w).
Proof using Hwin. cbn. unfold on_window. by rewrite Hwin. Qed.

Lemma GetWindowRect_live : win32 (option RECT) (GetWindowRect h) w = (Some (w_rect win), w).
Proof using Hwin. cbn. unfold on_window. by rewrite Hwin. Qed.

Lemma SetWindowLongW_style_live v :
  win32 Z (SetWindowLongW h GWL_STYLE v) w =
  (w_style win,
   match w_temper win with
   | ClosesOnStyleChange => close_window h w
   | _ => put_window h (set_style v win) w
   end).
Proof using Hwin. cbn. unfold do_SetWindowLongW, on_window. by rewrite Hwin. Qed.

Lemma SetWindowLongW_exstyle_live v :
  win32 Z (SetWindowLongW h GWL_EXSTYLE v) w =
  (w_exstyle win,
   match w_temper win with
   | ClosesOnStyleChange => close_window h w
   | _ => put_window h (set_exstyle v win) w
   end).
Proof using Hwin. cbn. unfold do_SetWindowLongW, on_window. by rewrite Hwin. Qed.

Lemma GetWindowThreadProcessId_live :
  win32 Z (GetWindowThreadProcessId h) w = (w_pid win, w).
Proof using Hwin. cbn. unfold on_window. by rewrite Hwin. Qed.

Lemma GetClassNameA_live n :
  win32 string (GetClassNameA h n) w = (truncated n (w_class win), w).
Proof using Hwin. cbn. unfold on_window. by rewrite Hwin. Qed.

Lemma GetWindowTextA_live n :
  win32 string (GetWindowTextA h n) w = (truncated n (w_title win), w).
Proof using Hwin. cbn. unfold on_window. by rewrite Hwin. Qed.

Lemma IsWindowVisible_live :
  win32 bool (IsWindowVisible h) w = (has_any (w_style win) WS_VISIBLE, w).
Proof using Hwin. cbn. unfold on_window. by rewrite Hwin. Qed.

Lemma GetParent_live : win32 HWND (GetParent h) w = (parent_or_owner win, w).
Proof using Hwin. cbn. unfold on_window. by rewrite Hwin. Qed.

Lemma SetParent_live p :
  win32 HWND (SetParent h p) w =
  if p =? h then (0, SetLastError ERROR_INVALID_PARAMETER w)
  else if negb (p =? 0) && negb (is_live w p)
  then (0, SetLastError ERROR_INVALID_WINDOW_HANDLE w)
  else match w_temper win with
       | RefusesReparent code => (0, SetLastError (Z.pos code) w)
       | ClosesOnReparent => (w_parent win, close_window h w)
       | _ => (w_parent win, put_window h (set_parent p win) w)
       end.
Proof using Hwin. cbn. unfold do_SetParent, on_window. by rewrite Hwin. Qed.

Lemma SetWindowPos_live after x y cx cy flags :
  win32 bool (SetWindowPos h after x y cx cy flags) w =
  match w_temper win with
  | RejectsReposition code => (false, SetLastError (Z.pos code) w)
  | ClosesOnReposition => (true, close_window h w)
  | _ =>
      (true,
       put_window h
         (let win1 := set_rect (reposition (w_rect win) x y cx cy flags) win in
          if has_any flags SWP_SHOWWINDOW
          then set_style (Z.lor (w_style win1) WS_VISIBLE) win1 else win1) w)
  end.
Proof using Hwin. cbn. unfold do_SetWindowPos, on_window. by rewrite Hwin. Qed.

End LiveWindow.

Section DeadWindow.
Variables (w : World) (h : HWND).
Hypothesis Hwin : window_of w h = None.

Lemma IsWindow_dead : win32 bool (IsWindow h) w = (false, w).
Proof using Hwin. cbn. unfold is_live. by rewrite Hwin. Qed.

Lemma SetWindowLongW_dead idx v :
  win32 Z (SetWindowLongW h idx v) w = (0, SetLastError ERROR_INVALID_WINDOW_HANDLE w).
Proof using Hwin. cbn. unfold do_SetWindowLongW, on_window. by rewrite Hwin. Qed.

Lemma GetWindowLongW_dead idx :
  win32 Z (GetWindowLongW h idx) w = (0, SetLastError ERROR_INVALID_WINDOW_HANDLE w).
Proof using Hwin. cbn. unfold on_window. by rewrite Hwin. Qed.

End DeadWindow.

Lemma GetLastError_run w : win32 Z GetLastError w = (lastError w, w).
Proof. reflexivity. Qed.

Lemma FormatMessageA_run w e : win32 string (FormatMessageA e) w = (system_message e, w).
Proof. reflexivity. Qed.

(** ** Result objects *)

Lemma failure_success msg : failure msg !! "success" = Some (JsBoolean false).
Proof. unfold failure. rewrite lookup_insert_ne by discriminate. apply lookup_insert_eq. Qed.

Lemma failure_error msg : failure msg !! "error" = Some (JsString msg).
Proof. unfold failure. apply lookup_insert_eq. Qed.

Lemma succeeded_success : succeeded !! "success" = Some (JsBoolean true).
Proof. unfold succeeded. apply lookup_insert_eq. Qed.

Lemma failure_is_not_success msg : ~ is_success (returns (failure msg)).
Proof. intros [_ H]. cbn in H. rewrite failure_success in H. discriminate. Qed.

Lemma failure_in_band msg : reports_in_band (returns (failure msg)).
Proof.
  split; [reflexivity|]. right. cbn. rewrite failure_success, failure_error. eauto.
Qed.

(** ** Symbolic execution on the synthetic platform *)

Lemma pos_eqb_0 p : (Z.pos p =? 0) = false.
Proof. reflexivity. Qed.

Lemma invalid_parameter_eqb_0 : (ERROR_INVALID_PARAMETER =? 0) = false.
Proof. reflexivity. Qed.

Lemma invalid_parameter_eqb_87 : (ERROR_INVALID_PARAMETER =? 87) = true.
Proof. reflexivity. Qed.

Lemma invalid_handle_eqb_0 : (ERROR_INVALID_WINDOW_HANDLE =? 0) = false.
Proof. reflexivity. Qed.

Lemma invalid_handle_eqb_87 : (ERROR_INVALID_WINDOW_HANDLE =? 87) = false.
Proof. reflexivity. Qed.

Lemma show_style_SW_SHOW s : show_style s SW_SHOW = Z.lor s WS_VISIBLE.
Proof. reflexivity. Qed.

Lemma show_style_SW_HIDE s : show_style s SW_HIDE = Z.land s (not32 WS_VISIBLE).
Proof. reflexivity. Qed.

Lemma embed_flags_show : has_any embed_flags SWP_SHOWWINDOW = true.
Proof. reflexivity. Qed.

Lemma move_flags_show : has_any move_flags SWP_SHOWWINDOW = true.
Proof. reflexivity. Qed.

Lemma resize_flags_show : has_any SWP_SHOWWINDOW SWP_SHOWWINDOW = true.
Proof. reflexivity. Qed.

Lemma detach_flags_show : has_any detach_flags SWP_SHOWWINDOW = false.
Proof. reflexivity. Qed.

#[export] Hint Rewrite Z.eqb_refl pos_eqb_0 invalid_parameter_eqb_0 invalid_parameter_eqb_87
  invalid_handle_eqb_0 invalid_handle_eqb_87 show_style_SW_SHOW show_style_SW_HIDE
  embed_flags_show move_flags_show resize_flags_show detach_flags_show
  embedStyle_visible lor_visible_idem : world.

Ltac live_window := first [ eassumption | apply window_of_put_eq; assumption ].
Ltac dead_window := first [ eassumption | apply window_of_close_eq ].

Ltac fold_flags_in Hr :=
  change (Z.lor SWP_SHOWWINDOW (Z.lor SWP_FRAMECHANGED SWP_NOZORDER)) with embed_flags in Hr;
  change (Z.lor SWP_NOSIZE SWP_SHOWWINDOW) with move_flags in Hr;
  change (Z.lor SWP_NOMOVE (Z.lor SWP_NOSIZE (Z.lor SWP_NOZORDER SWP_FRAMECHANGED)))
    with detach_flags in Hr.

(** Name the string literals of the run in [Hr], and put them back. *)
Ltac hide_strings_in Hr :=
  repeat match type of Hr with
         | context [String ?c ?s] =>
             let m := fresh "text" in set (m := String c s) in Hr
         end.

Ltac show_strings :=
  repeat match goal with
         | m := _ : string |- _ => subst m
         end.

(** Reduce the run in [Hr] as far as the answers known so far decide. *)
Ltac norm_in Hr :=
  repeat (progress (
    cbn [run bind call negb fst snd andb orb
         w_temper w_style w_exstyle w_parent w_rect w_owner w_pid w_class w_title
         set_style set_exstyle set_parent set_rect] in Hr;
    autorewrite with world in Hr;
    repeat match goal with
           | Ht : w_temper _ = _ |- _ => rewrite Ht in Hr
           end)).

(** Answer the next platform call of the run in [Hr]. *)
Ltac answer_in Hr c w :=
  lazymatch c with
  | IsWindow ?h =>
      first [ erewrite (IsWindow_live w h) in Hr by live_window
            | rewrite (IsWindow_dead w h) in Hr by dead_window ]
  | ShowWindow ?h _ => erewrite (ShowWindow_live w h) in Hr by live_window
  | BringWindowToTop ?h => erewrite (BringWindowToTop_live w h) in Hr by live_window
  | SetForegroundWindow ?h => erewrite (SetForegroundWindow_live w h) in Hr by live_window
  | InvalidateRect ?h _ => erewrite (InvalidateRect_live w h) in Hr by live_window
  | UpdateWindow ?h => erewrite (UpdateWindow_live w h) in Hr by live_window
  | RedrawWindow ?h _ => erewrite (RedrawWindow_live w h) in Hr by live_window
  | GetWindowLongW ?h GWL_STYLE =>
      first [ erewrite (GetWindowLongW_style_live w h) in Hr by live_window
            | rewrite (GetWindowLongW_dead w h) in Hr by dead_window ]
  | GetWindowLongW ?h GWL_EXSTYLE =>
      first [ erewrite (GetWindowLongW_exstyle_live w h) in Hr by live_window
            | rewrite (GetWindowLongW_dead w h) in Hr by dead_window ]
  | GetWindowRect ?h => erewrite (GetWindowRect_live w h) in Hr by live_window
  | SetWindowLongW ?h GWL_STYLE _ =>
      first [ erewrite (SetWindowLongW_style_live w h) in Hr by live_window
            | rewrite (SetWindowLongW_dead w h) in Hr by dead_window ]
  | SetWindowLongW ?h GWL_EXSTYLE _ =>
      first [ erewrite (SetWindowLongW_exstyle_live w h) in Hr by live_window
            | rewrite (SetWindowLongW_dead w h) in Hr by dead_window ]
  | SetParent ?h _ => erewrite (SetParent_live w h) in Hr by live_window
  | SetWindowPos ?h _ _ _ _ _ _ => erewrite (SetWindowPos_live w h) in Hr by live_window
  | GetWindowThreadProcessId ?h =>
      erewrite (GetWindowThreadProcessId_live w h) in Hr by live_window
  | GetClassNameA ?h _ => erewrite (GetClassNameA_live w h) in Hr by live_window
  | GetWindowTextA ?h _ => erewrite (GetWindowTextA_live w h) in Hr by live_window
  | IsWindowVisible ?h => erewrite (IsWindowVisible_live w h) in Hr by live_window
  | GetParent ?h => erewrite (GetParent_live w h) in Hr by live_window
  | GetLastError => rewrite (GetLastError_run w) in Hr
  | FormatMessageA _ => rewrite (FormatMessageA_run w) in Hr
  end.

Ltac step_in Hr :=
  match type of Hr with
  | context [win32 _ ?c ?w] => answer_in Hr c w
  end;
  norm_in Hr.

Ltac case_in Hr b :=
  let E := fresh "E" in
  lazymatch b with
  | negb ?c => revert Hr; destruct c eqn:E; intros Hr; norm_in Hr
  | _ => revert Hr; destruct b eqn:E; intros Hr; norm_in Hr
  end.

(** Split on the next undecided condition of the run in [Hr]. *)
Ltac split_in Hr :=
  match type of Hr with
  | context [run _ (if ?b then _ else _) _] => case_in Hr b
  | context [bind (if ?b then _ else _) _] => case_in Hr b
  | context [match (if ?b then _ else _) with _ => _ end] => case_in Hr b
  end.

Ltac exec_in Hr := repeat first [ step_in Hr | split_in Hr ].

Ltac not_success :=
  let H := fresh in
  intros H; exfalso; revert H;
  first [ apply failure_is_not_success ].

(** ** Results on any platform *)

(** Results whatever the platform answers, by the shape of the program. *)

Section AnyPlatform.
Context {W : Type} (h : Handler W).

Lemma ensures_Ret {A} (P : A -> Prop) a : P a -> ensures h P (Ret a).
Proof. intros H w. exact H. Qed.

Lemma ensures_bind {A B} (Q : A -> Prop) (P : B -> Prop) p f :
  ensures h Q p -> (forall a, Q a -> ensures h P (f a)) -> ensures h P (bind p f).
Proof.
  intros Hp Hf w. rewrite run_bind.
  specialize (Hp w). destruct (run h p w) as [[a w1] t1].
  specialize (Hf a Hp w1). destruct (run h (f a) w1) as [[b w2] t2].
  exact Hf.
Qed.

Lemma ensures_any {A} (p : Prog A) : ensures h (fun _ => True) p.
Proof. intros w. exact I. Qed.

Lemma ensures_bind_any {A B} (P : B -> Prop) (p : Prog A) f :
  (forall a, ensures h P (f a)) -> ensures h P (bind p f).
Proof. intros Hf. apply (ensures_bind (fun _ => True)); [apply ensures_any | auto]. Qed.

End AnyPlatform.

(** Walk a program whose intermediate answers do not matter. *)
Ltac walk leaf :=
  repeat first
    [ apply ensures_Ret; cbv beta; leaf
    | match goal with
      | |- ensures _ _ (if negb ?b then _ else _) => destruct b; cbn [negb]
      | |- ensures _ _ (if ?b then _ else _) => destruct b
      | |- ensures _ _ (match ?o with Some _ => _ | None => _ end) => destruct o
      end
    | apply ensures_bind_any; intros ?; cbv beta ].

(** ** Embed and detach on the synthetic platform *)

(** A successful embed was on a live window of a cooperative application,
    and leaves it restyled, reparented and repositioned. *)
Lemma embed_success_inv w hwnd parentHWND x y width height :
  let r := run win32 (embed hwnd parentHWND x y width height) w in
  is_success (result_of r) ->
  exists win,
    window_of w hwnd = Some win /\ w_temper win = Cooperative /\
    window_of (state_of r) hwnd = Some (embedded win parentHWND x y width height).
Proof.
  intros r. remember r as r' eqn:Hr. subst r.
  unfold embed, EmbedWindow_show, EmbedWindow_reparent, EmbedWindow_restyle,
    EmbedWindow_position, GetLastErrorString in Hr.
  fold_flags_in Hr. hide_strings_in Hr. norm_in Hr.
  destruct (window_of w hwnd) as [win|] eqn:Hwin.
  2:{ step_in Hr. subst r'. not_success. }
  pose proof (window_of_nonzero _ _ _ Hwin) as Hnz.
  destruct (w_temper win) eqn:Ht; norm_in Hr; exec_in Hr; subst r'; try not_success.
  all: intros _; exists win; split; [reflexivity|]; split; [assumption|].
  all: unfold state_of; cbn [fst snd]; rewrite window_of_put_eq by assumption.
  all: unfold embedded, set_style, set_rect, set_exstyle, set_parent;
    cbn [w_pid w_class w_title w_style w_exstyle w_parent w_owner w_rect w_temper];
    reflexivity.
Qed.

(** A detach on a live window of a cooperative application leaves it
    top-level, with the frame bits set. *)
Lemma detach_cooperative w hwnd win :
  window_of w hwnd = Some win -> w_temper win = Cooperative ->
  window_of (state_of (run win32 (detach hwnd) w)) hwnd = Some (detached win).
Proof.
  intros Hwin Ht.
  pose proof (window_of_nonzero _ _ _ Hwin) as Hnz.
  remember (run win32 (detach hwnd) w) as r eqn:Hr.
  unfold detach, GetLastErrorString in Hr.
  fold_flags_in Hr. hide_strings_in Hr. norm_in Hr.
  exec_in Hr; subst r.
  all: try (apply Z.eqb_eq in E; congruence).
  all: unfold state_of; cbn [fst snd]; rewrite window_of_put_eq by assumption.
  all: unfold detached, set_style, set_rect, set_exstyle, set_parent;
    cbn [w_pid w_class w_title w_style w_exstyle w_parent w_owner w_rect w_temper];
    reflexivity.
Qed.

(** ** The type checks at the boundary *)

Lemma exported_cases op info :
  (well_typed op info = true /\ exported op info = checked op info) \/
  (well_typed op info = false /\ exists msg, exported op info = Ret (throwTypeError msg)).
Proof.
  destruct op; unfold well_typed, exported, checked,
    LaunchApplication, EmbedWindow, ShowWindowNative, ResizeWindow, MoveWindowNative,
    UnparentWindow, TerminateProcessNative, GetWindowInfoNative, GetMainWindowAPI;
    rewrite Nat.ltb_antisym;
    repeat match goal with
           | |- context [IsNumber ?v] => destruct (IsNumber v)
           | |- context [IsString ?v] => destruct (IsString v)
           | |- context [IsBoolean ?v] => destruct (IsBoolean v)
           | |- context [(?n <=? length info)%nat] => destruct (n <=? length info)%nat
           end;
    cbn [negb orb andb]; eauto.
Qed.

Lemma exported_typed op info :
  well_typed op info = true -> exported op info = checked op info.
Proof. destruct (exported_cases op info) as [[_ H]|[H _]]; [auto|congruence]. Qed.

Lemma exported_success_typed {W} (h : Handler W) op info w :
  thrown (result_of (run h (exported op info) w)) = None -> well_typed op info = true.
Proof.
  destruct (exported_cases op info) as [[H _]|[_ [msg H]]]; [auto|].
  rewrite H. cbn. discriminate.
Qed.


(** ** Embed followed by detach *)

Lemma EmbedWindow_success_inv w info :
  is_success (result_of (run win32 (EmbedWindow info) w)) ->
  exists win,
    window_of w (handle_arg info) = Some win /\ w_temper win = Cooperative /\
    window_of (after_embed w info) (handle_arg info) =
      Some (embedded win (Int64Value (arg info 1)) (Int32Value (arg info 2))
              (Int32Value (arg info 3)) (Int32Value (arg info 4)) (Int32Value (arg info 5))).
Proof.
  intros Hs. unfold after_embed.
  assert (Hty : well_typed embedWindow info = true).
  { apply (exported_success_typed win32 embedWindow info w), Hs. }
  apply (exported_typed embedWindow) in Hty. cbn [exported checked] in Hty.
  revert Hs. rewrite Hty. apply embed_success_inv.
Qed.






(** ** The style computation of embed *)











(** ** The extended style *)




(** ** Embed on a handle that is no window *)

(** C5: on any platform, an embed request whose handle the first
    liveness check finds dead returns the invalid-handle failure right
    there: the liveness check is the only call made, so no call that
    shows, reparents, restyles, repositions or repaints is. *)
Theorem EmbedWindow_dead_handle {W} (h : Handler W) (w : W) info :
  well_typed embedWindow info = true ->
  (h bool (IsWindow (handle_arg info)) w).1 = false ->
  run h (EmbedWindow info) w =
    (returns (failure "Invalid window handle"),
     (h bool (IsWindow (handle_arg info)) w).2,
     [Ev (IsWindow (handle_arg info))]) /\
  Forall (fun e => event_is_mutation e = false) (trace_of (run h (EmbedWindow info) w)).
Proof.
  intros Hty Hdead.
  apply (exported_typed embedWindow) in Hty. cbn [exported checked] in Hty.
  rewrite Hty. unfold embed, handle_arg in *. cbn [run bind call].
  destruct (h bool (IsWindow (Int64Value (arg info 0))) w) as [live w1].
  cbn in Hdead. subst live. cbn.
  split; [reflexivity|]. repeat constructor.
Qed.

Lemma EmbedWindow_dead_handle_witness :
  run win32 (EmbedWindow Demo.embed_closed_window) Demo.desktop =
    (returns (failure "Invalid window handle"), Demo.desktop, [Ev (IsWindow 999)]).
Proof.
  apply (EmbedWindow_dead_handle win32 Demo.desktop Demo.embed_closed_window);
    vm_compute; reflexivity.
Defined.

(** ** Show and hide *)

Lemma shown_is_visible s : has_any (show_style s SW_SHOW) WS_VISIBLE = true.
Proof.
  rewrite show_style_SW_SHOW. apply has_any_true_iff.
  assert (H : Z.land (Z.lor s WS_VISIBLE) WS_VISIBLE = WS_VISIBLE) by word_eq s.
  rewrite H. discriminate.
Qed.

Lemma showHide_live w hwnd (show : bool) win :
  window_of w hwnd = Some win ->
  let cmd := if show then SW_SHOW else SW_HIDE in
  let r := run win32 (showHide hwnd show) w in
  returned (result_of r) !! "success" = Some (JsBoolean (has_any (w_style win) WS_VISIBLE)) /\
  style_of (state_of r) hwnd = Some (show_style (w_style win) cmd) /\
  (has_any (w_style win) WS_VISIBLE = false ->
   exists msg, returned (result_of r) !! "error" = Some (JsString msg)).
Proof.
  intros Hwin cmd r.
  pose proof (window_of_nonzero _ _ _ Hwin) as Hnz.
  remember r as r' eqn:Hr. subst r.
  unfold showHide, report_BOOL, GetLastErrorString in Hr. fold cmd in Hr.
  norm_in Hr. do 2 step_in Hr.
  destruct (has_any (w_style win) WS_VISIBLE) eqn:Hvis; norm_in Hr; exec_in Hr; subst r'.
  all: unfold result_of, state_of, style_of; cbn [fst snd returns returned].
  all: rewrite window_of_put_eq by assumption.
  all: split; [by rewrite ?lookup_insert_ne by discriminate; rewrite lookup_insert_eq|].
  all: split; [reflexivity|].
  all: intros; try discriminate; rewrite lookup_insert_eq; eauto.
Qed.

(** On any platform, the flag of [report_BOOL] is the [BOOL] it was
    given. *)
Lemma report_BOOL_flag {W} (h : Handler W) success :
  ensures h (fun out => returned out !! "success" = Some (JsBoolean success))
          (report_BOOL success).
Proof.
  unfold report_BOOL, GetLastErrorString. cbn zeta.
  walk ltac:(idtac; cbn [returns returned];
             rewrite ?lookup_insert_ne by discriminate; apply lookup_insert_eq).
Qed.

(** On any platform, show/hide on a handle the liveness check accepts
    reports what the show call returned. *)
Lemma showHide_flag {W} (h : Handler W) (w : W) hwnd (show : bool) :
  let cmd := if show then SW_SHOW else SW_HIDE in
  let checked := h bool (IsWindow hwnd) w in
  checked.1 = true ->
  returned (result_of (run h (showHide hwnd show) w)) !! "success" =
    Some (JsBoolean (h bool (ShowWindow hwnd cmd) checked.2).1).
Proof.
  intros cmd checked. subst checked. unfold showHide. fold cmd.
  rewrite run_call_bind. destruct (h bool (IsWindow hwnd) w) as [live w1].
  cbn [fst snd]. intros ->. cbn [negb]. rewrite run_call_bind.
  destruct (h bool (ShowWindow hwnd cmd) w1) as [success w2]. cbn [fst snd].
  pose proof (report_BOOL_flag h success w2) as Hflag.
  destruct (run h (report_BOOL success) w2) as [[out w3] t]. exact Hflag.
Qed.

(** C10: for a live window the success flag of show/hide is what the
    platform's show call returned, on every platform; and what that call
    returns is whether the window was visible before, not whether the call
    took effect: the window ends up shown or hidden as asked, and a window
    that was hidden gets success=false together with an error string,
    also when it was asked to be shown and is visible afterwards. *)
Theorem ShowWindowNative_reports_previous_visibility w info win :
  well_typed showWindow info = true ->
  window_of w (handle_arg info) = Some win ->
  let hwnd := handle_arg info in
  let cmd := if BoolValue (arg info 1) then SW_SHOW else SW_HIDE in
  let r := run win32 (ShowWindowNative info) w in
  (forall W (h : Handler W) (w' : W),
     (h bool (IsWindow hwnd) w').1 = true ->
     returned (result_of (run h (ShowWindowNative info) w')) !! "success" =
       Some (JsBoolean (h bool (ShowWindow hwnd cmd) (h bool (IsWindow hwnd) w').2).1)) /\
  (win32 bool (ShowWindow hwnd cmd) w).1 = has_any (w_style win) WS_VISIBLE /\
  returned (result_of r) !! "success" = Some (JsBoolean (has_any (w_style win) WS_VISIBLE)) /\
  style_of (state_of r) hwnd = Some (show_style (w_style win) cmd) /\
  has_any (show_style (w_style win) SW_SHOW) WS_VISIBLE = true /\
  (has_any (w_style win) WS_VISIBLE = false ->
   exists msg, returned (result_of r) !! "error" = Some (JsString msg)).
Proof.
  intros Hty Hwin hwnd cmd r.
  apply (exported_typed showWindow) in Hty. cbn [exported checked] in Hty.
  subst r. rewrite Hty.
  destruct (showHide_live w (handle_arg info) (BoolValue (arg info 1)) win Hwin)
    as (Hflag & Hstyle & Herr).
  split; [intros W h w' Hlive; by apply showHide_flag|].
  split; [by rewrite (ShowWindow_live w _ win Hwin)|].
  split; [exact Hflag|].
  split; [exact Hstyle|].
  split; [apply shown_is_visible|exact Herr].
Qed.

Lemma ShowWindowNative_reports_previous_visibility_witness :
  let r := run win32 (ShowWindowNative Demo.show_notepad) Demo.desktop in
  returned (result_of r) !! "success" = Some (JsBoolean false) /\
  returned (result_of r) !! "error" = Some (JsString "Unknown error") /\
  style_of (state_of r) 101 = Some 0x10CF0000.
Proof.
  destruct (ShowWindowNative_reports_previous_visibility
              Demo.desktop Demo.show_notepad Demo.notepad)
    as (_ & _ & Hflag & Hstyle & _ & _).
  - vm_compute. reflexivity.
  - vm_compute. reflexivity.
  - split; [exact Hflag|]. split; [vm_compute; reflexivity | exact Hstyle].
Defined.

(** ** Move *)






(** ** The reparent step of embed *)

Lemma EmbedWindow_show_live w hwnd win :
  window_of w hwnd = Some win ->
  state_of (run win32 (EmbedWindow_show hwnd) w) =
  put_window hwnd (set_style (Z.lor (w_style win) WS_VISIBLE) win) w.
Proof.
  intros Hwin.
  pose proof (window_of_nonzero _ _ _ Hwin) as Hnz.
  remember (run win32 (EmbedWindow_show hwnd) w) as r eqn:Hr.
  unfold EmbedWindow_show in Hr. norm_in Hr. do 3 step_in Hr. by subst r.
Qed.

Lemma embed_reparent_failure w hwnd parentHWND x y width height win :
  window_of w hwnd = Some win ->
  let answer := reparent_answer w hwnd parentHWND in
  answer.1 = 0 -> lastError answer.2 <> 0 ->
  result_of (run win32 (embed hwnd parentHWND x y width height) w) =
    returns (failure
      (if lastError answer.2 =? ERROR_INVALID_PARAMETER
       then "Application refuses window embedding (security restriction)"
       else "Failed to set parent: " +:+ system_message (lastError answer.2))).
Proof.
  intros Hwin answer. subst answer. unfold reparent_answer.
  rewrite (EmbedWindow_show_live w hwnd win Hwin).
  pose proof (window_of_nonzero _ _ _ Hwin) as Hnz.
  remember (run win32 (embed hwnd parentHWND x y width height) w) as r eqn:Hr.
  unfold embed, EmbedWindow_show, EmbedWindow_reparent, GetLastErrorString in Hr.
  norm_in Hr. do 4 step_in Hr.
  revert Hr.
  destruct (win32 HWND (SetParent hwnd parentHWND)
              (put_window hwnd (set_style (Z.lor (w_style win) WS_VISIBLE) win) w))
    as [oldParent w2].
  intros Hr Hold Herr. cbn [fst snd] in Hold, Herr |- *. subst oldParent.
  apply Z.eqb_neq in Herr.
  norm_in Hr. step_in Hr. rewrite Herr in Hr. norm_in Hr. step_in Hr.
  change ERROR_INVALID_PARAMETER with 87.
  destruct (lastError w2 =? 87) eqn:E87; norm_in Hr.
  - by subst r.
  - step_in Hr. rewrite Herr in Hr. norm_in Hr. step_in Hr. by subst r.
Qed.

(** C4: when the reparent call of embed hands back no old parent and
    leaves an error code behind, embed returns failure; with the
    invalid-parameter code (87) the message is the refusal message, with
    any other code it is "Failed to set parent: " followed by the system's
    text for that code. *)
Theorem EmbedWindow_reparent_failure w info win :
  well_typed embedWindow info = true ->
  window_of w (handle_arg info) = Some win ->
  let answer := reparent_answer w (handle_arg info) (Int64Value (arg info 1)) in
  answer.1 = 0 -> lastError answer.2 <> 0 ->
  result_of (run win32 (EmbedWindow info) w) =
    returns (failure
      (if lastError answer.2 =? ERROR_INVALID_PARAMETER
       then "Application refuses window embedding (security restriction)"
       else "Failed to set parent: " +:+ system_message (lastError answer.2))).
Proof.
  intros Hty Hwin answer Hold Herr.
  apply (exported_typed embedWindow) in Hty. cbn [exported checked] in Hty.
  rewrite Hty. by apply (embed_reparent_failure w _ _ _ _ _ _ win).
Qed.

Lemma EmbedWindow_reparent_failure_witness :
  result_of (run win32 (EmbedWindow Demo.embed_vault) Demo.desktop) =
    returns (failure "Application refuses window embedding (security restriction)").
Proof.
  apply (EmbedWindow_reparent_failure Demo.desktop Demo.embed_vault Demo.vault).
  - vm_compute. reflexivity.
  - vm_compute. reflexivity.
  - vm_compute. reflexivity.
  - vm_compute. discriminate.
Defined.

(** ** Failures at the boundary *)

Lemma success_in_band result :
  result !! "success" = Some (JsBoolean true) -> reports_in_band (returns result).
Proof. intros H. split; [reflexivity|]. by left. Qed.

Lemma failed_in_band result msg :
  result !! "success" = Some (JsBoolean false) ->
  result !! "error" = Some (JsString msg) -> reports_in_band (returns result).
Proof. intros H1 H2. split; [reflexivity|]. right. eauto. Qed.

Ltac lookup_key :=
  unfold succeeded; rewrite ?lookup_insert_ne by discriminate; apply lookup_insert_eq.

Ltac in_band :=
  idtac;
  lazymatch goal with
  | |- reports_in_band (returns (failure _)) => apply failure_in_band
  | |- reports_in_band (returns (<["error" := _]> _)) =>
      eapply failed_in_band; [lookup_key | apply lookup_insert_eq]
  | |- reports_in_band (returns _) => apply success_in_band; lookup_key
  end.

Section InBand.
Context {W : Type} (h : Handler W).

Lemma report_BOOL_in_band success : ensures h reports_in_band (report_BOOL success).
Proof. unfold report_BOOL, GetLastErrorString. cbn zeta. walk in_band. Qed.

Lemma launchProcess_in_band exePath : ensures h reports_in_band (launchProcess exePath).
Proof. unfold launchProcess, GetLastErrorString. walk in_band. Qed.

Lemma EmbedWindow_reparent_in_band hwnd parentHWND :
  ensures h (fun refused => forall out, refused = Some out -> reports_in_band out)
          (EmbedWindow_reparent hwnd parentHWND).
Proof.
  unfold EmbedWindow_reparent, GetLastErrorString.
  walk ltac:(idtac; intros ? [= <-]; in_band).
Qed.

Lemma EmbedWindow_restyle_in_band hwnd x y width height :
  ensures h reports_in_band (EmbedWindow_restyle hwnd x y width height).
Proof. unfold EmbedWindow_restyle. cbn zeta. walk in_band. Qed.

Lemma embed_in_band hwnd parentHWND x y width height :
  ensures h reports_in_band (embed hwnd parentHWND x y width height).
Proof.
  unfold embed.
  apply ensures_bind_any; intros live. destruct (negb live); [apply ensures_Ret; in_band|].
  apply ensures_bind_any; intros _.
  eapply ensures_bind; [apply EmbedWindow_reparent_in_band|].
  intros [out|] Hout; [apply ensures_Ret; by apply Hout|].
  apply EmbedWindow_restyle_in_band.
Qed.

Lemma showHide_in_band hwnd show : ensures h reports_in_band (showHide hwnd show).
Proof. unfold showHide. walk in_band. apply report_BOOL_in_band. Qed.

Lemma resize_in_band hwnd x y width height :
  ensures h reports_in_band (resize hwnd x y width height).
Proof. unfold resize. walk in_band. apply report_BOOL_in_band. Qed.

Lemma move_in_band hwnd x y : ensures h reports_in_band (move hwnd x y).
Proof. unfold move. cbn zeta. walk in_band. apply report_BOOL_in_band. Qed.

Lemma terminate_in_band processId : ensures h reports_in_band (terminate processId).
Proof. unfold terminate. walk in_band. apply report_BOOL_in_band. Qed.

Lemma queryWindowInfo_in_band hwnd : ensures h reports_in_band (queryWindowInfo hwnd).
Proof. unfold queryWindowInfo. walk in_band. Qed.

(** [resolveMainWindow] reports failure by the flag alone. *)
Lemma resolveMainWindow_flag processId :
  ensures h (fun out => thrown out = None /\
                        (returned out !! "success" = Some (JsBoolean true) \/
                         returned out !! "success" = Some (JsBoolean false)))
          (resolveMainWindow processId).
Proof.
  unfold resolveMainWindow.
  walk ltac:(idtac; split; [reflexivity|]; cbn [returns returned];
             first [left; lookup_key | right; lookup_key]).
Qed.

End InBand.

(** The end of a detach reads the last error twice; on the synthetic
    platform the two reads agree. *)
Lemma detach_in_band hwnd : ensures win32 reports_in_band (detach hwnd).
Proof.
  unfold detach.
  apply ensures_bind_any; intros live. destruct (negb live); [apply ensures_Ret; in_band|].
  do 4 (apply ensures_bind_any; intros ?).
  destruct (negb (_ =? 0)); [apply ensures_Ret; in_band|].
  intros w. unfold GetLastErrorString. cbn [run bind call win32 result_of fst snd].
  destruct (lastError w =? 0) eqn:E; cbn [negb run bind call win32 result_of fst snd];
    rewrite ?E; cbn [negb run bind call win32 result_of fst snd]; in_band.
Qed.

(** ** The boundary contract *)

Lemma checked_in_band op info :
  op <> getMainWindow -> ensures win32 reports_in_band (checked op info).
Proof.
  intros Hop. destruct op; cbn [checked]; try congruence.
  - apply launchProcess_in_band.
  - apply embed_in_band.
  - apply showHide_in_band.
  - apply resize_in_band.
  - apply move_in_band.
  - apply detach_in_band.
  - apply terminate_in_band.
  - apply queryWindowInfo_in_band.
Qed.

(** C7, as the code has it: called with arguments of the expected number
    and types, an operation throws nothing and returns a result whose
    [success] is [true] or [false], and for every operation other than
    getMainWindow a [false] comes with an [error] string; called with
    anything else, it throws a [TypeError] and returns an empty object. *)
Theorem call_reports op info w :
  let out := result_of (run win32 (exported op info) w) in
  if well_typed op info then
    thrown out = None /\
    (returned out !! "success" = Some (JsBoolean true) \/
     (returned out !! "success" = Some (JsBoolean false) /\
      (op <> getMainWindow -> exists msg, returned out !! "error" = Some (JsString msg))))
  else
    exists msg, out = throwTypeError msg.
Proof.
  intros out. subst out.
  destruct (exported_cases op info) as [[Hty Hrun]|[Hty [msg Hrun]]]; rewrite Hty, Hrun.
  2:{ by exists msg. }
  assert (Hcase : op = getMainWindow \/ op <> getMainWindow)
    by (destruct op; first [by left | by right]).
  destruct Hcase as [->|Hop].
  - destruct (resolveMainWindow_flag win32 (Uint32Value (arg info 0)) w) as [Hthrow [Hs|Hs]].
    + split; [exact Hthrow|]. by left.
    + split; [exact Hthrow|]. right. split; [exact Hs|]. congruence.
  - destruct (checked_in_band op info Hop w) as [Hthrow [Hs|[Hs Herr]]].
    + split; [exact Hthrow|]. by left.
    + split; [exact Hthrow|]. right. split; [exact Hs|]. intros _. exact Herr.
Qed.

(** For instance, embed on a handle that is no window. *)
Lemma call_reports_witness :
  let out := result_of (run win32 (exported embedWindow Demo.embed_closed_window) Demo.desktop) in
  thrown out = None /\
  returned out !! "success" = Some (JsBoolean false) /\
  returned out !! "error" = Some (JsString "Invalid window handle").
Proof.
  pose proof (call_reports embedWindow Demo.embed_closed_window Demo.desktop) as H.
  destruct H as [Hthrow _].
  split; [exact Hthrow|]. split; vm_compute; reflexivity.
Defined.

(** C7 as stated fails: embed called without arguments makes a
    [TypeError] pending and returns an empty object, with neither a
    [success] flag nor an [error] string. *)
Lemma untyped_call_throws :
  let out := result_of (run win32 (exported embedWindow []) Demo.desktop) in
  ~ reports_in_band out /\
  thrown out = Some EmbedWindow_usage /\
  returned out !! "success" = None.
Proof.
  cbn. split; [|split; reflexivity].
  intros [Hthrow _]. discriminate Hthrow.
Qed.


(** ** The main-window search *)

Lemma eqb_truncated n s c :
  (String.length c < n)%nat -> String.eqb (String.substring 0 n s) c = String.eqb s c.
Proof.
  revert n s. induction c as [|b c IH]; intros n s Hlen.
  - destruct n as [|n]; [cbn in Hlen; lia|]. by destruct s.
  - destruct n as [|n]; [cbn in Hlen; lia|].
    destruct s as [|a s]; [reflexivity|].
    cbn [String.substring String.eqb]. rewrite IH by (cbn in Hlen; lia). reflexivity.
Qed.

Lemma is_system_class_truncated s : is_system_class (truncated 256 s) = is_system_class s.
Proof.
  unfold is_system_class, truncated. cbn [Nat.pred].
  by rewrite !eqb_truncated by (cbn; lia).
Qed.

(** The classes the code skips are the shell classes. *)
Lemma is_shell_class_eq s : is_shell_class s = is_system_class s.
Proof.
  unfold is_shell_class, is_system_class, shell_classes. cbn [existsb].
  by rewrite orb_false_r, !orb_assoc.
Qed.

Lemma looks_like_app_window_truncated title style :
  looks_like_app_window (truncated 256 title) style =
  negb (String.eqb title "") || has_any style WS_CAPTION || has_any style WS_BORDER.
Proof. unfold looks_like_app_window, truncated. by destruct title. Qed.

#[export] Hint Rewrite is_system_class_truncated looks_like_app_window_truncated : world.

(** What the callback answers on a live window, from its attributes. *)
Lemma FindMainWindow_callback_live w h win processId found best :
  window_of w h = Some win ->
  let r := run win32 (FindMainWindow_callback h (mkEnumData processId found best)) w in
  result_of r =
    (if is_candidate processId (h, win) then
       if is_rank1 (h, win) then (false, mkEnumData processId h best)
       else (true, mkEnumData processId found
                     (if (best =? 0) && is_fallback (h, win) then h else best))
     else (true, mkEnumData processId found best)) /\
  state_of r = w /\
  Forall (fun e => event_window e = Some h) (trace_of r).
Proof.
  intros Hwin r.
  pose proof (window_of_nonzero _ _ _ Hwin) as Hnz.
  remember r as r' eqn:Hr. subst r.
  unfold FindMainWindow_callback, is_good_window, remember_fallback in Hr.
  cbn [data_processId data_hwnd data_bestHwnd] in Hr.
  hide_strings_in Hr. norm_in Hr.
  exec_in Hr; subst r'; show_strings.
  all: unfold result_of, state_of, trace_of, is_candidate, is_rank1, is_fallback;
    cbn [fst snd]; rewrite ?is_shell_class_eq.
  all: repeat match goal with
              | H : _ = true |- _ => rewrite H
              | H : _ = false |- _ => rewrite H
              end.
  all: cbn [negb andb orb]; rewrite ?andb_false_r.
  all: split; [reflexivity|]; split; [reflexivity|]; repeat constructor.
Qed.

Lemma resolve_from_cons processId best hw ws :
  hw.1 <> 0 ->
  resolve_from processId best (hw :: ws) =
    if is_candidate processId hw then
      if is_rank1 hw then hw.1
      else resolve_from processId (if (best =? 0) && is_fallback hw then hw.1 else best) ws
    else resolve_from processId best ws.
Proof.
  intros Hnz. unfold resolve_from. cbn [List.filter].
  destruct (is_candidate processId hw); [|reflexivity].
  cbn [List.find]. destruct (is_rank1 hw); [reflexivity|].
  destruct (List.find is_rank1 _); [reflexivity|].
  destruct (best =? 0) eqn:Hbest; cbn [negb andb].
  - destruct (is_fallback hw); [|rewrite Hbest; reflexivity].
    destruct (Z.eqb_spec hw.1 0); [contradiction|reflexivity].
  - rewrite Hbest. reflexivity.
Qed.

(** The enumeration over live windows: the choice made at the end is the
    one the specification describes, and the world is left as it was. *)
Lemma EnumWindows_from_live w processId best ws :
  Forall (fun hw => window_of w hw.1 = Some hw.2) ws ->
  let r := run win32 (EnumWindows_from FindMainWindow_callback (map fst ws)
                        (mkEnumData processId 0 best)) w in
  chosen (result_of r) = resolve_from processId best ws /\ state_of r = w.
Proof.
  intros Hws. revert best. induction Hws as [|[h win] ws Hwin Hws IH]; intros best r.
  - subst r. unfold chosen, resolve_from. cbn. split; [|reflexivity].
    destruct (Z.eqb_spec best 0) as [->|_]; reflexivity.
  - subst r. cbn [map fst EnumWindows_from]. rewrite run_bind.
    cbn [fst snd] in Hwin.
    destruct (FindMainWindow_callback_live w h win processId 0 best Hwin) as (Hres & Hst & _).
    destruct (run win32 (FindMainWindow_callback h (mkEnumData processId 0 best)) w)
      as [[[continue data] w1] t1].
    unfold result_of, state_of in Hres, Hst. cbn [fst snd] in Hres, Hst. subst w1.
    rewrite resolve_from_cons by (cbn; eapply window_of_nonzero, Hwin).
    cbn [fst snd]. revert Hres.
    destruct (is_candidate processId (h, win)); [destruct (is_rank1 (h, win))|];
      intros [= -> ->].
    + cbn. unfold chosen. cbn [data_hwnd].
      destruct (Z.eqb_spec h 0) as [->|_]; [|by cbn].
      by apply window_of_nonzero in Hwin.
    + specialize (IH (if (best =? 0) && is_fallback (h, win) then h else best)).
      cbn zeta in IH. destruct (run win32 _ w) as [[data w2] t2].
      exact IH.
    + specialize (IH best). cbn zeta in IH. destruct (run win32 _ w) as [[data w2] t2].
      exact IH.
Qed.

Lemma top_level_windows_live w :
  Forall (fun hw => window_of w hw.1 = Some hw.2) (top_level_windows w).
Proof.
  unfold top_level_windows. induction (zorder w) as [|h l IH]; [constructor|].
  cbn [omap list_omap]. destruct (window_of w h) as [win|] eqn:Hwin; [|exact IH].
  destruct (w_parent win =? 0); [|exact IH]. by constructor.
Qed.

Lemma EnumWindowHandles_run w :
  win32 (list HWND) EnumWindowHandles w = (map fst (top_level_windows w), w).
Proof.
  cbn [win32]. f_equal. unfold top_level_windows.
  induction (zorder w) as [|h l IH]; [reflexivity|].
  cbn [omap list_omap List.filter]. unfold is_top_level at 1.
  destruct (window_of w h) as [win|]; [destruct (w_parent win =? 0)|];
    cbn [map fst]; by rewrite IH.
Qed.

(** The enumeration makes its calls on the visited windows only: it
    stops at the first rank-1 match. *)
Lemma EnumWindows_from_visits w processId best ws :
  Forall (fun hw => window_of w hw.1 = Some hw.2) ws ->
  Forall (touches_only (visited processId ws))
         (trace_of (run win32 (EnumWindows_from FindMainWindow_callback (map fst ws)
                                 (mkEnumData processId 0 best)) w)).
Proof.
  intros Hws. revert best. induction Hws as [|[h win] ws Hwin Hws IH]; intros best.
  - constructor.
  - cbn [map fst EnumWindows_from visited]. rewrite run_bind.
    cbn [fst snd] in Hwin.
    destruct (FindMainWindow_callback_live w h win processId 0 best Hwin)
      as (Hres & Hst & Htr).
    destruct (run win32 (FindMainWindow_callback h (mkEnumData processId 0 best)) w)
      as [[[continue data] w1] t1].
    unfold result_of, state_of, trace_of in Hres, Hst, Htr.
    cbn [fst snd] in Hres, Hst, Htr. subst w1.
    assert (Hhere : forall rest, Forall (touches_only ((h, win) :: rest)) t1).
    { intros rest. eapply Forall_impl; [exact Htr|].
      intros e He. unfold touches_only. rewrite He. by left. }
    revert Hres.
    destruct (is_candidate processId (h, win)); [destruct (is_rank1 (h, win))|];
      intros [= -> ->]; cbn [andb fst snd].
    + unfold trace_of. cbn. rewrite app_nil_r. apply Hhere.
    + specialize (IH (if (best =? 0) && is_fallback (h, win) then h else best)).
      destruct (run win32 _ w) as [[data w2] t2]. unfold trace_of in *. cbn [snd] in *.
      apply Forall_app. split; [apply Hhere|].
      eapply Forall_impl; [exact IH|]. intros e He. unfold touches_only in *.
      destruct (event_window e); [by right|exact I].
    + specialize (IH best).
      destruct (run win32 _ w) as [[data w2] t2]. unfold trace_of in *. cbn [snd] in *.
      apply Forall_app. split; [apply Hhere|].
      eapply Forall_impl; [exact IH|]. intros e He. unfold touches_only in *.
      destruct (event_window e); [by right|exact I].
Qed.

Lemma FindMainWindow_run w processId :
  let r := run win32 (FindMainWindow processId) w in
  result_of r = resolve_from processId 0 (top_level_windows w) /\ state_of r = w /\
  Forall (touches_only (visited processId (top_level_windows w))) (trace_of r).
Proof.
  intros r. subst r. unfold FindMainWindow, EnumWindows.
  rewrite run_bind, run_call_bind, EnumWindowHandles_run.
  destruct (EnumWindows_from_live w processId 0 (top_level_windows w)
              (top_level_windows_live w)) as [Hres Hst].
  pose proof (EnumWindows_from_visits w processId 0 (top_level_windows w)
                (top_level_windows_live w)) as Htr.
  destruct (run win32 (EnumWindows_from _ _ _) w) as [[data w1] t1].
  unfold trace_of in *. cbn in *. split; [exact Hres|]. split; [exact Hst|].
  constructor; [exact I|]. by rewrite app_nil_r.
Qed.

(** The window chosen is among the visited ones. *)
Lemma resolve_from_visited w processId ws h best :
  Forall (fun hw => window_of w hw.1 = Some hw.2) ws ->
  resolve_from processId best ws = h -> h <> 0 ->
  h = best \/ In h (map fst (visited processId ws)).
Proof.
  intros Hws. revert best. induction Hws as [|hw ws Hwin Hws IH]; intros best Hres Hnz.
  - left. unfold resolve_from in Hres. cbn in Hres.
    destruct (Z.eqb_spec best 0); cbn in Hres; unfold HWND in *; lia.
  - rewrite resolve_from_cons in Hres by (eapply window_of_nonzero, Hwin).
    cbn [visited map fst].
    destruct (is_candidate processId hw); [destruct (is_rank1 hw)|]; cbn [andb].
    + right. left. exact Hres.
    + destruct (IH _ Hres Hnz) as [Hb|Hin]; [|by right; right].
      destruct ((best =? 0) && is_fallback hw); [right; left; by symmetry|by left].
    + destruct (IH _ Hres Hnz) as [Hb|Hin]; [by left|by right; right].
Qed.

Lemma resolve_from_spec processId ws :
  resolve_from processId 0 ws = default 0 (resolve_spec processId ws).
Proof.
  unfold resolve_from, resolve_spec.
  destruct (List.find is_rank1 _); [reflexivity|].
  cbn. by destruct (List.find is_fallback _).
Qed.

Lemma find_live {w} f (ws : list (HWND * Window)) hw :
  Forall (fun hw => window_of w hw.1 = Some hw.2) ws ->
  List.find f ws = Some hw -> window_of w hw.1 = Some hw.2.
Proof.
  intros Hws Hfind. apply List.find_some in Hfind as [Hin _].
  rewrite Forall_forall in Hws. apply Hws. by apply list_elem_of_In.
Qed.

Lemma filter_live {w} f (ws : list (HWND * Window)) :
  Forall (fun hw => window_of w hw.1 = Some hw.2) ws ->
  Forall (fun hw => window_of w hw.1 = Some hw.2) (List.filter f ws).
Proof.
  intros Hws. rewrite Forall_forall in *. intros hw Hin.
  apply Hws. apply list_elem_of_In in Hin. apply List.filter_In in Hin as [Hin _].
  by apply list_elem_of_In.
Qed.

(** The window the specification's choice names is a live one. *)
Lemma resolve_spec_live w processId h :
  resolve_spec processId (top_level_windows w) = Some h ->
  exists win, window_of w h = Some win.
Proof.
  unfold resolve_spec.
  pose proof (filter_live (is_candidate processId) _ (top_level_windows_live w)) as Hlive.
  destruct (List.find is_rank1 _) as [hw|] eqn:H1.
  - intros [= <-]. eexists. eapply find_live; eauto.
  - destruct (List.find is_fallback _) as [hw|] eqn:H2; [|discriminate].
    intros [= <-]. eexists. eapply find_live; eauto.
Qed.

(** The resolver on the synthetic platform. *)
Lemma resolveMainWindow_run w processId :
  let r := run win32 (resolveMainWindow processId) w in
  result_of r =
    match resolve_spec processId (top_level_windows w) with
    | Some hwnd => returns (<["hwnd" := JsNumber hwnd]> succeeded)
    | None => returns (<["success" := JsBoolean false]> ∅)
    end /\
  state_of r = w /\
  Forall (touches_only (visited processId (top_level_windows w))) (trace_of r).
Proof.
  intros r. subst r. unfold resolveMainWindow. rewrite run_bind.
  destruct (FindMainWindow_run w processId) as (Hres & Hst & Htr).
  pose proof (resolve_from_visited w processId (top_level_windows w) _ 0
                (top_level_windows_live w) eq_refl) as Hvis.
  destruct (run win32 (FindMainWindow processId) w) as [[hwnd w1] t1].
  unfold result_of, state_of, trace_of in Hres, Hst, Htr |- *.
  cbn [fst snd] in Hres, Hst, Htr. subst w1 hwnd.
  rewrite resolve_from_spec in Hvis |- *.
  destruct (resolve_spec processId (top_level_windows w)) as [h|] eqn:Hspec;
    unfold default; cbn [from_option id].
  - destruct (resolve_spec_live w processId h Hspec) as [win Hwin].
    pose proof (window_of_nonzero _ _ _ Hwin) as Hnz.
    destruct (Z.eqb_spec h 0); [contradiction|].
    cbn [negb run bind call]. rewrite (IsWindow_live w h win Hwin). cbn.
    split; [reflexivity|]. split; [reflexivity|].
    apply Forall_app. split; [exact Htr|]. constructor; [|constructor].
    unfold touches_only. cbn. destruct (Hvis Hnz) as [?|Hin]; [contradiction|exact Hin].
  - cbn. split; [reflexivity|]. split; [reflexivity|]. by rewrite app_nil_r.
Qed.


(** C3, as the code has it: the resolver walks the top-level windows in
    enumeration order and answers as the two-tier ranking says. Among the
    windows of the process whose class is none of [Shell_TrayWnd],
    [Button], [Progman] and [Shell_SecondaryTrayWnd], the first one that
    is visible, has neither a parent nor an owner and has a title or a
    caption or border bit is the answer, and no call is made on a window
    enumerated after it; when there is none, the first one that is not a
    tool window is the answer; when there is none either, the answer is
    failure. *)
Theorem GetMainWindowAPI_ranks w info :
  well_typed getMainWindow info = true ->
  let processId := Uint32Value (arg info 0) in
  let r := run win32 (GetMainWindowAPI info) w in
  result_of r =
    match resolve_spec processId (top_level_windows w) with
    | Some hwnd => returns (<["hwnd" := JsNumber hwnd]> succeeded)
    | None => returns (<["success" := JsBoolean false]> ∅)
    end /\
  Forall (touches_only (visited processId (top_level_windows w))) (trace_of r).
Proof.
  intros Hty processId r.
  apply (exported_typed getMainWindow) in Hty. cbn [exported checked] in Hty.
  subst r. rewrite Hty.
  destruct (resolveMainWindow_run w processId) as (Hres & _ & Htr).
  split; [exact Hres | exact Htr].
Qed.

(** A process whose first window is a taskbar window with a border,
    whose second is a tool window and whose other two are hidden: the
    taskbar window is left out and the third window is the fallback. *)
Lemma GetMainWindowAPI_ranks_witness :
  result_of (run win32 (GetMainWindowAPI Demo.resolve_startup) Demo.startup) =
    returns (<["hwnd" := JsNumber 503]> succeeded).
Proof.
  destruct (GetMainWindowAPI_ranks Demo.startup Demo.resolve_startup) as [Hres _].
  - vm_compute. reflexivity.
  - rewrite Hres. vm_compute. reflexivity.
Defined.

(** The rank-1 case: the calculator is visible, unowned and titled. *)
Example GetMainWindowAPI_rank1 :
  result_of (run win32 (GetMainWindowAPI Demo.resolve_calculator) Demo.desktop) =
    returns (<["hwnd" := JsNumber 100]> succeeded).
Proof. vm_compute. reflexivity. Qed.

(** A visible, titled dialog without a parent but with an owner comes
    first in the enumeration: by the words of section 4.1 it is the
    rank-1 match, and the resolver passes it over for the main window
    behind it. *)
Lemma owned_window_passed_over :
  w_parent Demo.dialog = 0 /\
  resolve_words 21 (top_level_windows Demo.office) = Some 401 /\
  result_of (run win32 (GetMainWindowAPI Demo.resolve_editor) Demo.office) =
    returns (<["hwnd" := JsNumber 402]> succeeded).
Proof. split; [reflexivity|]. split; vm_compute; reflexivity. Qed.

Lemma resolve_spec_no_candidate processId ws :
  Forall (fun hw => w_pid hw.2 <> processId) ws -> resolve_spec processId ws = None.
Proof.
  intros Hws. unfold resolve_spec.
  assert (Hnone : List.filter (is_candidate processId) ws = []).
  { induction Hws as [|hw ws Hpid Hws IH]; [reflexivity|].
    cbn [List.filter]. unfold is_candidate at 1.
    destruct (Z.eqb_spec (w_pid hw.2) processId); [contradiction|exact IH]. }
  by rewrite Hnone.
Qed.

(** C8: for a process that owns no live window the resolver answers
    failure, and whatever the process a handle the resolver hands back is
    a live window in the world it returns in. *)
Theorem GetMainWindowAPI_no_stale_handle w info :
  well_typed getMainWindow info = true ->
  let processId := Uint32Value (arg info 0) in
  let r := run win32 (GetMainWindowAPI info) w in
  ((forall h win, window_of w h = Some win -> w_pid win <> processId) ->
   result_of r = returns (<["success" := JsBoolean false]> ∅)) /\
  (forall h, returned (result_of r) !! "hwnd" = Some (JsNumber h) ->
             is_live (state_of r) h = true).
Proof.
  intros Hty processId r.
  apply (exported_typed getMainWindow) in Hty. cbn [exported checked] in Hty.
  subst r. rewrite Hty. fold processId.
  destruct (resolveMainWindow_run w processId) as (Hres & Hst & _).
  rewrite Hres, Hst. split.
  - intros Hnone. rewrite resolve_spec_no_candidate; [reflexivity|].
    eapply Forall_impl; [apply top_level_windows_live|].
    intros [h win] Hwin. cbn in *. by eapply Hnone.
  - intros h. destruct (resolve_spec processId (top_level_windows w)) as [h'|] eqn:Hspec.
    + cbn [returns returned]. rewrite lookup_insert_eq. intros [= <-].
      destruct (resolve_spec_live w processId h' Hspec) as [win Hwin].
      unfold is_live. by rewrite Hwin.
    + cbn [returns returned]. rewrite lookup_insert_ne by discriminate.
      rewrite lookup_empty. discriminate.
Qed.

Lemma GetMainWindowAPI_no_stale_handle_witness :
  result_of (run win32 (GetMainWindowAPI Demo.resolve_nobody) Demo.desktop) =
    returns (<["success" := JsBoolean false]> ∅).
Proof.
  destruct (GetMainWindowAPI_no_stale_handle Demo.desktop Demo.resolve_nobody) as [Hnone _].
  - vm_compute. reflexivity.
  - apply Hnone. intros h win Hwin Hpid.
    unfold window_of in Hwin. destruct (h =? 0); [discriminate|].
    unfold Demo.desktop in Hwin. cbn [windows] in Hwin.
    repeat (rewrite lookup_insert in Hwin; case_decide;
            [injection Hwin as <-; vm_compute in Hpid; discriminate|]).
    rewrite lookup_empty in Hwin. discriminate.
Defined.

(** * Further properties of the window manager *)

Import Protocol.

(** ** The other operations on a handle that is no window *)

(** X1: on any platform, show/hide, resize, move, detach and the window
    query, called on a handle their liveness check finds dead, make that
    one call and return the invalid-handle failure. *)
Theorem window_operation_dead_handle {W} (h : Handler W) (w : W) op info :
  takes_window op = true ->
  well_typed op info = true ->
  (h bool (IsWindow (handle_arg info)) w).1 = false ->
  run h (exported op info) w =
    (returns (failure "Invalid window handle"),
     (h bool (IsWindow (handle_arg info)) w).2,
     [Ev (IsWindow (handle_arg info))]).
Proof.
  intros Hop Hty Hdead. rewrite (exported_typed op info Hty).
  unfold handle_arg in *.
  destruct op; try discriminate Hop; cbn [checked];
    unfold showHide, resize, move, detach, queryWindowInfo;
    rewrite run_call_bind;
    destruct (h bool (IsWindow (Int64Value (arg info 0))) w) as [live w1];
    cbn [fst snd] in Hdead |- *; subst live; reflexivity.
Qed.

Lemma window_operation_dead_handle_witness :
  run win32 (exported resizeWindow Demo2.on_closed_window) Demo2.stage =
    (returns (failure "Invalid window handle"), Demo2.stage, [Ev (IsWindow 999)]).
Proof.
  apply (window_operation_dead_handle win32 Demo2.stage resizeWindow Demo2.on_closed_window);
    vm_compute; reflexivity.
Defined.

(** ** The calls a program makes, whatever the platform answers *)

Section CallsOnly.
Context {W : Type} (h : Handler W) (P : Event -> Prop).

Lemma only_calls_Ret {A} (a : A) : only_calls h P (Ret a).
Proof. intros w. constructor. Qed.

Lemma only_calls_bind {A B} (p : Prog A) (f : A -> Prog B) :
  only_calls h P p -> (forall a, only_calls h P (f a)) -> only_calls h P (bind p f).
Proof.
  intros Hp Hf w. rewrite run_bind.
  specialize (Hp w). destruct (run h p w) as [[a w1] t1].
  specialize (Hf a w1). destruct (run h (f a) w1) as [[b w2] t2].
  unfold trace_of in *. cbn [snd] in *. apply Forall_app. by split.
Qed.

Lemma only_calls_call {R} (c : WinCall R) : P (Ev c) -> only_calls h P (call c).
Proof.
  intros Hc w. unfold call. cbn [run]. destruct (h R c w) as [r w1].
  unfold trace_of. cbn. by repeat constructor.
Qed.

End CallsOnly.

(** Walk a program call by call. *)
Ltac walk_calls :=
  repeat first
    [ apply only_calls_Ret
    | apply only_calls_call; reflexivity
    | match goal with
      | |- only_calls _ _ (if ?b then _ else _) => destruct b
      | |- only_calls _ _ (match ?o with Some _ => _ | None => _ end) => destruct o
      end
    | apply only_calls_bind; [|intros ?; cbv beta] ].

Section ReadOnlyResolver.
Context {W : Type} (h : Handler W).

Lemma FindMainWindow_callback_read_only hwnd data :
  only_calls h read_only (FindMainWindow_callback hwnd data).
Proof.
  unfold FindMainWindow_callback, is_good_window, remember_fallback. walk_calls.
Qed.

Lemma EnumWindows_from_read_only handles data :
  only_calls h read_only (EnumWindows_from FindMainWindow_callback handles data).
Proof.
  revert data. induction handles as [|hwnd rest IH]; intros data.
  - apply only_calls_Ret.
  - cbn [EnumWindows_from]. apply only_calls_bind.
    + apply FindMainWindow_callback_read_only.
    + intros [continue data']. cbn [fst snd].
      destruct continue; [apply IH | apply only_calls_Ret].
Qed.

Lemma resolveMainWindow_read_only processId :
  only_calls h read_only (resolveMainWindow processId).
Proof.
  unfold resolveMainWindow, FindMainWindow, EnumWindows.
  apply only_calls_bind.
  - apply only_calls_bind.
    + apply only_calls_bind; [apply only_calls_call; reflexivity|].
      intros handles. apply EnumWindows_from_read_only.
    + intros data. apply only_calls_Ret.
  - intros hwnd. walk_calls.
Qed.

End ReadOnlyResolver.

(** X2: the resolver only looks. On any platform it makes none of the
    calls that show, reparent, restyle, reposition, repaint, start or
    end anything, and on the synthetic platform it leaves the world as it
    found it, last error included. *)
Theorem GetMainWindowAPI_only_reads info :
  (forall W (h : Handler W) (w : W),
     Forall read_only (trace_of (run h (GetMainWindowAPI info) w))) /\
  (forall w, state_of (run win32 (GetMainWindowAPI info) w) = w).
Proof.
  destruct (exported_cases getMainWindow info) as [[_ Hrun]|[_ [msg Hrun]]];
    cbn [exported checked] in Hrun; rewrite Hrun.
  - split.
    + intros W h w. apply resolveMainWindow_read_only.
    + intros w. apply resolveMainWindow_run.
  - split; [intros W h w; constructor | reflexivity].
Qed.

(** ** What the resolver can hand back *)

Lemma top_level_windows_top w :
  Forall (fun hw => w_parent hw.2 = 0) (top_level_windows w).
Proof.
  unfold top_level_windows. induction (zorder w) as [|h l IH]; [constructor|].
  cbn [omap list_omap]. destruct (window_of w h) as [win|]; [|exact IH].
  destruct (Z.eqb_spec (w_parent win) 0); [|exact IH]. by constructor.
Qed.

Lemma resolve_spec_candidate processId ws h :
  resolve_spec processId ws = Some h ->
  exists hw, In hw ws /\ hw.1 = h /\ is_candidate processId hw = true.
Proof.
  unfold resolve_spec.
  destruct (List.find is_rank1 _) as [hw|] eqn:H1.
  - intros [= <-]. apply List.find_some in H1 as [Hin _].
    apply List.filter_In in Hin as [Hin Hc]. eauto.
  - destruct (List.find is_fallback _) as [hw|] eqn:H2; [|discriminate].
    intros [= <-]. apply List.find_some in H2 as [Hin _].
    apply List.filter_In in Hin as [Hin Hc]. eauto.
Qed.

(** X3: a handle the resolver hands back is a live top-level window of
    the process asked for, and not of a shell class; it never answers
    with a window of another process. *)
Theorem GetMainWindowAPI_own_window w info h :
  returned (result_of (run win32 (GetMainWindowAPI info) w)) !! "hwnd" = Some (JsNumber h) ->
  exists win,
    window_of w h = Some win /\
    w_pid win = Uint32Value (arg info 0) /\
    w_parent win = 0 /\
    is_system_class (w_class win) = false.
Proof.
  destruct (exported_cases getMainWindow info) as [[_ Hrun]|[_ [msg Hrun]]];
    cbn [exported checked] in Hrun; rewrite Hrun.
  2:{ cbn. rewrite lookup_empty. discriminate. }
  destruct (resolveMainWindow_run w (Uint32Value (arg info 0))) as (Hres & _ & _).
  rewrite Hres.
  destruct (resolve_spec _ _) as [h'|] eqn:Hspec; cbn [returns returned].
  2:{ rewrite lookup_insert_ne by discriminate. rewrite lookup_empty. discriminate. }
  rewrite lookup_insert_eq. intros [= <-].
  destruct (resolve_spec_candidate _ _ _ Hspec) as ([h win] & Hin & Hh & Hcand).
  cbn [fst] in Hh. subst h'. exists win.
  pose proof (top_level_windows_live w) as Hlive.
  pose proof (top_level_windows_top w) as Htop.
  rewrite Forall_forall in Hlive, Htop. apply list_elem_of_In in Hin.
  specialize (Hlive _ Hin). specialize (Htop _ Hin). cbn [fst snd] in Hlive, Htop.
  unfold is_candidate in Hcand. cbn [snd] in Hcand.
  apply andb_prop in Hcand as [Hpid Hclass].
  apply Z.eqb_eq in Hpid. apply negb_true_iff in Hclass.
  rewrite is_shell_class_eq in Hclass. by repeat split.
Qed.

Lemma GetMainWindowAPI_own_window_witness :
  exists win,
    window_of Demo.desktop 100 = Some win /\ w_pid win = 7 /\ w_parent win = 0 /\
    is_system_class (w_class win) = false.
Proof.
  apply (GetMainWindowAPI_own_window Demo.desktop Demo.resolve_calculator 100).
  vm_compute. reflexivity.
Defined.
Import Protocol.

(** ** Embed on a live window, by how its application reacts *)

Lemma container_accepted w hwnd parentHWND win' :
  hwnd <> 0 -> valid_container w hwnd parentHWND ->
  (parentHWND =? hwnd) = false /\
  negb (parentHWND =? 0) && negb (is_live (put_window hwnd win' w) parentHWND) = false.
Proof.
  intros Hnz [Hne Hlive]. split; [by apply Z.eqb_neq|].
  destruct Hlive as [->|Hlive]; [reflexivity|].
  rewrite is_live_put by assumption. case_decide; [|rewrite Hlive]; by rewrite andb_comm.
Qed.

Lemma embed_by_temper w hwnd parentHWND x y width height win :
  window_of w hwnd = Some win ->
  valid_container w hwnd parentHWND ->
  no_stale_error w win ->
  result_of (run win32 (embed hwnd parentHWND x y width height) w) =
    returns (embed_answer (w_temper win)).
Proof.
  intros Hwin Hcont Hstale.
  pose proof (window_of_nonzero _ _ _ Hwin) as Hnz.
  remember (run win32 (embed hwnd parentHWND x y width height) w) as r eqn:Hr.
  unfold embed, EmbedWindow_show, EmbedWindow_reparent, EmbedWindow_restyle,
    EmbedWindow_position, GetLastErrorString in Hr.
  fold_flags_in Hr. hide_strings_in Hr. norm_in Hr.
  do 5 step_in Hr.
  destruct (container_accepted w hwnd parentHWND
              (set_style (Z.lor (w_style win) WS_VISIBLE) win) Hnz Hcont) as [Hself Hlive].
  rewrite Hself, Hlive in Hr.
  assert (Hold : (w_parent win =? 0) = true -> lastError w = 0).
  { intros H0%Z.eqb_eq. by destruct Hstale. }
  destruct (w_temper win) eqn:Ht; norm_in Hr; cbn [embed_answer];
    try change (code =? 87)%positive with (Z.pos code =? 87).
  all: exec_in Hr; subst r; show_strings; try reflexivity.
  all: try discriminate.
  all: exfalso;
    match goal with
    | H : (lastError _ =? 0) = false |- _ => apply Z.eqb_neq in H; apply H, Hold; reflexivity
    end.
Qed.

(** X4: on the synthetic platform, embed on a live window with a valid
    container and no stale error code answers by how the application
    reacts: success when it cooperates, and otherwise the message of the
    step that failed (reparent refused, closed on reparent, closed on
    restyle, reposition rejected, closed on reposition). *)
Theorem EmbedWindow_answer_by_reaction w info win :
  well_typed embedWindow info = true ->
  window_of w (handle_arg info) = Some win ->
  valid_container w (handle_arg info) (Int64Value (arg info 1)) ->
  no_stale_error w win ->
  result_of (run win32 (EmbedWindow info) w) = returns (embed_answer (w_temper win)).
Proof.
  intros Hty Hwin Hcont Hstale.
  apply (exported_typed embedWindow) in Hty. cbn [exported checked] in Hty.
  rewrite Hty. by apply embed_by_temper.
Qed.

Lemma EmbedWindow_answer_by_reaction_witness :
  result_of (run win32 (EmbedWindow Demo2.embed_guarded) Demo2.stage) =
    returns (failure "Window closed after style modification (app may not support embedding)").
Proof.
  apply (EmbedWindow_answer_by_reaction Demo2.stage Demo2.embed_guarded Demo2.guarded).
  - vm_compute. reflexivity.
  - vm_compute. reflexivity.
  - split; [discriminate | right; vm_compute; reflexivity].
  - right. reflexivity.
Defined.

(** ** What a failed embed leaves behind *)

Lemma embed_reposition_rejected w hwnd parentHWND x y width height win code :
  window_of w hwnd = Some win ->
  w_temper win = RejectsReposition code ->
  valid_container w hwnd parentHWND ->
  no_stale_error w win ->
  window_of (state_of (run win32 (embed hwnd parentHWND x y width height) w)) hwnd =
    Some (half_embedded win parentHWND).
Proof.
  intros Hwin Ht Hcont Hstale.
  pose proof (window_of_nonzero _ _ _ Hwin) as Hnz.
  remember (run win32 (embed hwnd parentHWND x y width height) w) as r eqn:Hr.
  unfold embed, EmbedWindow_show, EmbedWindow_reparent, EmbedWindow_restyle,
    EmbedWindow_position, GetLastErrorString in Hr.
  fold_flags_in Hr. hide_strings_in Hr. norm_in Hr.
  do 5 step_in Hr.
  destruct (container_accepted w hwnd parentHWND
              (set_style (Z.lor (w_style win) WS_VISIBLE) win) Hnz Hcont) as [Hself Hlive].
  rewrite Hself, Hlive in Hr.
  assert (Hold : (w_parent win =? 0) = true -> lastError w = 0).
  { intros H0%Z.eqb_eq. by destruct Hstale. }
  norm_in Hr. exec_in Hr; subst r; show_strings.
  all: try discriminate.
  all: try solve [exfalso;
    match goal with
    | H : (lastError _ =? 0) = false |- _ => apply Z.eqb_neq in H; apply H, Hold; reflexivity
    end].
  all: unfold state_of; cbn [fst snd]; autorewrite with world; reflexivity.
Qed.

(** X5: on the synthetic platform, when the application rejects the
    reposition, embed reports failure and rolls nothing back: the window
    stays reparented into the container with the embedded style words,
    at its old rectangle. *)
Theorem EmbedWindow_no_rollback w info win code :
  well_typed embedWindow info = true ->
  window_of w (handle_arg info) = Some win ->
  w_temper win = RejectsReposition code ->
  valid_container w (handle_arg info) (Int64Value (arg info 1)) ->
  no_stale_error w win ->
  let r := run win32 (EmbedWindow info) w in
  returned (result_of r) !! "success" = Some (JsBoolean false) /\
  window_of (state_of r) (handle_arg info) =
    Some (half_embedded win (Int64Value (arg info 1))).
Proof.
  intros Hty Hwin Ht Hcont Hstale.
  apply (exported_typed embedWindow) in Hty. cbn [exported checked] in Hty.
  rewrite Hty. cbv zeta. split.
  - unfold handle_arg in *. rewrite (embed_by_temper _ _ _ _ _ _ _ win) by assumption.
    rewrite Ht. apply failure_success.
  - by apply embed_reposition_rejected with (code := code).
Qed.

Lemma EmbedWindow_no_rollback_witness :
  let r := run win32 (EmbedWindow Demo2.embed_kiosk) Demo2.stage in
  returned (result_of r) !! "success" = Some (JsBoolean false) /\
  window_of (state_of r) 300 = Some (half_embedded Demo2.kiosk 200).
Proof.
  apply (EmbedWindow_no_rollback Demo2.stage Demo2.embed_kiosk Demo2.kiosk 5).
  - vm_compute. reflexivity.
  - vm_compute. reflexivity.
  - reflexivity.
  - split; [discriminate | right; vm_compute; reflexivity].
  - right. reflexivity.
Defined.

Lemma embed_stale_error w hwnd parentHWND x y width height win :
  window_of w hwnd = Some win ->
  w_temper win = Cooperative ->
  w_parent win = 0 ->
  lastError w <> 0 ->
  valid_container w hwnd parentHWND ->
  let r := run win32 (embed hwnd parentHWND x y width height) w in
  result_of r =
    returns (failure
      (if lastError w =? ERROR_INVALID_PARAMETER
       then "Application refuses window embedding (security restriction)"
       else "Failed to set parent: " +:+ system_message (lastError w))) /\
  window_of (state_of r) hwnd = Some (shown_in win parentHWND).
Proof.
  intros Hwin Ht Htop Herr Hcont.
  pose proof (window_of_nonzero _ _ _ Hwin) as Hnz.
  remember (run win32 (embed hwnd parentHWND x y width height) w) as r eqn:Hr.
  unfold embed, EmbedWindow_show, EmbedWindow_reparent, GetLastErrorString in Hr.
  hide_strings_in Hr. norm_in Hr.
  do 5 step_in Hr.
  destruct (container_accepted w hwnd parentHWND
              (set_style (Z.lor (w_style win) WS_VISIBLE) win) Hnz Hcont) as [Hself Hlive].
  rewrite Hself, Hlive in Hr. rewrite Htop in Hr. apply Z.eqb_neq in Herr.
  norm_in Hr. step_in Hr. rewrite Herr in Hr. norm_in Hr. step_in Hr.
  change ERROR_INVALID_PARAMETER with 87. cbv zeta.
  destruct (lastError w =? 87) eqn:E87; norm_in Hr.
  2: step_in Hr; rewrite Herr in Hr; norm_in Hr; step_in Hr.
  all: subst r; show_strings; split; [reflexivity|].
  all: unfold state_of; cbn [fst snd]; autorewrite with world.
  all: unfold shown_in, set_parent, set_style;
    cbn [w_pid w_class w_title w_style w_exstyle w_parent w_owner w_rect w_temper];
    reflexivity.
Qed.

(** X6: on the synthetic platform, an embed of a top-level window while
    an error code is left over from an earlier call reports a reparent
    failure although the application cooperates and the reparent went
    through: the window is in the container when the failure returns. *)
Theorem EmbedWindow_stale_error w info win :
  well_typed embedWindow info = true ->
  window_of w (handle_arg info) = Some win ->
  w_temper win = Cooperative ->
  w_parent win = 0 ->
  lastError w <> 0 ->
  valid_container w (handle_arg info) (Int64Value (arg info 1)) ->
  let r := run win32 (EmbedWindow info) w in
  result_of r =
    returns (failure
      (if lastError w =? ERROR_INVALID_PARAMETER
       then "Application refuses window embedding (security restriction)"
       else "Failed to set parent: " +:+ system_message (lastError w))) /\
  parent_of (state_of r) (handle_arg info) = Some (Int64Value (arg info 1)).
Proof.
  intros Hty Hwin Ht Htop Herr Hcont.
  apply (exported_typed embedWindow) in Hty. cbn [exported checked] in Hty.
  rewrite Hty. cbv zeta.
  destruct (embed_stale_error w (handle_arg info) (Int64Value (arg info 1))
              (Int32Value (arg info 2)) (Int32Value (arg info 3))
              (Int32Value (arg info 4)) (Int32Value (arg info 5)) win
              Hwin Ht Htop Herr Hcont) as [Hres Hstate].
  unfold handle_arg in *. split; [exact Hres|].
  unfold parent_of. by rewrite Hstate.
Qed.

Lemma EmbedWindow_stale_error_witness :
  let r := run win32 (EmbedWindow Demo.embed_calculator) Demo2.stage_after_error in
  result_of r = returns (failure "Failed to set parent: Access is denied.") /\
  parent_of (state_of r) 100 = Some 200.
Proof.
  apply (EmbedWindow_stale_error Demo2.stage_after_error Demo.embed_calculator Demo.calculator).
  - vm_compute. reflexivity.
  - vm_compute. reflexivity.
  - reflexivity.
  - reflexivity.
  - vm_compute. discriminate.
  - split; [discriminate | right; vm_compute; reflexivity].
Defined.

(** ** Calls that do not pass the type check *)

(** X7: on any platform, a call of an exported function with arguments
    that fail its type check throws without making a single platform
    call, and leaves the platform as it was. *)
Theorem ill_typed_call_touches_nothing {W} (h : Handler W) (w : W) op info :
  well_typed op info = false ->
  exists msg, run h (exported op info) w = (throwTypeError msg, w, []).
Proof.
  intros Hty. destruct (exported_cases op info) as [[Hok _]|[_ [msg Hrun]]].
  - congruence.
  - exists msg. by rewrite Hrun.
Qed.

Lemma ill_typed_call_touches_nothing_witness :
  exists msg,
    run win32 (exported showWindow [JsNumber 100; JsNumber 1]) Demo.desktop =
      (throwTypeError msg, Demo.desktop, []).
Proof.
  apply (ill_typed_call_touches_nothing win32 Demo.desktop showWindow [JsNumber 100; JsNumber 1]).
  vm_compute. reflexivity.
Defined.

(** ** Process handles *)

Section Handles.
Context {W : Type} (h : Handler W).

Lemma GetLastErrorString_read_only : only_calls h read_only GetLastErrorString.
Proof. unfold GetLastErrorString. walk_calls. Qed.

Lemma report_BOOL_read_only success : only_calls h read_only (report_BOOL success).
Proof. unfold report_BOOL, GetLastErrorString. cbv zeta. walk_calls. Qed.

Lemma terminate_run processId w :
  let open := OpenProcess PROCESS_TERMINATE processId in
  let hp := (h HANDLE open w).1 in
  let r := run h (terminate processId) w in
  if hp =? 0 then
    Forall read_only (trace_of r) /\
    returned (result_of r) !! "success" = Some (JsBoolean false)
  else
    exists reads,
      trace_of r = Ev open :: Ev (TerminateProcess hp 0) :: Ev (CloseHandle hp) :: reads /\
      Forall read_only reads.
Proof.
  cbv zeta. unfold terminate. rewrite run_call_bind.
  destruct (h HANDLE (OpenProcess PROCESS_TERMINATE processId) w) as [hp w1].
  cbn [fst]. destruct (hp =? 0).
  - rewrite run_bind.
    pose proof (GetLastErrorString_read_only w1) as Hread.
    destruct (run h GetLastErrorString w1) as [[msg w2] t].
    cbn [run]. unfold trace_of, result_of in *. cbn [fst snd] in *. split.
    + constructor; [reflexivity|]. by rewrite app_nil_r.
    + apply failure_success.
  - rewrite run_call_bind.
    destruct (h bool (TerminateProcess hp 0) w1) as [success w2].
    rewrite run_call_bind.
    destruct (h bool (CloseHandle hp) w2) as [closed w3].
    pose proof (report_BOOL_read_only success w3) as Hread.
    destruct (run h (report_BOOL success) w3) as [[out w4] t].
    unfold trace_of in *. cbn [fst snd] in *. by exists t.
Qed.

End Handles.

(** X8: on any platform, terminate opens the process first. When that
    hands back no handle it reports failure and neither ends nor closes
    anything; when it hands back a handle it asks once for the process to
    end and then closes that handle once, whether the process ended or
    not, and only reads after that. *)
Theorem TerminateProcessNative_handle_discipline {W} (h : Handler W) (w : W) info :
  well_typed terminateProcess info = true ->
  let open := OpenProcess PROCESS_TERMINATE (Uint32Value (arg info 0)) in
  let hp := (h HANDLE open w).1 in
  let r := run h (TerminateProcessNative info) w in
  if hp =? 0 then
    Forall read_only (trace_of r) /\
    returned (result_of r) !! "success" = Some (JsBoolean false)
  else
    exists reads,
      trace_of r = Ev open :: Ev (TerminateProcess hp 0) :: Ev (CloseHandle hp) :: reads /\
      Forall read_only reads.
Proof.
  intros Hty.
  apply (exported_typed terminateProcess) in Hty. cbn [exported checked] in Hty.
  rewrite Hty. apply terminate_run.
Qed.

Lemma TerminateProcessNative_handle_discipline_witness :
  exists reads,
    trace_of (run win32 (TerminateProcessNative [JsNumber 7]) Demo.desktop) =
      Ev (OpenProcess PROCESS_TERMINATE 7) :: Ev (TerminateProcess 7 0) ::
      Ev (CloseHandle 7) :: reads /\
    Forall read_only reads.
Proof.
  apply (TerminateProcessNative_handle_discipline win32 Demo.desktop [JsNumber 7]).
  vm_compute. reflexivity.
Defined.

(** X9: on any platform, launch starts the program with the path, up
    to its first NUL, as the whole command line. When the process starts,
    the one further call closes the thread handle, and the process id and
    the process handle, still open, go back to the caller; when it does
    not start, nothing is closed and the result is a failure. *)
Theorem LaunchApplication_hands_back_process {W} (h : Handler W) (w : W) info :
  well_typed launchApplication info = true ->
  let start := CreateProcessA (c_string (Utf8Value (arg info 0))) in
  let r := run h (LaunchApplication info) w in
  match (h _ start w).1 with
  | Some pi =>
      trace_of r = [Ev start; Ev (CloseHandle (hThread pi))] /\
      result_of r =
        returns (<["processHandle" := JsNumber (hProcess pi)]>
                 (<["processId" := JsNumber (dwProcessId pi)]> succeeded))
  | None =>
      (exists reads, trace_of r = Ev start :: reads /\ Forall read_only reads) /\
      returned (result_of r) !! "success" = Some (JsBoolean false)
  end.
Proof.
  intros Hty.
  apply (exported_typed launchApplication) in Hty. cbn [exported checked] in Hty.
  rewrite Hty. cbv zeta. unfold launchProcess. cbv zeta. rewrite run_call_bind.
  destruct (h _ (CreateProcessA (c_string (Utf8Value (arg info 0)))) w) as [[pi|] w1];
    cbn [fst].
  - rewrite run_call_bind. destruct (h bool (CloseHandle (hThread pi)) w1) as [closed w2].
    split; reflexivity.
  - rewrite run_bind.
    pose proof (GetLastErrorString_read_only h w1) as Hread.
    destruct (run h GetLastErrorString w1) as [[msg w2] t].
    cbn [run]. unfold trace_of, result_of in *. cbn [fst snd] in *. split.
    + exists t. by rewrite app_nil_r.
    + apply failure_success.
Qed.

Lemma LaunchApplication_hands_back_process_witness :
  let exePath := "C:\Windows\notepad.exe" +:+ String "000"%char "/tail" in
  let r := run win32 (LaunchApplication [JsString exePath; JsNumber 200]) Demo.desktop in
  trace_of r = [Ev (CreateProcessA "C:\Windows\notepad.exe"); Ev (CloseHandle 1001)] /\
  result_of r =
    returns (<["processHandle" := JsNumber 1000]> (<["processId" := JsNumber 1000]> succeeded)).
Proof.
  apply (LaunchApplication_hands_back_process win32 Demo.desktop
           [JsString ("C:\Windows\notepad.exe" +:+ String "000"%char "/tail"); JsNumber 200]).
  vm_compute. reflexivity.
Defined.

(** ** Detach on the synthetic platform *)

Lemma detach_cooperative_result w hwnd win :
  window_of w hwnd = Some win -> w_temper win = Cooperative ->
  returned (result_of (run win32 (detach hwnd) w)) !! "success" =
    Some (JsBoolean (detach_reports w win)).
Proof.
  intros Hwin Ht.
  pose proof (window_of_nonzero _ _ _ Hwin) as Hnz.
  remember (run win32 (detach hwnd) w) as r eqn:Hr.
  unfold detach, GetLastErrorString in Hr.
  fold_flags_in Hr. hide_strings_in Hr. norm_in Hr.
  unfold detach_reports.
  exec_in Hr; subst r; show_strings; unfold result_of; cbn [fst snd returns returned negb orb].
  all: try (apply Z.eqb_eq in E; congruence).
  all: repeat match goal with
              | H : (_ =? _) = _ |- _ => rewrite ?H; clear H
              end.
  all: try reflexivity.
Qed.

(** X10: on the synthetic platform, a detach of a live window of a
    cooperative application always leaves it top-level with the frame
    bits set, but reports success only when the window had a parent or
    no error code was left over from an earlier call: a window that is
    top-level already is reported as a failure after an earlier error. *)
Theorem UnparentWindow_reports w info win :
  well_typed unparentWindow info = true ->
  window_of w (handle_arg info) = Some win ->
  w_temper win = Cooperative ->
  let r := run win32 (UnparentWindow info) w in
  window_of (state_of r) (handle_arg info) = Some (detached win) /\
  returned (result_of r) !! "success" = Some (JsBoolean (detach_reports w win)).
Proof.
  intros Hty Hwin Ht.
  apply (exported_typed unparentWindow) in Hty. cbn [exported checked] in Hty.
  rewrite Hty. cbv zeta. split.
  - by apply detach_cooperative.
  - by apply detach_cooperative_result.
Qed.

Lemma UnparentWindow_reports_witness :
  let r := run win32 (UnparentWindow [JsNumber 100]) Demo2.stage_after_error in
  window_of (state_of r) 100 = Some (detached Demo.calculator) /\
  returned (result_of r) !! "success" = Some (JsBoolean false).
Proof.
  apply (UnparentWindow_reports Demo2.stage_after_error [JsNumber 100] Demo.calculator).
  - vm_compute. reflexivity.
  - vm_compute. reflexivity.
  - reflexivity.
Defined.

Lemma unparentStyle_idem s : unparentStyle (unparentStyle s) = unparentStyle s.
Proof. unfold unparentStyle. word_eq s. Qed.

Lemma reposition_detach_flags r : reposition r 0 0 0 0 detach_flags = r.
Proof.
  unfold reposition. change (has_any detach_flags SWP_NOMOVE) with true.
  change (has_any detach_flags SWP_NOSIZE) with true. cbv iota.
  unfold width, height. destruct r as [l t r b]. cbn [left top right bottom].
  f_equal; lia.
Qed.

Lemma detached_idem win : detached (detached win) = detached win.
Proof.
  unfold detached. cbn [w_pid w_class w_title w_style w_exstyle w_parent w_owner w_rect w_temper].
  by rewrite unparentStyle_idem, !reposition_detach_flags.
Qed.

(** X11: on the synthetic platform, detaching a window of a cooperative
    application a second time changes nothing: the window is as the
    first detach left it, and its rectangle is the one it had before
    either. *)
Theorem UnparentWindow_twice w info win :
  well_typed unparentWindow info = true ->
  window_of w (handle_arg info) = Some win ->
  w_temper win = Cooperative ->
  let once := state_of (run win32 (UnparentWindow info) w) in
  let twice := state_of (run win32 (UnparentWindow info) once) in
  window_of twice (handle_arg info) = window_of once (handle_arg info) /\
  rect_of twice (handle_arg info) = Some (w_rect win).
Proof.
  intros Hty Hwin Ht.
  apply (exported_typed unparentWindow) in Hty. cbn [exported checked] in Hty.
  rewrite Hty. cbv zeta.
  pose proof (detach_cooperative w _ win Hwin Ht) as Honce.
  pose proof (detach_cooperative _ _ (detached win) Honce Ht) as Htwice.
  rewrite detached_idem in Htwice. unfold handle_arg in *.
  split; [congruence|].
  unfold rect_of. rewrite Htwice. cbn. by rewrite reposition_detach_flags.
Qed.

Lemma UnparentWindow_twice_witness :
  let once := state_of (run win32 (UnparentWindow [JsNumber 100]) Demo.desktop) in
  let twice := state_of (run win32 (UnparentWindow [JsNumber 100]) once) in
  window_of twice 100 = window_of once 100 /\
  rect_of twice 100 = Some (mkRECT 10 20 310 220).
Proof.
  apply (UnparentWindow_twice Demo.desktop [JsNumber 100] Demo.calculator).
  - vm_compute. reflexivity.
  - vm_compute. reflexivity.
  - reflexivity.
Defined.

(** ** Resize on the synthetic platform *)

Lemma resize_cooperative w hwnd x y width height win :
  window_of w hwnd = Some win -> w_temper win = Cooperative ->
  run win32 (resize hwnd x y width height) w =
    (returns succeeded, put_window hwnd (resized win x y width height) w,
     [Ev (IsWindow hwnd); Ev (SetWindowPos hwnd HWND_TOP x y width height SWP_SHOWWINDOW)]).
Proof.
  intros Hwin Ht.
  pose proof (window_of_nonzero _ _ _ Hwin) as Hnz.
  remember (run win32 (resize hwnd x y width height) w) as r eqn:Hr.
  unfold resize, report_BOOL, GetLastErrorString in Hr.
  hide_strings_in Hr. norm_in Hr. exec_in Hr. subst r. show_strings. reflexivity.
Qed.

(** X12: on the synthetic platform, a resize of a live window of a
    cooperative application succeeds with one liveness check and one
    reposition, puts the window at the corner asked for with the size
    asked for, a negative size counting as zero, and makes it visible
    even if it was hidden. *)
Theorem ResizeWindow_places_and_shows w info win :
  well_typed resizeWindow info = true ->
  window_of w (handle_arg info) = Some win ->
  w_temper win = Cooperative ->
  let x := Int32Value (arg info 1) in
  let y := Int32Value (arg info 2) in
  let width := Int32Value (arg info 3) in
  let height := Int32Value (arg info 4) in
  let r := run win32 (ResizeWindow info) w in
  result_of r = returns succeeded /\
  rect_of (state_of r) (handle_arg info) =
    Some (mkRECT x y (x + Z.max 0 width) (y + Z.max 0 height)) /\
  style_of (state_of r) (handle_arg info) = Some (Z.lor (w_style win) WS_VISIBLE).
Proof.
  intros Hty Hwin Ht.
  apply (exported_typed resizeWindow) in Hty. cbn [exported checked] in Hty.
  rewrite Hty. cbv zeta. unfold handle_arg in *.
  rewrite (resize_cooperative w _ _ _ _ _ win Hwin Ht).
  unfold result_of, state_of, rect_of, style_of. cbn [fst snd].
  rewrite window_of_put_eq by (by eapply window_of_nonzero).
  split; [reflexivity|]. split; reflexivity.
Qed.

Lemma ResizeWindow_places_and_shows_witness :
  let r := run win32 (ResizeWindow [JsNumber 101; JsNumber 5; JsNumber 6; JsNumber 300; JsNumber (-4)])
             Demo.desktop in
  result_of r = returns succeeded /\
  rect_of (state_of r) 101 = Some (mkRECT 5 6 305 6) /\
  style_of (state_of r) 101 = Some 0x10CF0000.
Proof.
  apply (ResizeWindow_places_and_shows Demo.desktop
           [JsNumber 101; JsNumber 5; JsNumber 6; JsNumber 300; JsNumber (-4)] Demo.notepad).
  - vm_compute. reflexivity.
  - vm_compute. reflexivity.
  - reflexivity.
Defined.

(** ** Embedding twice *)

Lemma embedStyle_has_caption s : has_any (embedStyle s) WS_CAPTION = true.
Proof.
  apply has_any_true_iff. rewrite embedStyle_caption.
  destruct (has_any s WS_CAPTION); discriminate.
Qed.

(** X13: the style rewriting of embed is not idempotent but settles
    after one more round: the border it adds to a window without caption
    counts as a caption bit the next time, so a second rewriting gives the
    first result with the full caption set, and a third changes nothing
    more. *)
Theorem embedStyle_twice s :
  embedStyle (embedStyle s) = Z.lor (embedStyle s) WS_CAPTION /\
  embedStyle (embedStyle (embedStyle s)) = embedStyle (embedStyle s).
Proof.
  assert (Htwice : forall t, embedStyle (embedStyle t) = Z.lor (embedStyle t) WS_CAPTION).
  { intros t. unfold embedStyle at 1. rewrite embedStyle_has_caption.
    unfold embedStyle. destruct (has_any t WS_CAPTION) eqn:Hc; word_eq t. }
  split; [apply Htwice|].
  rewrite (Htwice (embedStyle s)), (Htwice s).
  rewrite <- Z.lor_assoc, Z.lor_diag. reflexivity.
Qed.

(** ** The file name of a module path *)

Lemma substring_skip n m c s : String.substring (S n) m (String c s) = String.substring n m s.
Proof. reflexivity. Qed.

Lemma substring_all m s : (String.length s <= m)%nat -> String.substring 0 m s = s.
Proof.
  revert m. induction s as [|c s IH]; intros m Hm; destruct m as [|m]; cbn in *;
    try reflexivity; try lia.
  f_equal. apply IH. lia.
Qed.

Lemma substring_past n m s : (String.length s <= n)%nat -> String.substring n m s = "".
Proof.
  revert n. induction s as [|c s IH]; intros n Hn.
  - destruct n, m; reflexivity.
  - destruct n as [|n]; cbn in Hn; [lia|]. cbn. apply IH. lia.
Qed.

Lemma find_last_of_sep_bounds s pos found :
  match find_last_of_sep s pos found with
  | Some i => (found = Some i /\ has_sep s = false) \/ (pos <= i < pos + String.length s)%nat
  | None => found = None /\ has_sep s = false
  end.
Proof.
  revert pos found. induction s as [|c s IH]; intros pos found; cbn [find_last_of_sep has_sep].
  - destruct found; auto.
  - fold (is_sep c). specialize (IH (S pos) (if is_sep c then Some pos else found)).
    destruct (find_last_of_sep s (S pos) _) as [i|].
    + destruct IH as [[Hf Hs]|Hi].
      * destruct (is_sep c); cbn [orb String.length].
        -- injection Hf as <-. right. lia.
        -- left. by split.
      * right. cbn [String.length]. lia.
    + destruct IH as [Hf Hs]. destruct (is_sep c); [discriminate|]. by split.
Qed.

(** The part of [s] from offset [i - pos] on holds no separator when
    [i] is what the search from [pos] found. *)
Lemma find_last_of_sep_last s pos found i m :
  find_last_of_sep s pos found = Some i -> (pos <= i)%nat -> (String.length s <= m)%nat ->
  has_sep (String.substring (S (i - pos)) m s) = false.
Proof.
  revert pos found. induction s as [|c s IH]; intros pos found Hfind Hpos Hm.
  - destruct m; reflexivity.
  - cbn [find_last_of_sep] in Hfind. fold (is_sep c) in Hfind.
    rewrite substring_skip.
    pose proof (find_last_of_sep_bounds s (S pos) (if is_sep c then Some pos else found)) as Hb.
    rewrite Hfind in Hb. cbn [String.length] in Hm.
    destruct Hb as [[Hf Hs]|Hi].
    + destruct (Nat.eq_dec i pos) as [->|Hne].
      * rewrite Nat.sub_diag, substring_all by lia. exact Hs.
      * assert (Hlt : (pos < i)%nat) by lia.
        replace (i - pos)%nat with (S (i - S pos)) by lia.
        eapply IH; [exact Hfind| |lia].
        destruct (is_sep c); [injection Hf; lia|].
        lia.
    + replace (i - pos)%nat with (S (i - S pos)) by lia.
      eapply IH; [exact Hfind|lia|lia].
Qed.

Lemma file_name_of_no_sep processPath : has_sep (file_name_of processPath) = false.
Proof.
  unfold file_name_of.
  pose proof (find_last_of_sep_bounds processPath 0 None) as Hb.
  destruct (find_last_of_sep processPath 0 None) as [i|] eqn:Hfind.
  - pose proof (find_last_of_sep_last processPath 0 None i (String.length processPath)
                  Hfind ltac:(lia) ltac:(lia)) as Hlast.
    by rewrite Nat.sub_0_r in Hlast.
  - by destruct Hb.
Qed.

Lemma find_last_of_sep_app a b pos found :
  find_last_of_sep (a ++ b) pos found =
  find_last_of_sep b (pos + String.length a) (find_last_of_sep a pos found).
Proof.
  revert pos found. induction a as [|c a IH]; intros pos found.
  - cbn. by rewrite Nat.add_0_r.
  - change (String c a +:+ b) with (String c (a +:+ b)).
    cbn [find_last_of_sep String.length]. rewrite IH.
    by rewrite Nat.add_succ_r.
Qed.

Lemma find_last_of_sep_none s pos found :
  has_sep s = false -> find_last_of_sep s pos found = found.
Proof.
  revert pos found. induction s as [|c s IH]; intros pos found Hs; [reflexivity|].
  cbn [has_sep] in Hs. apply orb_false_elim in Hs as [Hc Hs].
  cbn [find_last_of_sep]. fold (is_sep c). rewrite Hc. by apply IH.
Qed.

Lemma substring_app_skip a b n m :
  String.substring (String.length a + n) m (a ++ b) = String.substring n m b.
Proof. induction a as [|c a IH]; [reflexivity|]. exact IH. Qed.

Lemma length_app_string a b : String.length (a ++ b) = (String.length a + String.length b)%nat.
Proof.
  induction a as [|c a IH]; [reflexivity|].
  change (String c a +:+ b) with (String c (a +:+ b)). cbn [String.length]. by rewrite IH.
Qed.

(** X14: the executable name the window query cuts out of a module path
    holds no path separator, and for a path made of a directory, a
    backslash or slash and a name without separators it is that name. *)
Theorem file_name_of_path dir sep name :
  is_sep sep = true -> has_sep name = false ->
  has_sep (file_name_of (dir ++ String sep name)) = false /\
  file_name_of (dir ++ String sep name) = name.
Proof.
  intros Hsep Hname. split; [apply file_name_of_no_sep|].
  unfold file_name_of.
  rewrite find_last_of_sep_app. cbn [find_last_of_sep]. fold (is_sep sep). rewrite Hsep.
  rewrite find_last_of_sep_none by assumption. cbn [Nat.add].
  replace (S (String.length dir)) with (String.length dir + 1)%nat by lia.
  rewrite substring_app_skip, substring_skip.
  apply substring_all. rewrite length_app_string. cbn [String.length]. lia.
Qed.

Lemma file_name_of_path_witness :
  has_sep (file_name_of "C:\Windows\System32\calc.exe") = false /\
  file_name_of "C:\Windows\System32\calc.exe" = "calc.exe".
Proof.
  apply (file_name_of_path "C:\Windows\System32" "\"%char "calc.exe"); reflexivity.
Defined.

(** ** The window query on the synthetic platform *)

Lemma queryWindowInfo_live w hwnd win :
  window_of w hwnd = Some win ->
  let r := run win32 (queryWindowInfo hwnd) w in
  result_of r =
    returns (<["processName" := JsString (process_name_of w (w_pid win))]>
             (<["title" := JsString (truncated 256 (w_title win))]> succeeded)) /\
  windows (state_of r) = windows w /\ processes (state_of r) = processes w.
Proof.
  intros Hwin.
  pose proof (window_of_nonzero _ _ _ Hwin) as Hnz.
  remember (run win32 (queryWindowInfo hwnd) w) as r eqn:Hr.
  unfold queryWindowInfo in Hr. norm_in Hr. do 3 step_in Hr.
  cbn [win32] in Hr. unfold do_OpenProcess in Hr. cbv zeta. unfold process_name_of.
  destruct (w_pid win =? 0) eqn:Hpid; norm_in Hr.
  { by subst r. }
  destruct (processes w !! w_pid win) as [p|] eqn:Hp; norm_in Hr.
  2:{ by subst r. }
  destruct (p_protected p) eqn:Hprot; norm_in Hr.
  { by subst r. }
  rewrite Hpid in Hr. cbn [negb run bind call win32] in Hr.
  match type of Hr with
  | context [match ?o with Some _ => _ | None => _ end] => change o with (processes w !! w_pid win) in Hr
  end.
  rewrite Hp in Hr. cbn [negb run bind call win32 fst snd] in Hr. by subst r.
Qed.

(** X15: on the synthetic platform, the window query on a live window
    always reports success, with the title cut to 255 characters and the
    file name of the owning process, or "Unknown" when the process cannot
    be opened; it changes no window and no process. *)
Theorem GetWindowInfoNative_answers w info win :
  well_typed getWindowInfo info = true ->
  window_of w (handle_arg info) = Some win ->
  let r := run win32 (GetWindowInfoNative info) w in
  result_of r =
    returns (<["processName" := JsString (process_name_of w (w_pid win))]>
             (<["title" := JsString (truncated 256 (w_title win))]> succeeded)) /\
  windows (state_of r) = windows w /\ processes (state_of r) = processes w.
Proof.
  intros Hty Hwin.
  apply (exported_typed getWindowInfo) in Hty. cbn [exported checked] in Hty.
  rewrite Hty. by apply queryWindowInfo_live.
Qed.

Lemma GetWindowInfoNative_answers_witness :
  let r := run win32 (GetWindowInfoNative [JsNumber 300]) Demo2.stage in
  result_of r =
    returns (<["processName" := JsString "Unknown"]>
             (<["title" := JsString "Kiosk"]> succeeded)) /\
  windows (state_of r) = windows Demo2.stage /\
  processes (state_of r) = processes Demo2.stage.
Proof.
  apply (GetWindowInfoNative_answers Demo2.stage [JsNumber 300] Demo2.kiosk).
  - vm_compute. reflexivity.
  - vm_compute. reflexivity.
Defined.

(** ** The one window an operation works on *)

Ltac walk_calls_by leaf :=
  repeat first
    [ apply only_calls_Ret
    | apply only_calls_call; leaf
    | match goal with
      | |- only_calls _ _ (if ?b then _ else _) => destruct b
      | |- only_calls _ _ (match ?o with Some _ => _ | None => _ end) => destruct o
      end
    | apply only_calls_bind; [|intros ?; cbv beta] ].

Ltac confined_call := idtac; first [ exact I | reflexivity ].

Section Confined.
Context {W : Type} (h : Handler W).

Lemma embed_confined hwnd parentHWND x y width height :
  only_calls h (confined hwnd) (embed hwnd parentHWND x y width height).
Proof.
  unfold embed, EmbedWindow_show, EmbedWindow_reparent, EmbedWindow_restyle,
    EmbedWindow_position, GetLastErrorString.
  cbv zeta. walk_calls_by confined_call.
Qed.

Lemma checked_confined op info :
  on_one_window op = true -> only_calls h (confined (handle_arg info)) (checked op info).
Proof.
  intros Hop. unfold handle_arg.
  destruct op; try discriminate Hop; cbn [checked].
  - apply embed_confined.
  - unfold showHide, report_BOOL, GetLastErrorString. cbv zeta. walk_calls_by confined_call.
  - unfold resize, report_BOOL, GetLastErrorString. cbv zeta. walk_calls_by confined_call.
  - unfold move, report_BOOL, GetLastErrorString. cbv zeta. walk_calls_by confined_call.
  - unfold detach, GetLastErrorString. cbv zeta. walk_calls_by confined_call.
  - unfold queryWindowInfo. walk_calls_by confined_call.
Qed.

End Confined.

Lemma window_of_close_ne w h h' : h' <> h -> window_of (close_window h w) h' = window_of w h'.
Proof.
  intros Hne. unfold window_of, close_window. cbn.
  destruct (h' =? 0); [reflexivity|]. apply lookup_delete_ne. congruence.
Qed.

(** One confined call on the synthetic platform leaves the other windows
    and the processes alone. *)
Lemma win32_frame {R} (c : WinCall R) w hwnd h' :
  confined hwnd (Ev c) -> h' <> hwnd ->
  window_of (win32 R c w).2 h' = window_of w h' /\
  processes (win32 R c w).2 = processes w.
Proof.
  intros Hc Hne.
  destruct c; cbn [confined event_window] in Hc; try contradiction; try subst hwnd;
    cbn [win32];
    unfold do_ShowWindow, do_SetParent, do_SetWindowLongW, do_SetWindowPos, do_OpenProcess,
      on_window;
    repeat match goal with
           | |- context [match ?x with _ => _ end] => destruct x
           end;
    cbn [fst snd];
    rewrite ?window_of_SetLastError, ?window_of_put_ne, ?window_of_close_ne by assumption;
    split; reflexivity.
Qed.

Lemma run_frame {A} (p : Prog A) w hwnd h' :
  Forall (confined hwnd) (trace_of (run win32 p w)) -> h' <> hwnd ->
  window_of (state_of (run win32 p w)) h' = window_of w h' /\
  processes (state_of (run win32 p w)) = processes w.
Proof.
  revert w. induction p as [a|R c k IH]; intros w Htrace Hne.
  - split; reflexivity.
  - cbn [run] in Htrace |- *.
    pose proof (win32_frame c w hwnd h') as Hstep.
    destruct (win32 R c w) as [r w1]. cbn [snd] in Hstep.
    specialize (IH r w1).
    destruct (run win32 (k r) w1) as [[a w2] t].
    unfold trace_of, state_of in *. cbn [fst snd] in *.
    inversion Htrace as [|e l Hc Ht]; subst.
    destruct (Hstep Hc Hne) as [Hw Hp]. destruct (IH Ht Hne) as [Hw' Hp'].
    split; congruence.
Qed.

(** X16: on any platform, embed, show/hide, resize, move, detach and the
    window query make their window calls on the handle they were given
    and on no other window, and start or end no process; on the synthetic
    platform they therefore leave every other window and every process as
    they were. *)
Theorem window_operation_confined op info :
  on_one_window op = true ->
  (forall W (h : Handler W) (w : W),
     Forall (confined (handle_arg info)) (trace_of (run h (exported op info) w))) /\
  (forall w h',
     h' <> handle_arg info ->
     window_of (state_of (run win32 (exported op info) w)) h' = window_of w h' /\
     processes (state_of (run win32 (exported op info) w)) = processes w).
Proof.
  intros Hop.
  assert (Hany : forall W (h : Handler W) (w : W),
            Forall (confined (handle_arg info)) (trace_of (run h (exported op info) w))).
  { intros W h w.
    destruct (exported_cases op info) as [[_ Hrun]|[_ [msg Hrun]]]; rewrite Hrun.
    - by apply checked_confined.
    - constructor. }
  split; [exact Hany|].
  intros w h' Hne. apply run_frame with (hwnd := handle_arg info); [apply Hany | exact Hne].
Qed.

Lemma window_operation_confined_witness :
  window_of (state_of (run win32 (exported embedWindow Demo.embed_calculator) Demo.desktop)) 200 =
    Some Demo.host.
Proof.
  destruct (window_operation_confined embedWindow Demo.embed_calculator eq_refl) as [_ Hframe].
  destruct (Hframe Demo.desktop 200) as [Hwin _].
  - vm_compute. discriminate.
  - rewrite Hwin. vm_compute. reflexivity.
Defined.

(** ** Where a successful embed puts the window *)

(** X17: on the synthetic platform, a successful embed leaves the window
    a child of the container it was given, at the corner asked for with
    the size asked for, a negative size counting as zero. *)
Theorem EmbedWindow_success_places w info :
  is_success (result_of (run win32 (EmbedWindow info) w)) ->
  let x := Int32Value (arg info 2) in
  let y := Int32Value (arg info 3) in
  let width := Int32Value (arg info 4) in
  let height := Int32Value (arg info 5) in
  parent_of (after_embed w info) (handle_arg info) = Some (Int64Value (arg info 1)) /\
  rect_of (after_embed w info) (handle_arg info) =
    Some (mkRECT x y (x + Z.max 0 width) (y + Z.max 0 height)).
Proof.
  intros Hs. destruct (EmbedWindow_success_inv w info Hs) as (win & _ & _ & Hemb).
  unfold parent_of, rect_of. rewrite Hemb. split; reflexivity.
Qed.

Lemma EmbedWindow_success_places_witness :
  parent_of (after_embed Demo.desktop Demo.embed_calculator) 100 = Some 200 /\
  rect_of (after_embed Demo.desktop Demo.embed_calculator) 100 = Some (mkRECT 5 6 305 206).
Proof.
  apply (EmbedWindow_success_places Demo.desktop Demo.embed_calculator).
  split; vm_compute; reflexivity.
Defined.

(** * Properties of the application discovery *)

Import Discovery DiscoverySpec.

(** ** Searching in strings *)

Lemma index_skip n str b s :
  String.index (S n) str (String b s) =
  match String.index n str s with Some m => Some (S m) | None => None end.
Proof. reflexivity. Qed.

Lemma index_here str b s :
  String.index 0 str (String b s) =
  if String.prefix str (String b s) then Some 0%nat
  else match String.index 0 str s with Some m => Some (S m) | None => None end.
Proof. reflexivity. Qed.

Lemma prefix_char c b s :
  String.prefix (String c EmptyString) (String b s) = Ascii.eqb c b.
Proof.
  cbn. destruct (ascii_dec c b) as [->|Hne].
  - rewrite Ascii.eqb_refl. by destruct s.
  - symmetry. by apply Ascii.eqb_neq.
Qed.

(** The first occurrence of a character that [p] does not hold. *)
Lemma index_char_app c p rest :
  has_any_of [c] p = false ->
  String.index 0 (String c EmptyString) (p +:+ String c rest) = Some (String.length p).
Proof.
  induction p as [|b p IH]; intros Hp.
  - change ("" +:+ String c rest) with (String c rest).
    rewrite index_here, prefix_char. by rewrite Ascii.eqb_refl.
  - cbn [has_any_of existsb] in Hp. rewrite orb_false_r in Hp.
    apply orb_false_elim in Hp as [Hb Hp].
    change (String b p +:+ String c rest) with (String b (p +:+ String c rest)).
    rewrite index_here, prefix_char. rewrite Ascii.eqb_sym, Hb.
    by rewrite (IH Hp).
Qed.

Lemma substring_prefix_app p rest :
  String.substring 0 (String.length p) (p +:+ rest) = p.
Proof.
  induction p as [|b p IH]; cbn [String.length].
  - by destruct rest.
  - change (String b p +:+ rest) with (String b (p +:+ rest)). cbn. by rewrite IH.
Qed.

Lemma eqb_empty s : String.eqb s "" = true <-> s = "".
Proof. apply String.eqb_eq. Qed.

(** ** The executable named by an uninstall string *)

(** X18: with no install location to search, a quoted uninstall string
    that names an [.exe] gives the path between its first two quotes when
    that path exists, whatever follows the closing quote, and nothing
    when it does not exist. *)
Theorem FindExePath_quoted_uninstall_string m path rest :
  has_any_of [quote] path = false ->
  found ".exe" (String quote (path +:+ String quote rest)) = true ->
  FindExePath m "" (String quote (path +:+ String quote rest)) =
    if PathFileExistsW m path then path else "".
Proof.
  intros Hpath Hexe. unfold FindExePath. cbn [String.eqb negb].
  unfold exe_in_uninstall_string, found in *.
  destruct (find ".exe" _) as [pos|]; [|discriminate].
  unfold find, find_from. rewrite index_here, prefix_char, Ascii.eqb_refl.
  cbn [Nat.add]. rewrite index_skip, (index_char_app quote path rest Hpath).
  replace (S (String.length path) - 0 - 1)%nat with (String.length path) by lia.
  change (String.substring 1 ?n (String ?c ?s)) with (String.substring 0 n s).
  rewrite substring_prefix_app. by destruct (PathFileExistsW m path).
Qed.

Lemma FindExePath_quoted_uninstall_string_witness :
  FindExePath DemoMachine.machine ""
    (String quote ("C:\Tools\unins000.exe" +:+ String quote " /SILENT")) =
  "C:\Tools\unins000.exe".
Proof.
  apply (FindExePath_quoted_uninstall_string DemoMachine.machine "C:\Tools\unins000.exe" " /SILENT");
    reflexivity.
Defined.

(** ** The path cut out of a display-icon string *)

Lemma front_none s : front s = None <-> s = "".
Proof. destruct s; cbn; split; congruence. Qed.

Lemma back_none s : back s = None <-> s = "".
Proof.
  induction s as [|c s IH]; [done|].
  cbn [back]. destruct s as [|c' s]; [split; congruence|].
  rewrite IH. split; congruence.
Qed.

Lemma substr_from_tail c s : substr_from 1 (String c s) = s.
Proof.
  unfold substr_from. cbn [String.length]. rewrite Nat.sub_succ, Nat.sub_0_r.
  change (String.substring 1 ?n (String c s)) with (String.substring 0 n s).
  apply substring_all. lia.
Qed.

(** X19: the registry scan reads the first or last character of an
    empty string exactly when the display icon it cuts the path from is
    empty, starts with a comma, or is a lone quote up to its first comma;
    on every other display icon the cut is defined. *)
Theorem exe_of_icon_undefined displayIcon :
  exe_of_icon displayIcon = None <->
  displayIcon = "" \/
  (exists rest, displayIcon = String ","%char rest) \/
  displayIcon = String quote "" \/
  (exists rest, displayIcon = String quote (String ","%char rest)).
Proof.
  unfold exe_of_icon.
  destruct displayIcon as [|c r].
  { cbn. split; [by left | done]. }
  unfold find, find_from. rewrite index_here, prefix_char.
  destruct (Ascii.eqb_spec ","%char c) as [<-|Hcomma].
  { cbn. split; [intros _; right; left; by eexists | done]. }
  assert (Hhead : exists h,
    match (match String.index 0 "," r with Some m => Some (S m) | None => None end) with
    | Some pos => String.substring 0 pos (String c r)
    | None => String c r
    end = String c h /\
    (h = "" <-> r = "" \/ exists rest, r = String ","%char rest)).
  { destruct r as [|c' r'].
    - exists "". cbn. split; [reflexivity|]. split; [by left | done].
    - rewrite index_here, prefix_char.
      destruct (Ascii.eqb_spec ","%char c') as [<-|Hc'].
      + exists "". cbn [String.substring]. split; [reflexivity|].
        split; [intros _; right; by eexists | done].
      + destruct (String.index 0 "," r') as [n|].
        * exists (String c' (String.substring 0 n r')). cbn [String.substring].
          split; [reflexivity|]. split; [discriminate|].
          intros [?|[rest ?]]; [discriminate|congruence].
        * exists (String c' r'). split; [reflexivity|]. split; [discriminate|].
          intros [?|[rest ?]]; [discriminate|congruence]. }
  destruct Hhead as (h & -> & Hh). cbn [front].
  destruct (Ascii.eqb_spec c quote) as [->|Hq].
  - rewrite substr_from_tail.
    destruct (back h) eqn:Hback.
    + split; [discriminate|].
      assert (h <> "") by (intros ->; discriminate).
      intros [?|[[rest ?]|[?|[rest ?]]]]; exfalso; try discriminate; try congruence.
      * apply H, Hh. left. congruence.
      * apply H, Hh. right. exists rest. congruence.
    + apply back_none in Hback. apply Hh in Hback. split; [intros _|done].
      destruct Hback as [->|[rest ->]]; [right; right; by left|].
      right; right; right. by eexists.
  - destruct (back (String c h)) eqn:Hback.
    + split; [discriminate|].
      intros [?|[[rest ?]|[?|[rest ?]]]]; exfalso; try discriminate; congruence.
    + apply back_none in Hback. discriminate.
Qed.

(** ** The files the directory scan collects *)

Lemma substring_nested s m k n len :
  (k + n <= len)%nat ->
  String.substring k n (String.substring m len s) = String.substring (m + k) n s.
Proof.
  revert m k n len. induction s as [|c s IH]; intros m k n len Hlen.
  - destruct m, len, k, n; reflexivity.
  - destruct m as [|m]; [|cbn [Nat.add String.substring]; by apply IH].
    cbn [Nat.add]. destruct len as [|len].
    + destruct k, n; try lia. reflexivity.
    + cbn [String.substring]. destruct k as [|k].
      * destruct n as [|n]; [reflexivity|]. cbn [String.substring]. f_equal.
        apply (IH 0%nat 0%nat). lia.
      * cbn [String.substring]. apply (IH 0%nat). lia.
Qed.

Lemma found_iff str s :
  str <> "" -> found str s = true <-> exists m, String.substring m (String.length str) s = str.
Proof.
  intros Hstr. unfold found, find, find_from. split.
  - destruct (String.index 0 str s) as [m|] eqn:Hi; [|discriminate].
    intros _. exists m. by apply index_correct1 with (n := 0%nat).
  - intros [m Hm]. destruct (String.index 0 str s) as [m'|] eqn:Hi; [reflexivity|].
    exfalso. apply (index_correct3 0 m str s Hi Hstr); [lia | exact Hm].
Qed.

(** A string that holds [outer] holds what [outer] holds at [k]. *)
Lemma found_inside outer inner k s :
  inner <> "" -> outer <> "" ->
  String.substring k (String.length inner) outer = inner ->
  (k + String.length inner <= String.length outer)%nat ->
  found outer s = true -> found inner s = true.
Proof.
  intros Hinner Houter Hin Hlen Hfound.
  apply (found_iff outer s Houter) in Hfound as [m Hm].
  apply (found_iff inner s Hinner). exists (m + k)%nat.
  rewrite <- (substring_nested s m k _ (String.length outer)) by exact Hlen.
  by rewrite Hm.
Qed.

(** X20: the uninstaller test of the directory scan never decides: the
    installer test after it rejects every name the uninstaller test
    rejects, so a file is collected exactly when its name holds [.exe]
    and, in lower case, neither [setup] nor [install]. *)
Theorem is_wanted_exe_tests name :
  is_wanted_exe name =
    found ".exe" name && negb (found "setup" (lowered name))
    && negb (found "install" (lowered name)).
Proof.
  unfold is_wanted_exe. cbv zeta.
  destruct (found "uninstall" (lowered name)) eqn:Hun; [|by rewrite andb_assoc].
  rewrite (found_inside "uninstall" "install" 2 (lowered name)); try done.
  cbn [negb]. by rewrite !andb_false_r.
Qed.

(** ** The directory scan *)

Lemma with_backslash_defined dirPath :
  dirPath <> "" -> exists prefix, with_backslash dirPath = Some prefix /\ prefix <> "".
Proof.
  intros Hne. unfold with_backslash.
  destruct (back dirPath) as [c|] eqn:Hback.
  - eexists. split; [reflexivity|].
    destruct (negb (Ascii.eqb c "\"%char)); [|exact Hne].
    destruct dirPath; [done|discriminate].
  - by apply back_none in Hback.
Qed.

Lemma append_nonempty a b : a <> "" -> a +:+ b <> "".
Proof. destruct a; [done|discriminate]. Qed.

Section Entries.
Context (recurse : string -> list string -> option (list string)).
Context (Q : string -> string -> Prop).
Context (dirPath prefix : string).
Hypothesis Hprefix : with_backslash dirPath = Some prefix.
Hypothesis Hrecurse : forall sub paths,
  exists new, recurse (prefix +:+ sub) paths = Some (paths ++ new) /\
              forall p, In p new <-> Q (prefix +:+ sub) p.

Lemma FindExecutables_entries_spec entries exePaths :
  exists new,
    FindExecutables_entries recurse dirPath entries exePaths = Some (exePaths ++ new) /\
    forall p, In p new <-> exists findData, In findData entries /\ contributes Q prefix findData p.
Proof using Hprefix Hrecurse.
  revert exePaths. induction entries as [|findData rest IH]; intros exePaths.
  - exists []. rewrite app_nil_r. split; [reflexivity|].
    intros p. split; [done|]. by intros (fd & [] & _).
  - cbn [FindExecutables_entries].
    assert (Hskip : (forall p, ~ contributes Q prefix findData p) ->
      exists new,
        FindExecutables_entries recurse dirPath rest exePaths = Some (exePaths ++ new) /\
        forall p, In p new <-> exists fd, In fd (findData :: rest) /\ contributes Q prefix fd p).
    { intros Hnone. destruct (IH exePaths) as (new & Hrun & Hnew).
      exists new. split; [exact Hrun|]. intros p. rewrite Hnew. split.
      - intros (fd & Hin & Hc). exists fd. split; [by right|exact Hc].
      - intros (fd & [<-|Hin] & Hc); [by apply Hnone in Hc|]. by exists fd. }
    destruct (String.eqb (cFileName findData) "." || String.eqb (cFileName findData) "..")
      eqn:Hdots.
    { apply Hskip. intros p [Hreal _]. unfold is_real_entry in Hreal.
      rewrite Hdots in Hreal. discriminate. }
    rewrite Hprefix.
    destruct (is_directory findData) eqn:Hdir.
    + destruct (is_system_directory (cFileName findData)) eqn:Hsys.
      { apply Hskip. intros p [_ Hc]. rewrite Hdir in Hc. destruct Hc. congruence. }
      destruct (Hrecurse (cFileName findData) exePaths) as (new1 & -> & Hnew1).
      destruct (IH (exePaths ++ new1)) as (new2 & -> & Hnew2).
      exists (new1 ++ new2). rewrite app_assoc. split; [reflexivity|].
      intros p. rewrite in_app_iff, Hnew1, Hnew2. split.
      * intros [HQ|(fd & Hin & Hc)].
        -- exists findData. split; [by left|]. split.
           ++ unfold is_real_entry. by rewrite Hdots.
           ++ by rewrite Hdir.
        -- exists fd. split; [by right|exact Hc].
      * intros (fd & [<-|Hin] & Hc).
        -- left. destruct Hc as [_ Hc]. rewrite Hdir in Hc. apply Hc.
        -- right. by exists fd.
    + destruct (is_wanted_exe (cFileName findData)) eqn:Hwanted.
      2:{ apply Hskip. intros p [_ Hc]. rewrite Hdir in Hc. destruct Hc. congruence. }
      destruct (IH (exePaths ++ [prefix +:+ cFileName findData])) as (new2 & -> & Hnew2).
      exists ((prefix +:+ cFileName findData) :: new2).
      rewrite <- app_assoc. split; [reflexivity|].
      intros p. cbn [In]. rewrite Hnew2. split.
      * intros [<-|(fd & Hin & Hc)].
        -- exists findData. split; [by left|]. split.
           ++ unfold is_real_entry. by rewrite Hdots.
           ++ by rewrite Hdir.
        -- exists fd. split; [by right|exact Hc].
      * intros (fd & [<-|Hin] & Hc).
        -- left. destruct Hc as [_ Hc]. rewrite Hdir in Hc. by destruct Hc.
        -- right. by exists fd.
Qed.

End Entries.

Lemma FindExecutables_levels_spec m levels dirPath exePaths :
  dirPath <> "" ->
  exists new,
    FindExecutables_levels m levels dirPath exePaths = Some (exePaths ++ new) /\
    forall p, In p new <-> listed_below m levels dirPath p.
Proof.
  revert dirPath exePaths. induction levels as [|levels IH]; intros dirPath exePaths Hne.
  - exists []. rewrite app_nil_r. split; [reflexivity|]. intros p. by split.
  - destruct (with_backslash_defined dirPath Hne) as (prefix & Hprefix & Hpne).
    cbn [FindExecutables_levels listed_below]. rewrite Hprefix.
    destruct (FindExecutables_entries_spec (FindExecutables_levels m levels)
                (listed_below m levels) dirPath prefix Hprefix
                (fun sub paths => IH (prefix +:+ sub) paths (append_nonempty _ _ Hpne))
                (find_files m (prefix +:+ "*")) exePaths) as (new & Hrun & Hnew).
    exists new. split; [exact Hrun|]. intros p. rewrite Hnew. split.
    + intros (fd & Hin & Hc). by exists prefix, fd.
    + intros (prefix' & fd & Hp' & Hin & Hc).
      assert (prefix' = prefix) as -> by congruence.
      by exists fd.
Qed.

(** X21: the directory scan on a directory path that is not empty
    always comes back, keeps the paths it was handed and appends to them
    exactly the executables the machine lists less than
    [maxDepth - currentDepth] levels below the directory: files whose name
    passes the name tests, reached through subdirectories that are not
    system directories, [.] and [..] left aside. *)
Theorem FindExecutablesInDirectory_collects m dirPath exePaths maxDepth currentDepth :
  dirPath <> "" ->
  exists new,
    FindExecutablesInDirectory m dirPath exePaths maxDepth currentDepth =
      Some (exePaths ++ new) /\
    forall p, In p new <->
              listed_below m (Z.to_nat (maxDepth - currentDepth)) dirPath p.
Proof. intros Hne. by apply FindExecutables_levels_spec. Qed.

Lemma FindExecutablesInDirectory_collects_witness :
  exists new,
    FindExecutablesInDirectory DemoMachine.machine "C:\Program Files" ["C:\first.exe"] 2 0 =
      Some (["C:\first.exe"] ++ new) /\
    forall p, In p new <-> listed_below DemoMachine.machine 2 "C:\Program Files" p.
Proof.
  apply (FindExecutablesInDirectory_collects DemoMachine.machine "C:\Program Files"
           ["C:\first.exe"] 2 0).
  discriminate.
Defined.

(** ** The last of a set of characters *)

Lemma find_last_of_from_app chars a b pos seen :
  find_last_of_from chars (a +:+ b) pos seen =
  find_last_of_from chars b (pos + String.length a) (find_last_of_from chars a pos seen).
Proof.
  revert pos seen. induction a as [|c a IH]; intros pos seen.
  - change ("" +:+ b) with b. cbn. by rewrite Nat.add_0_r.
  - change (String c a +:+ b) with (String c (a +:+ b)).
    cbn [find_last_of_from String.length]. rewrite IH. by rewrite Nat.add_succ_r.
Qed.

Lemma find_last_of_from_none chars s pos seen :
  has_any_of chars s = false -> find_last_of_from chars s pos seen = seen.
Proof.
  revert pos seen. induction s as [|c s IH]; intros pos seen Hs; [reflexivity|].
  cbn [has_any_of] in Hs. apply orb_false_elim in Hs as [Hc Hs].
  cbn [find_last_of_from]. rewrite Hc. by apply IH.
Qed.

Lemma find_last_of_split chars a c d :
  existsb (Ascii.eqb c) chars = true -> has_any_of chars d = false ->
  find_last_of chars (a +:+ String c d) = Some (String.length a).
Proof.
  intros Hc Hd. unfold find_last_of.
  rewrite find_last_of_from_app. cbn [find_last_of_from]. rewrite Hc.
  by rewrite find_last_of_from_none.
Qed.

Lemma substr_from_split a c d : substr_from (String.length a + 1) (a +:+ String c d) = d.
Proof.
  unfold substr_from. rewrite substring_app_skip.
  change (String.substring 1 ?n (String c d)) with (String.substring 0 n d).
  apply substring_all. rewrite length_app_string. cbn [String.length]. lia.
Qed.

Lemma has_any_of_app chars a b :
  has_any_of chars (a +:+ b) = has_any_of chars a || has_any_of chars b.
Proof.
  induction a as [|c a IH]; [reflexivity|].
  change (String c a +:+ b) with (String c (a +:+ b)).
  cbn [has_any_of]. by rewrite IH, orb_assoc.
Qed.

(** ** The name of an application found in the program directories *)

(** X22: for an executable path made of a directory, a separator, a
    base name and an extension after a dot, where neither the base name
    nor the extension holds a separator and the extension holds no dot,
    the application name is the base name, dots in it included. *)
Theorem app_name_of_path dir sep base ext :
  existsb (Ascii.eqb sep) separators = true ->
  has_any_of separators base = false ->
  has_any_of ("."%char :: separators) ext = false ->
  app_name_of (dir +:+ String sep (base +:+ String "."%char ext)) = base.
Proof.
  intros Hsep Hbase Hext. unfold app_name_of.
  assert (Hext_sep : has_any_of separators ext = false).
  { clear -Hext. induction ext as [|c ext IH]; [reflexivity|].
    cbn [has_any_of existsb] in Hext |- *.
    apply orb_false_elim in Hext as [Hc Hext]. apply orb_false_elim in Hc as [_ Hc].
    cbn [separators existsb] in Hc |- *. by rewrite Hc, IH. }
  assert (Hext_dot : has_any_of ["."%char] ext = false).
  { clear -Hext. induction ext as [|c ext IH]; [reflexivity|].
    cbn [has_any_of existsb] in Hext |- *.
    apply orb_false_elim in Hext as [Hc Hext]. apply orb_false_elim in Hc as [Hc _].
    by rewrite Hc, IH. }
  change ["\"%char; "/"%char] with separators.
  rewrite find_last_of_split; [|exact Hsep|].
  2:{ rewrite has_any_of_app, Hbase. cbn [has_any_of]. by rewrite Hext_sep. }
  rewrite substr_from_split.
  rewrite find_last_of_split; [|reflexivity|exact Hext_dot].
  apply substring_prefix_app.
Qed.

Lemma app_name_of_path_witness :
  app_name_of "C:\Program Files\Editor\editor.v2.exe" = "editor.v2".
Proof.
  apply (app_name_of_path "C:\Program Files\Editor" "\"%char "editor.v2" "exe"); reflexivity.
Defined.

(** ** The identifiers of the applications found *)

Lemma string_of_uint_digits d : has_any_of ["_"%char] (NilEmpty.string_of_uint d) = false.
Proof. induction d; cbn [NilEmpty.string_of_uint has_any_of]; try rewrite IHd; reflexivity. Qed.

Lemma to_string_digits n : has_any_of ["_"%char] (to_string n) = false.
Proof.
  unfold to_string, NilZero.string_of_uint.
  destruct (Nat.to_uint n); try apply string_of_uint_digits. reflexivity.
Qed.

Lemma to_string_inj i j : to_string i = to_string j -> i = j.
Proof.
  unfold to_string. intros H.
  assert (Hnn : forall n, Nat.to_uint n <> Decimal.Nil).
  { intros n Hn. pose proof (f_equal Nat.of_uint Hn) as Hz.
    rewrite Unsigned.of_to in Hz. cbn in Hz. subst n. vm_compute in Hn. discriminate Hn. }
  apply (f_equal NilZero.uint_of_string) in H.
  rewrite !NilZero.usu in H by apply Hnn.
  injection H as H. apply (f_equal Nat.of_uint) in H. by rewrite !Unsigned.of_to in H.
Qed.

(** An identifier with its index decides the index. *)
Lemma indexed_id_inj a i b j :
  (a +:+ "_") +:+ to_string i = (b +:+ "_") +:+ to_string j -> i = j.
Proof.
  intros H.
  assert (Hcut : forall x n,
    match find_last_of ["_"%char] ((x +:+ "_") +:+ to_string n) with
    | Some pos => substr_from (pos + 1) ((x +:+ "_") +:+ to_string n)
    | None => ""
    end = to_string n).
  { intros x n.
    assert (Hshape : (x +:+ "_") +:+ to_string n = x +:+ String "_"%char (to_string n)).
    { induction x as [|c x IH]; [reflexivity|].
      change (String c x +:+ ?y) with (String c (x +:+ y)).
      change ((String c ?y) +:+ ?z) with (String c (y +:+ z)). by rewrite IH. }
    rewrite Hshape, find_last_of_split by (reflexivity || apply to_string_digits).
    apply substr_from_split. }
  apply to_string_inj. rewrite <- (Hcut a i), <- (Hcut b j). by rewrite H.
Qed.

Lemma program_object_id k p :
  program_object k p !! "id" =
    Some (JsString ((WideToUtf8 (app_name_of p) +:+ "_") +:+ to_string k)).
Proof.
  unfold program_object. cbv zeta.
  rewrite !lookup_insert_ne by discriminate. apply lookup_insert_eq.
Qed.

Lemma program_objects_ids k paths :
  NoDup (ids_of (program_objects k paths)) /\
  Forall (fun oid => exists n name, (k <= n)%nat /\
                       oid = Some (JsString ((name +:+ "_") +:+ to_string n)))
         (ids_of (program_objects k paths)).
Proof.
  revert k. induction paths as [|p paths IH]; intros k.
  - split; constructor.
  - destruct (IH (S k)) as [Hnodup Hall].
    cbn [program_objects ids_of map]. fold (ids_of (program_objects (S k) paths)).
    rewrite program_object_id. split.
    + constructor; [|exact Hnodup].
      intros Hin. rewrite Forall_forall in Hall.
      destruct (Hall _ Hin) as (n & name & Hn & Heq).
      injection Heq as Heq. apply indexed_id_inj in Heq. lia.
    + constructor; [by exists k, (WideToUtf8 (app_name_of p))|].
      eapply Forall_impl; [exact Hall|].
      intros oid (n & name & Hn & ->). exists n, name. split; [lia|reflexivity].
Qed.

Lemma scan_programDirs_defined m dirs exePaths :
  Forall (fun d => d <> "") dirs ->
  exists found_paths, scan_programDirs m dirs exePaths = Some found_paths.
Proof.
  intros Hdirs. revert exePaths. induction Hdirs as [|d dirs Hd Hdirs IH]; intros exePaths.
  - by eexists.
  - cbn [scan_programDirs]. destruct (PathFileExistsW m d); [|apply IH].
    destruct (FindExecutables_levels_spec m (Z.to_nat (2 - 0)) d exePaths Hd)
      as (new & Hrun & _).
    unfold FindExecutablesInDirectory. rewrite Hrun. apply IH.
Qed.

(** X23: the scan of the program directories comes back on every
    machine, and the applications it lists carry identifiers that are
    pairwise different, whatever their names: the index at the end of
    each tells them apart. *)
Theorem ScanProgramFiles_ids m :
  exists apps, ScanProgramFiles m = Some apps /\ NoDup (ids_of apps).
Proof.
  unfold ScanProgramFiles.
  destruct (scan_programDirs_defined m programDirs []) as (paths & ->).
  { repeat constructor; discriminate. }
  eexists. split; [reflexivity|]. apply program_objects_ids.
Qed.

(** ** The system applications *)

Lemma NoDup_map_filter {A B} (f : A -> B) (P : A -> bool) (l : list A) :
  NoDup (map f l) -> NoDup (map f (List.filter P l)).
Proof.
  induction l as [|a l IH]; [done|].
  cbn [map List.filter]. intros Hnd. apply NoDup_cons in Hnd as [Hnotin Hnd].
  destruct (P a); [|by apply IH].
  cbn [map]. apply NoDup_cons. split; [|by apply IH].
  intros Hin. apply Hnotin.
  apply list_elem_of_In in Hin. apply in_map_iff in Hin as (x & Hx & Hin).
  apply List.filter_In in Hin as [Hin _].
  apply list_elem_of_In, in_map_iff. by exists x.
Qed.

Lemma NoDup_map_inj {A B} (f : A -> B) (l : list A) :
  (forall x y, f x = f y -> x = y) -> NoDup l -> NoDup (map f l).
Proof.
  intros Hinj. induction l as [|a l IH]; [constructor|].
  intros Hnd. apply NoDup_cons in Hnd as [Hnotin Hnd]. cbn [map].
  apply NoDup_cons. split; [|by apply IH].
  intros Hin. apply Hnotin.
  apply list_elem_of_In in Hin. apply in_map_iff in Hin as (x & Hx & Hin).
  apply Hinj in Hx. subst x. by apply list_elem_of_In.
Qed.

Lemma system_object_id app :
  system_object app !! "id" = Some (JsString (WideToUtf8 (sa_exeName app) +:+ "_system")).
Proof.
  unfold system_object, app_object.
  rewrite !lookup_insert_ne by discriminate. apply lookup_insert_eq.
Qed.

(** X24: on every machine the system applications listed are exactly
    the entries of the table whose path exists, in the order of the
    table, and their identifiers are pairwise different. *)
Theorem ScanSystemApps_lists m :
  (forall obj, In obj (ScanSystemApps m) <->
               exists app, In app systemApps /\ PathFileExistsW m (sa_path app) = true /\
                           obj = system_object app) /\
  NoDup (ids_of (ScanSystemApps m)).
Proof.
  unfold ScanSystemApps. split.
  - intros obj. rewrite in_map_iff. split.
    + intros (app & <- & Hin). apply List.filter_In in Hin as [Hin Hex]. by exists app.
    + intros (app & Hin & Hex & ->). exists app. split; [reflexivity|].
      apply List.filter_In. by split.
  - unfold ids_of. rewrite map_map. apply NoDup_map_filter.
    erewrite map_ext by (intros; apply system_object_id).
    rewrite <- (map_map (fun app => WideToUtf8 (sa_exeName app) +:+ "_system")
                  (fun s => Some (JsString s))).
    apply NoDup_map_inj.
    + intros s1 s2 [= ->]. reflexivity.
    + apply (bool_decide_unpack _). vm_compute. reflexivity.
Qed.

(** ** The registry scan *)

Lemma ScanRegistry_entry_listed m subKeyName app :
  ScanRegistry_entry m subKeyName = Some (Some app) -> listed_app m subKeyName app.
Proof.
  unfold ScanRegistry_entry, listed_app. cbv zeta.
  set (subKey := (uninstall_key +:+ "\") +:+ subKeyName).
  destruct (String.eqb_spec (ReadRegistryString m subKey "DisplayName") "") as [|Hname];
    [discriminate|].
  destruct (is_system_update _) eqn:Hupd; [discriminate|].
  match goal with
  | |- match ?c with Some _ => _ | None => _ end = _ -> _ =>
      destruct c as [exePath|]; [|discriminate]
  end.
  destruct (String.eqb_spec exePath "") as [|Hpath]; [discriminate|].
  cbn [orb]. destruct (PathFileExistsW m exePath) eqn:Hex; [|discriminate].
  cbn [negb]. intros [= <-]. by exists exePath.
Qed.

Lemma ScanRegistry_loop_listed m subKeys result apps :
  ScanRegistry_loop m subKeys result = Some apps ->
  exists new,
    apps = result ++ new /\ (length new <= length subKeys)%nat /\
    Forall (fun app => exists subKeyName, In subKeyName subKeys /\ listed_app m subKeyName app)
           new.
Proof.
  revert result. induction subKeys as [|k rest IH]; intros result.
  - intros [= <-]. exists []. rewrite app_nil_r. repeat split; [done|constructor].
  - cbn [ScanRegistry_loop].
    destruct (256 <=? String.length k)%nat.
    { intros [= <-]. exists []. rewrite app_nil_r. repeat split; [cbn; lia|constructor]. }
    destruct (ScanRegistry_entry m k) as [[app|]|] eqn:Hentry; [| |discriminate].
    + intros Hrun. destruct (IH _ Hrun) as (new & -> & Hlen & Hall).
      exists (app :: new). rewrite <- app_assoc. repeat split; [cbn; lia|].
      constructor.
      * exists k. split; [by left|]. by apply ScanRegistry_entry_listed.
      * eapply Forall_impl; [exact Hall|]. intros a (k' & Hin & Hl). exists k'.
        split; [by right|exact Hl].
    + intros Hrun. destruct (IH _ Hrun) as (new & -> & Hlen & Hall).
      exists new. repeat split; [cbn; lia|].
      eapply Forall_impl; [exact Hall|]. intros a (k' & Hin & Hl). exists k'.
      split; [by right|exact Hl].
Qed.

(** X25: whenever the registry scan comes back, every application it
    lists belongs to a subkey of the uninstall key, has a display name
    that is not empty and does not hold [update], [hotfix] or [kb] in
    lower case, and a path that is not empty and exists; there are no
    more applications than subkeys. *)
Theorem ScanRegistry_lists m apps :
  ScanRegistry m = Some apps ->
  let subKeys := default [] (reg_subkeys m uninstall_key) in
  (length apps <= length subKeys)%nat /\
  Forall (fun app => exists subKeyName, In subKeyName subKeys /\ listed_app m subKeyName app)
         apps.
Proof.
  unfold ScanRegistry. destruct (reg_subkeys m uninstall_key) as [subKeys|]; cbn [default].
  - intros Hrun. destruct (ScanRegistry_loop_listed m subKeys [] apps Hrun)
      as (new & -> & Hlen & Hall). by split.
  - intros [= <-]. split; [done|constructor].
Qed.

Lemma ScanRegistry_lists_witness :
  let apps := default [] (ScanRegistry DemoMachine.machine) in
  (length apps <= 4)%nat /\
  Forall (fun app => exists subKeyName,
            In subKeyName ["Editor"; "Tools"; "KB5001"; "Ghost"] /\
            listed_app DemoMachine.machine subKeyName app) apps.
Proof.
  apply (ScanRegistry_lists DemoMachine.machine (default [] (ScanRegistry DemoMachine.machine))).
  vm_compute. reflexivity.
Defined.

(** ** The executable found in the install location *)

Lemma append_assoc_string a b c : (a +:+ b) +:+ c = a +:+ (b +:+ c).
Proof.
  induction a as [|x a IH]; [reflexivity|].
  change (String x a +:+ b) with (String x (a +:+ b)).
  change (String x ?y +:+ ?z) with (String x (y +:+ z)). by rewrite IH.
Qed.




